(** * create_snapshot.py: a shallow embedding and its verified properties

    The script gathers a diagnostic bundle of a cluster: it lists the
    namespaces, runs a fixed catalogue of [kubectl] commands, then per
    namespace a second catalogue and per container of each pod a third,
    retrying every command with a doubling pause, writes each command's
    output to a file whose path is derived from the command line, and packs
    the files into one archive.

    Definitions:
    - [PyStr]    the Python [str] and [list] primitives the script calls;
    - [PathLib]  the part of [pathlib.PurePosixPath] the script relies on;
    - [Snapshot] the script: constants, [parse_args], [run_cmd],
                 [get_kubectl_list], [main], over an abstract operating
                 system, in a state-and-exception monad;
    - [Observe]  what is read off a run: commands started, pauses, files;
    - [Worlds]   small concrete clusters for the examples.

    Theorems: one iteration of the two retry loops, the loops as a whole,
    the output file, the parsing of listings, the paths of output files,
    what a whole run can start and which files it creates; then the
    schedule of the listing loop, every effect of the two functions, how a
    run can end, the archive step, and the traversal of any cluster. *)

From Stdlib Require Import ZArith List String Ascii Bool Lia.
From Stdlib Require Import DecimalString DecimalPos DecimalZ.
From stdpp Require Import base option list gmap strings.

Local Open Scope string_scope.
Local Open Scope Z_scope.

(* ===================================================================== *)
(** ** Python string and list primitives *)
(* ===================================================================== *)

Module PyStr.

(** Text is a sequence of code points below 256, one [ascii] each. *)

(** [s.replace(old, new)] for one-character [old] and [new]. *)
Fixpoint replace (old new : ascii) (s : string) : string :=
  match s with
  | EmptyString => EmptyString
  | String c r =>
      String (if Ascii.eqb c old then new else c) (replace old new r)
  end.

(** [s.split(sep)] for a one-character separator: never returns the empty
    list, and [''.split(' ')] is [['']]. *)
Fixpoint split (sep : ascii) (s : string) : list string :=
  match s with
  | EmptyString => [EmptyString]
  | String c r =>
      if Ascii.eqb c sep then EmptyString :: split sep r
      else match split sep r with
           | h :: t => String c h :: t
           | [] => [String c EmptyString]
           end
  end.

(** [sep.join(l)]. *)
Fixpoint join (sep : string) (l : list string) : string :=
  match l with
  | [] => EmptyString
  | [x] => x
  | x :: r => x ++ sep ++ join sep r
  end.

(** [c.isspace()] on code points below 256. *)
Definition isspace (c : ascii) : bool :=
  let n := nat_of_ascii c in
  ((9 <=? n)%nat && (n <=? 13)%nat)
  || ((28 <=? n)%nat && (n <=? 32)%nat)
  || (n =? 133)%nat || (n =? 160)%nat.

Fixpoint lstrip (s : string) : string :=
  match s with
  | EmptyString => EmptyString
  | String c r => if isspace c then lstrip r else s
  end.

Fixpoint rstrip (s : string) : string :=
  match s with
  | EmptyString => EmptyString
  | String c r =>
      match rstrip r with
      | EmptyString => if isspace c then EmptyString else String c EmptyString
      | r' => String c r'
      end
  end.

(** [s.strip()]. *)
Definition strip (s : string) : string := rstrip (lstrip s).

(** [x in l] for a list of strings. *)
Definition contains (x : string) (l : list string) : bool :=
  existsb (String.eqb x) l.

(** [l.remove(x)]: drops the first element equal to [x]; raises
    [ValueError] ([None] here) when there is none. *)
Fixpoint remove (x : string) (l : list string) : option (list string) :=
  match l with
  | [] => None
  | y :: r => if String.eqb y x then Some r
              else option_map (cons y) (remove x r)
  end.

(** [str(n)] for an [int]. *)
Definition str_of_int (n : Z) : string :=
  NilZero.string_of_int (Z.to_int n).

(** [s.startswith(p)]. *)
Definition startswith (p s : string) : bool := String.prefix p s.

(** [sub in s] for strings. *)
Fixpoint substring_of (sub s : string) : bool :=
  String.prefix sub s ||
  match s with
  | EmptyString => false
  | String _ r => substring_of sub r
  end.

(** [tpl.format( *args, **kw)], for replacement fields without conversion
    or format specification.  [{{] and [}}] are escapes; an empty field
    name takes the next positional argument; any other name is looked up
    among the keyword arguments.  [None] stands for the [ValueError],
    [IndexError] or [KeyError] Python raises. *)
Fixpoint assoc (k : string) (kw : list (string * string)) : option string :=
  match kw with
  | [] => None
  | (k', v) :: r => if String.eqb k' k then Some v else assoc k r
  end.

Definition field_value (args : list string) (kw : list (string * string))
    (next : nat) (name : string) : option (string * nat) :=
  match name with
  | EmptyString => option_map (fun v => (v, S next)) (nth_error args next)
  | _ => option_map (fun v => (v, next)) (assoc name kw)
  end.

Fixpoint format_from (args : list string) (kw : list (string * string))
    (next : nat) (field : option string) (tpl : string) : option string :=
  match field, tpl with
  | None, EmptyString => Some EmptyString
  | None, String "{" (String "{" r) =>
      option_map (String "{") (format_from args kw next None r)
  | None, String "{" r => format_from args kw next (Some EmptyString) r
  | None, String "}" (String "}" r) =>
      option_map (String "}") (format_from args kw next None r)
  | None, String "}" _ => None
  | None, String c r => option_map (String c) (format_from args kw next None r)
  | Some _, EmptyString => None
  | Some name, String "}" r =>
      match field_value args kw next name with
      | Some (v, next') =>
          option_map (String.append v) (format_from args kw next' None r)
      | None => None
      end
  | Some name, String c r =>
      format_from args kw next (Some (name ++ String c EmptyString)) r
  end.

Definition format (tpl : string) (args : list string)
    (kw : list (string * string)) : option string :=
  format_from args kw 0%nat None tpl.

End PyStr.

(* ===================================================================== *)
(** ** pathlib.PurePosixPath *)
(* ===================================================================== *)

Module PathLib.

(** A parsed path: its root (empty, one slash, or two slashes) and its
    name components. *)
Record Path : Type := mkPath { root : string; names : list string }.

Fixpoint lstrip_sep (s : string) : string :=
  match s with
  | String "/" r => lstrip_sep r
  | _ => s
  end.

(** [_PosixFlavour.splitroot]: exactly two leading slashes are kept as a
    root of their own, any other number collapses to one. *)
Definition splitroot (part : string) : string * string :=
  match part with
  | String "/" _ =>
      let stripped := lstrip_sep part in
      if (String.length part - String.length stripped =? 2)%nat
      then ("//", stripped) else ("/", stripped)
  | _ => (EmptyString, part)
  end.

Definition keep_name (x : string) : bool :=
  negb (String.eqb x EmptyString) && negb (String.eqb x ".").

(** [PurePosixPath(s)]. *)
Definition parse (s : string) : Path :=
  let '(rt, rel) := splitroot s in
  mkPath rt (List.filter keep_name (PyStr.split "/" rel)).

Definition is_absolute (p : Path) : bool :=
  negb (String.eqb (root p) EmptyString).

(** [p / q] for two parsed paths: an absolute right operand wins. *)
Definition join (p q : Path) : Path :=
  if is_absolute q then q else mkPath (root p) (names p ++ names q).

(** [p / s]. *)
Definition truediv (p : Path) (s : string) : Path := join p (parse s).

(** [p.parent]. *)
Definition parent (p : Path) : Path :=
  mkPath (root p) (removelast (names p)).

(** [str(p)]. *)
Definition str (p : Path) : string :=
  match root p, names p with
  | EmptyString, [] => "."
  | rt, ns => rt ++ PyStr.join "/" ns
  end.

(** [p.absolute()], with [cwd] the result of [os.getcwd()]. *)
Definition absolute (cwd : string) (p : Path) : Path :=
  if is_absolute p then p else join (parse cwd) p.

(** Whether [p] lies strictly inside the tree of directory [dir]. *)
Definition under (dir p : Path) : bool :=
  String.eqb (root dir) (root p)
  && (length (names dir) <? length (names p))%nat
  && bool_decide (take (length (names dir)) (names p) = names dir).

#[global] Instance Path_eq_dec : EqDecision Path.
Proof. solve_decision. Defined.

#[global] Instance Path_countable : Countable Path :=
  inj_countable' (fun p => (root p, names p))
                 (fun rn => mkPath rn.1 rn.2)
                 (fun p => match p with mkPath _ _ => eq_refl end).

End PathLib.

(* ===================================================================== *)
(** ** The script *)
(* ===================================================================== *)

Module Snapshot.

Import PyStr.
Local Open Scope list_scope.

Definition CMD_TIMEOUT_SEC : Z := 15.
Definition BACKOFF_LIMIT : Z := 4.

(** The double quote character of the listing template. *)
Definition dq : string := String "034"%char EmptyString.

Definition KUBECTL_GLOBAL_CMDS : list string := [
  "kubectl version {kubeconfig_arg} --request-timeout {timeout}";
  "kubectl cluster-info {kubeconfig_arg} --request-timeout {timeout}";
  "kubectl get clusterroles -o wide {kubeconfig_arg} --request-timeout {timeout}";
  "kubectl get clusterrolebindings -o wide {kubeconfig_arg} --request-timeout {timeout}";
  "kubectl get crd -o wide {kubeconfig_arg} --request-timeout {timeout}";
  "kubectl get nodes -o wide {kubeconfig_arg} --request-timeout {timeout}";
  "kubectl get clusterroles -o yaml {kubeconfig_arg} --request-timeout {timeout}";
  "kubectl get clusterrolebindings -o yaml {kubeconfig_arg} --request-timeout {timeout}";
  "kubectl get crd -o yaml {kubeconfig_arg} --request-timeout {timeout}";
  "kubectl get nodes -o yaml {kubeconfig_arg} --request-timeout {timeout}";
  "kubectl describe clusterroles {kubeconfig_arg} --request-timeout {timeout}";
  "kubectl describe clusterrolebindings {kubeconfig_arg} --request-timeout {timeout}";
  "kubectl describe crd {kubeconfig_arg} --request-timeout {timeout}";
  "kubectl describe nodes {kubeconfig_arg} --request-timeout {timeout}"
]%string.

Definition KUBECTL_PER_NS_CMDS : list string := [
  "kubectl get all -o wide {kubeconfig_arg} --request-timeout {timeout} --namespace {namespace}";
  "kubectl get all -o yaml {kubeconfig_arg} --request-timeout {timeout} --namespace {namespace}";
  "kubectl describe all {kubeconfig_arg} --request-timeout {timeout} --namespace {namespace}"
]%string.

Definition KUBECTL_PER_POD_CMDS : list string := [
  "kubectl logs {kubeconfig_arg} {pod} --container {container} --request-timeout {timeout} --namespace {namespace}"
]%string.

(** The template of [get_kubectl_list] (three adjacent literals). *)
Definition LIST_CMD : string :=
  "kubectl get {obj_type} {kubeconfig_arg} "
  +:+ "--request-timeout {timeout} "
  +:+ "-o jsonpath=" +:+ dq +:+ "{jsonpath}" +:+ dq +:+ " {obj_name}".

Definition DEFAULT_JSONPATH : string := "{.items[*].metadata.name}".
Definition CONTAINERS_JSONPATH : string := "{.spec.containers[*].name}".

(** [parse_args]: the command line gives or omits each option; the
    default of [--kubeconfig] is [os.getenv('KUBECONFIG', '')]. *)
Definition parse_args (arg_kubeconfig : option string)
    (env_KUBECONFIG : option string) (arg_timeout : option Z) : string * Z :=
  (default (default EmptyString env_KUBECONFIG) arg_kubeconfig,
   default CMD_TIMEOUT_SEC arg_timeout).

(** *** The operating system *)

Inductive stream := Stdout | Stderr.

(** What a child process writes: at which time after its start, on which
    stream, which text. *)
Record chunk : Type := mkChunk { at_time : Z; on : stream; data : string }.

(** A run of a child process left alone: how long it takes, its exit
    status, and what it writes, in order.  Every child finishes, after a
    time that can be as long as one likes; a child that never does is not
    modelled. *)
Record behaviour : Type :=
  mkBehaviour { elapsed : Z; exit_status : Z; output : list chunk }.

(** The environment of the script: it answers every command with a
    behaviour, may change while the script sleeps, and has a clock. *)
Record OS : Type := mkOS {
  World : Type;
  os_exec : string -> World -> behaviour * World;
  os_sleep : Z -> World -> World;
  os_time : World -> Z
}.

(** The lines the script prints, by what they say:
    ["Executing: <cmd>... "], ["[ DONE ]"], ["[ FAIL ]"],
    ["Command failed, trying again in <backoff_timer>s. ... Error output:
    <process.stderr>"] and ["Created snapshot: <name>"]. *)
Inductive console :=
| MsgExecuting (cmd : string)
| MsgDone
| MsgFail
| MsgRetry (backoff_timer : Z) (stderr : option string)
| MsgCreated (name : string).

(** What the script does to its environment, in the order it does it. *)
Inductive event :=
| EvMkdir (path : PathLib.Path)
| EvOpen (path : PathLib.Path)
| EvSpawn (cmd : string) (timeout : option Z)
| EvSleep (seconds : Z)
| EvPrint (msg : console)
| EvArchive (file arcname : string) (tree : gmap PathLib.Path string).

(** The exceptions that can leave a function of the script:
    [subprocess.TimeoutExpired], the [TypeError] of iterating over [None],
    and the [KeyError], [IndexError] or [ValueError] of [str.format]. *)
Inductive exn :=
| TimeoutExpired (cmd : string) (timeout : Z)
| TypeError_not_iterable
| FormatError.

(** How a computation ends: with a value, with an exception, or not within
    the iterations granted to a [while True] loop. *)
Inductive result (A : Type) :=
| Return (a : A)
| Raise (e : exn)
| Diverge.
Arguments Return {A} a.
Arguments Raise {A} e.
Arguments Diverge {A}.

Definition text_of (only : option stream) (cs : list chunk) : string :=
  String.concat EmptyString
    (List.map data
       (List.filter (fun c => match only, on c with
                              | None, _ => true
                              | Some Stdout, Stdout => true
                              | Some Stderr, Stderr => true
                              | _, _ => false
                              end) cs)).

Definition written_by (t : Z) (cs : list chunk) : list chunk :=
  List.filter (fun c => at_time c <=? t) cs.

Section Script.

Variable os : OS.

(** The state the script acts on: the world, the files (path to content),
    and the trace of what it did, oldest first.  A file is kept under its
    parsed path, as the script writes it: the kernel resolves [..], so
    two such paths name one file unless they are free of it (see
    [Observe.collapse]).  Child processes write text (their bytes,
    decoded).  Creating a directory, opening a file for writing and
    writing the archive are taken to succeed, as they do in a private
    temporary directory and a writable working directory for paths the
    file system accepts (see [Observe.accepted]); [OSError] is not
    modelled. *)
Record state : Type := mkState {
  world : World os;
  fs : gmap PathLib.Path string;
  trace : list event
}.

Definition M (A : Type) : Type := state -> result A * state.

#[local] Instance M_ret : MRet M := fun A a s => (Return a, s).
#[local] Instance M_bind : MBind M := fun A B f m s =>
  match m s with
  | (Return a, s') => f a s'
  | (Raise e, s') => (Raise e, s')
  | (Diverge, s') => (Diverge, s')
  end.

Definition raise {A} (e : exn) : M A := fun s => (Raise e, s).
Definition diverge {A} : M A := fun s => (Diverge, s).

Definition emit (e : event) : M unit := fun s =>
  (Return tt, mkState (world s) (fs s) (trace s ++ [e])).

Definition print (m : console) : M unit := emit (EvPrint m).

(** [time.sleep(t)]. *)
Definition sleep (t : Z) : M unit := fun s =>
  (Return tt, mkState (os_sleep os t (world s)) (fs s) (trace s ++ [EvSleep t])).

(** [path.parent.mkdir(parents=True, exist_ok=True)] in the private
    temporary directory. *)
Definition mkdir (path : PathLib.Path) : M unit := emit (EvMkdir path).

(** [open(path, mode='w')]: the file is created or truncated. *)
Definition open_w (path : PathLib.Path) : M unit := fun s =>
  (Return tt, mkState (world s) (<[path := EmptyString]> (fs s))
                (trace s ++ [EvOpen path])).

(** A child writing to the open file: the text lands after what the file
    holds already. *)
Definition write_file (path : PathLib.Path) (txt : string)
    (f : gmap PathLib.Path string) : gmap PathLib.Path string :=
  <[path := default EmptyString (f !! path) +:+ txt]> f.

Record CompletedProcess : Type := mkCompleted {
  returncode : Z;
  stdout : option string;
  stderr : option string
}.

Inductive redirect := ToFile (path : PathLib.Path) | Capture.

(** [subprocess.run(cmd, shell=True, ...)] with either
    [stdout=f, stderr=f] or [capture_output=True], and with or without
    [timeout=]. *)
Definition subprocess_run (cmd : string) (dest : redirect)
    (timeout : option Z) : M CompletedProcess := fun s =>
  let '(b, w) := os_exec os cmd (world s) in
  let tr := trace s ++ [EvSpawn cmd timeout] in
  let expired := match timeout with
                 | Some t => t <? elapsed b
                 | None => false
                 end in
  let written := match timeout with
                 | Some t => if expired then written_by t (output b)
                             else output b
                 | None => output b
                 end in
  let f := match dest with
           | ToFile p => write_file p (text_of None written) (fs s)
           | Capture => fs s
           end in
  if expired then
    (Raise (TimeoutExpired cmd (default 0 timeout)), mkState w f tr)
  else
    (Return (match dest with
             | ToFile _ => mkCompleted (exit_status b) None None
             | Capture => mkCompleted (exit_status b)
                            (Some (text_of (Some Stdout) written))
                            (Some (text_of (Some Stderr) written))
             end),
     mkState w f tr).

(** [str.format] inside the monad. *)
Definition fmt (tpl : string) (args : list string)
    (kw : list (string * string)) : M string :=
  match format tpl args kw with
  | Some s => mret s
  | None => raise FormatError
  end.

Definition output_path (output_dir : PathLib.Path) (subfolder cmd : string)
    : PathLib.Path :=
  PathLib.truediv (PathLib.truediv output_dir subfolder) (replace " " "_" cmd).

(** The [while True] loop of [run_cmd]. *)
Fixpoint run_cmd_loop (fuel : nat) (cmd : string)
    (output_file : PathLib.Path) (backoff_timer backoff_count : Z) : M unit :=
  match fuel with
  | O => diverge
  | S fuel' =>
      if BACKOFF_LIMIT <? backoff_count then print MsgFail
      else
        process ← subprocess_run cmd (ToFile output_file) (Some 60);
        if returncode process =? 0 then print MsgDone
        else
          print (MsgRetry backoff_timer (stderr process));;
          sleep backoff_timer;;
          run_cmd_loop fuel' cmd output_file (backoff_timer * 2)
            (backoff_count + 1)
  end.

(** Enough iterations for both retry loops: one per allowed attempt and
    one for the exit test. *)
Definition LOOP_FUEL : nat := Z.to_nat (BACKOFF_LIMIT + 2).

Definition run_cmd (cmd subfolder : string) (output_dir : PathLib.Path)
    : M unit :=
  let output_path := output_path output_dir subfolder cmd in
  mkdir (PathLib.parent output_path);;
  print (MsgExecuting cmd);;
  let backoff_timer := 1 in
  let backoff_count := 0 in
  open_w output_path;;
  run_cmd_loop LOOP_FUEL cmd output_path backoff_timer backoff_count.

(** The parsing of a successful listing:
    [stdout.decode().strip().split(' ')], then one [remove('')]. *)
Definition parse_list (out : string) : list string :=
  let obj_list := split " " (strip out) in
  if contains EmptyString obj_list
  then default obj_list (remove EmptyString obj_list)
  else obj_list.

(** The [while True] loop of [get_kubectl_list]; [None] is Python's
    [None], the value of the bare [return]. *)
Fixpoint get_kubectl_list_loop (fuel : nat) (cmd : string)
    (backoff_timer backoff_count : Z) : M (option (list string)) :=
  match fuel with
  | O => diverge
  | S fuel' =>
      if BACKOFF_LIMIT <? backoff_count then
        print MsgFail;; mret None
      else
        process ← subprocess_run cmd Capture None;
        if returncode process =? 0 then
          print MsgDone;;
          mret (Some (parse_list (default EmptyString (stdout process))))
        else
          print (MsgRetry backoff_timer (stderr process));;
          sleep backoff_timer;;
          get_kubectl_list_loop fuel' cmd (backoff_timer * 2)
            (backoff_count + 1)
  end.

(** Python truth of an optional string argument. *)
Definition truthy (x : option string) : bool :=
  match x with
  | Some (String _ _) => true
  | _ => false
  end.

Definition get_kubectl_list (object_type kubeconfig timeout : string)
    (namespace : option string) (object_name jsonpath : string)
    : M (option (list string)) :=
  cmd ← fmt LIST_CMD []
          [("kubeconfig_arg", kubeconfig); ("jsonpath", jsonpath);
           ("timeout", timeout); ("obj_type", object_type);
           ("obj_name", object_name)];
  cmd ← (if truthy namespace
         then fmt "{} -n {}" [cmd; default EmptyString namespace] []
         else mret cmd);
  let backoff_timer := 1 in
  let backoff_count := 0 in
  print (MsgExecuting cmd);;
  get_kubectl_list_loop LOOP_FUEL cmd backoff_timer backoff_count.

(** [for x in l: body], over a Python value that may be [None]. *)
Fixpoint for_list {A} (l : list A) (body : A -> M unit) : M unit :=
  match l with
  | [] => mret tt
  | x :: r => body x;; for_list r body
  end.

Definition for_in {A} (v : option (list A)) (body : A -> M unit) : M unit :=
  match v with
  | None => raise TypeError_not_iterable
  | Some l => for_list l body
  end.

(** The kubeconfig argument of every command (the [if kubeconfig:] of
    [main]). *)
Definition kubeconfig_arg (cwd kubeconfig : string) : M string :=
  match kubeconfig with
  | EmptyString => mret kubeconfig
  | _ => fmt "--kubeconfig {}"
           [PathLib.str (PathLib.absolute cwd (PathLib.parse kubeconfig))] []
  end.

(** The three loops of [main], inside the temporary directory. *)
Definition traverse (kubeconfig timeout : string)
    (namespaces_list : option (list string)) (output_dir : PathLib.Path)
    : M unit :=
  for_list KUBECTL_GLOBAL_CMDS (fun cmd =>
    c ← fmt cmd [] [("kubeconfig_arg", kubeconfig); ("timeout", timeout)];
    run_cmd c "global" output_dir);;
  for_in namespaces_list (fun namespace =>
    for_list KUBECTL_PER_NS_CMDS (fun cmd =>
      c ← fmt cmd [] [("kubeconfig_arg", kubeconfig); ("timeout", timeout);
                      ("namespace", namespace)];
      sub ← fmt "namespaces/{}" [namespace] [];
      run_cmd c sub output_dir);;
    pods ← get_kubectl_list "pods" kubeconfig timeout (Some namespace)
             EmptyString DEFAULT_JSONPATH;
    for_in pods (fun pod =>
      containers ← get_kubectl_list "pod" kubeconfig timeout (Some namespace)
                     pod CONTAINERS_JSONPATH;
      for_in containers (fun container =>
        for_list KUBECTL_PER_POD_CMDS (fun cmd =>
          c ← fmt cmd [] [("kubeconfig_arg", kubeconfig);
                          ("timeout", timeout); ("namespace", namespace);
                          ("pod", pod); ("container", container)];
          sub ← fmt "namespaces/{}/{}" [namespace; pod] [];
          run_cmd c sub output_dir)))).

(** The archive step at the end of the [with] block:
    [snapshot-<int(time.time())>.tar.gz] receives the tree of the output
    directory under the name [snapshot-<...>], and the name printed is
    [snap_file.name], the absolute path of the archive. *)
Definition package (cwd : string) (output_dir : PathLib.Path) : M unit :=
  fun s =>
  let snapshot_name := "snapshot-" +:+ str_of_int (os_time os (world s)) in
  let file := snapshot_name +:+ ".tar.gz" in
  let tree := filter (fun kv => PathLib.under output_dir kv.1 = true)
                (fs s) in
  (Return tt,
   mkState (world s) (fs s)
     (trace s ++ [EvArchive file snapshot_name tree;
                  EvPrint (MsgCreated
                    (PathLib.str (PathLib.truediv (PathLib.parse cwd) file)))])).

(** [with tempfile.TemporaryDirectory() as tmp_dir]: the directory is
    removed on every way out of the block. *)
Definition with_tempdir {A} (tmp_dir : string) (body : M A) : M A := fun s =>
  let '(r, s') := body s in
  (r, mkState (world s')
        (filter (fun kv => PathLib.under (PathLib.parse tmp_dir) kv.1 = false)
           (fs s'))
        (trace s')).

Definition main (kubeconfig : string) (timeout : Z) (cwd tmp_dir : string)
    : M unit :=
  timeout ← fmt "{}s" [str_of_int timeout] [];
  kubeconfig ← kubeconfig_arg cwd kubeconfig;
  namespaces_list ← get_kubectl_list "namespaces" kubeconfig timeout None
                      EmptyString DEFAULT_JSONPATH;
  with_tempdir tmp_dir (
    let output_dir := PathLib.parse tmp_dir in
    traverse kubeconfig timeout namespaces_list output_dir;;
    package cwd output_dir).

End Script.

End Snapshot.

(* ===================================================================== *)
(** ** Observations on runs, and the environments of the examples *)
(* ===================================================================== *)

Module Observe.

Import Snapshot.
Local Open Scope list_scope.

(** What a trace says about the commands started, the pauses taken, the
    status lines printed and the files opened. *)
Definition spawned (l : list event) : list (string * option Z) :=
  omap (fun e => match e with EvSpawn c t => Some (c, t) | _ => None end) l.

Definition slept (l : list event) : list Z :=
  omap (fun e => match e with EvSleep t => Some t | _ => None end) l.

Definition printed (l : list event) : list console :=
  omap (fun e => match e with EvPrint m => Some m | _ => None end) l.

Definition opened (l : list event) : list PathLib.Path :=
  omap (fun e => match e with EvOpen p => Some p | _ => None end) l.

Definition total (l : list Z) : Z := fold_right Z.add 0 l.

Definition is_spawn (e : event) : bool :=
  match e with EvSpawn _ _ => true | _ => false end.

Definition is_archive (e : event) : bool :=
  match e with EvArchive _ _ _ => true | _ => false end.

(** The timeout every started command of a trace was given. *)
Definition spawn_timeout_is (t : option Z) (e : event) : Prop :=
  match e with EvSpawn _ t' => t' = t | _ => True end.

Definition spawn_cmd_is (Q : string -> Prop) (e : event) : Prop :=
  match e with EvSpawn c _ => Q c | _ => True end.

Section Attempts.

Variable os : OS.

(** The world in which attempt number [n] (from 0) of [cmd] starts, when
    every earlier attempt has failed and was followed by its pause;
    [timer] is the pause after the first of them. *)
Fixpoint attempt_world (cmd : string) (timer : Z) (n : nat) (w : World os)
    : World os :=
  match n with
  | O => w
  | S m => attempt_world cmd (timer * 2) m
             (os_sleep os timer (os_exec os cmd w).2)
  end.

Definition attempt_at (cmd : string) (timer : Z) (n : nat) (w : World os)
    : behaviour :=
  (os_exec os cmd (attempt_world cmd timer n w)).1.

(** Attempt number [n] of the retry loops, which start with a pause of 1. *)
Definition attempt (cmd : string) (n : nat) (w : World os) : behaviour :=
  attempt_at cmd 1 n w.

(** Attempts [0 .. n-1] exit with a non-zero status (within the hard
    timeout). *)
Definition fails_before (cmd : string) (timer : Z) (n : nat) (w : World os)
    : Prop :=
  forall i, (i < n)%nat ->
    exit_status (attempt_at cmd timer i w) <> 0
    /\ elapsed (attempt_at cmd timer i w) <= 60.

(** Attempts [0 .. n-1] exit with a non-zero status, however long they
    take. *)
Definition nonzero_before (cmd : string) (timer : Z) (n : nat) (w : World os)
    : Prop :=
  forall i, (i < n)%nat -> exit_status (attempt_at cmd timer i w) <> 0.

(** The text all of attempts [0 .. n-1] write, in order. *)
Definition texts (only : option stream) (cmd : string) (timer : Z) (n : nat)
    (w : World os) : string :=
  String.concat EmptyString
    (List.map (fun i => text_of only (output (attempt_at cmd timer i w)))
       (seq 0 n)).

(** Whatever the world does, [m] only extends the trace, and only with
    events that satisfy [P]. *)
Definition emits (P : event -> Prop) {A} (m : M os A) : Prop :=
  forall s, exists ev, trace os (m s).2 = trace os s ++ ev /\ Forall P ev.

(** From every state, [m] returns [a], opens exactly the files [ps], in
    that order, and adds exactly them to the files that exist. *)
Definition yields {A} (m : M os A) (a : A) (ps : list PathLib.Path) : Prop :=
  forall s, exists s' ev,
    m s = (Return a, s')
    /\ trace os s' = trace os s ++ ev
    /\ opened ev = ps
    /\ dom (fs os s') = list_to_set ps ∪ dom (fs os s).

End Attempts.

Arguments emits {os} P {A} m.
Arguments yields {os A} m a ps.

(** The first token of a split, and the others. *)
Definition first_token (sep : ascii) (s : string) : string :=
  hd EmptyString (PyStr.split sep s).

Definition rest_tokens (sep : ascii) (s : string) : list string :=
  tl (PyStr.split sep s).

(** The text of a template before its first field. *)
Definition literal_prefix (tpl : string) : string := first_token "{" tpl.

(** A string that starts a path name of its own: not empty, no slash in
    it, and no dot in front. *)
Fixpoint has_char (c : ascii) (s : string) : bool :=
  match s with
  | EmptyString => false
  | String x r => Ascii.eqb x c || has_char c r
  end.

Definition starts_name (s : string) : bool :=
  match s with
  | EmptyString => false
  | String c _ => negb (Ascii.eqb c ".") && negb (has_char "/" s)
  end.

(** Paths as the parser of [pathlib] builds them: a root of at most two
    slashes, and names that are not empty, not a dot, and hold no slash. *)
Definition good_name (n : string) : Prop :=
  n <> EmptyString /\ n <> "." /\ has_char "/" n = false.

Definition well_formed (p : PathLib.Path) : Prop :=
  (PathLib.root p = EmptyString \/ PathLib.root p = "/"
   \/ PathLib.root p = "//")
  /\ Forall good_name (PathLib.names p).

(** A template with its fields filled in. *)
Definition fill (tpl : string) (kw : list (string * string)) : string :=
  default EmptyString (PyStr.format tpl [] kw).

(** The output files of the three catalogues. *)
Definition global_files (out : PathLib.Path) (kc to : string)
    : list PathLib.Path :=
  List.map (fun tpl => output_path out "global"
              (fill tpl [("kubeconfig_arg", kc); ("timeout", to)]))
    KUBECTL_GLOBAL_CMDS.

Definition namespace_files (out : PathLib.Path) (kc to namespace : string)
    : list PathLib.Path :=
  List.map (fun tpl => output_path out ("namespaces/" +:+ namespace)
              (fill tpl [("kubeconfig_arg", kc); ("timeout", to);
                         ("namespace", namespace)]))
    KUBECTL_PER_NS_CMDS.

Definition pod_files (out : PathLib.Path)
    (kc to namespace pod container : string) : list PathLib.Path :=
  List.map (fun tpl =>
              output_path out ("namespaces/" +:+ namespace +:+ "/" +:+ pod)
                (fill tpl [("kubeconfig_arg", kc); ("timeout", to);
                           ("namespace", namespace); ("pod", pod);
                           ("container", container)]))
    KUBECTL_PER_POD_CMDS.

(** The trace of [n] failed attempts of [run_cmd]. *)
Fixpoint retries (cmd : string) (timer : Z) (n : nat) : list event :=
  match n with
  | O => []
  | S m => EvSpawn cmd (Some 60) :: EvPrint (MsgRetry timer None)
           :: EvSleep timer :: retries cmd (timer * 2) m
  end.

(** The pauses of [n] failed attempts. *)
Fixpoint pauses (timer : Z) (n : nat) : list Z :=
  match n with
  | O => []
  | S m => timer :: pauses (timer * 2) m
  end.

(** Tokens of the specification's reading of the listing: split on single
    spaces, every empty token dropped. *)
Definition nonempty (t : string) : bool := negb (String.eqb t EmptyString).

Definition tokens_without_empty (out : string) : list string :=
  List.filter nonempty (PyStr.split " " out).

Definition count_empty (l : list string) : nat :=
  length (List.filter (fun t => String.eqb t EmptyString) l).

(** The command line [get_kubectl_list] builds, in closed form. *)
Definition listing_command (object_type kubeconfig timeout : string)
    (namespace : option string) (object_name jsonpath : string) : string :=
  let cmd := "kubectl get " +:+ object_type +:+ " " +:+ kubeconfig
             +:+ " --request-timeout " +:+ timeout
             +:+ " -o jsonpath=" +:+ dq +:+ jsonpath +:+ dq
             +:+ " " +:+ object_name in
  if truthy namespace
  then cmd +:+ " -n " +:+ default EmptyString namespace
  else cmd.

(** The value [main] gives the [kubeconfig_arg] field, in closed form. *)
Definition kubeconfig_flag (cwd kubeconfig : string) : string :=
  match kubeconfig with
  | EmptyString => EmptyString
  | _ => "--kubeconfig "
         +:+ PathLib.str (PathLib.absolute cwd (PathLib.parse kubeconfig))
  end.

(** The value [main] gives the [timeout] field, in closed form. *)
Definition timeout_arg (timeout : Z) : string :=
  PyStr.str_of_int timeout +:+ "s".

(** The command lines a run can start, for given values of the
    [kubeconfig_arg] and [timeout] fields: a template of one of the three
    catalogues with its fields filled in, or a listing query. *)
Inductive executed (kc to : string) : string -> Prop :=
| executed_global tpl c :
    In tpl KUBECTL_GLOBAL_CMDS ->
    PyStr.format tpl [] [("kubeconfig_arg", kc); ("timeout", to)] = Some c ->
    executed kc to c
| executed_namespace tpl namespace c :
    In tpl KUBECTL_PER_NS_CMDS ->
    PyStr.format tpl []
      [("kubeconfig_arg", kc); ("timeout", to); ("namespace", namespace)]
    = Some c ->
    executed kc to c
| executed_pod tpl namespace pod container c :
    In tpl KUBECTL_PER_POD_CMDS ->
    PyStr.format tpl []
      [("kubeconfig_arg", kc); ("timeout", to); ("namespace", namespace);
       ("pod", pod); ("container", container)]
    = Some c ->
    executed kc to c
| executed_listing ot ns on jp :
    executed kc to (listing_command ot kc to ns on jp).

(** The events one call of [run_cmd] for [cmd], with output file [p], can
    add to the trace. *)
Inductive run_cmd_event (cmd : string) (p : PathLib.Path) : event -> Prop :=
| run_cmd_mkdir : run_cmd_event cmd p (EvMkdir (PathLib.parent p))
| run_cmd_executing : run_cmd_event cmd p (EvPrint (MsgExecuting cmd))
| run_cmd_open : run_cmd_event cmd p (EvOpen p)
| run_cmd_spawn : run_cmd_event cmd p (EvSpawn cmd (Some 60))
| run_cmd_retry t : run_cmd_event cmd p (EvPrint (MsgRetry t None))
| run_cmd_sleep t : run_cmd_event cmd p (EvSleep t)
| run_cmd_done : run_cmd_event cmd p (EvPrint MsgDone)
| run_cmd_fail : run_cmd_event cmd p (EvPrint MsgFail).

(** The events one call of [get_kubectl_list] that builds the query [cmd]
    can add to the trace. *)
Inductive listing_event (cmd : string) : event -> Prop :=
| listing_executing : listing_event cmd (EvPrint (MsgExecuting cmd))
| listing_spawn : listing_event cmd (EvSpawn cmd None)
| listing_retry t err : listing_event cmd (EvPrint (MsgRetry t (Some err)))
| listing_sleep t : listing_event cmd (EvSleep t)
| listing_done : listing_event cmd (EvPrint MsgDone)
| listing_fail : listing_event cmd (EvPrint MsgFail).

(** Strings all of whose characters pass a test; whitespace-only text; and
    names as a cluster prints them: not empty and free of whitespace. *)
Fixpoint all_chars (f : ascii -> bool) (s : string) : bool :=
  match s with
  | EmptyString => true
  | String c r => f c && all_chars f r
  end.

Definition blank (s : string) : bool := all_chars PyStr.isspace s.

Definition name_token (t : string) : bool :=
  negb (String.eqb t EmptyString)
  && all_chars (fun c => negb (PyStr.isspace c)) t.

(** Whatever the world does, [m] ends with a value or with an exception
    that satisfies [E]: it never needs more iterations than it has. *)
Definition ends {os : OS} (E : exn -> Prop) {A} (m : M os A) : Prop :=
  forall s, match (m s).1 with
            | Return _ => True
            | Raise e => E e
            | Diverge => False
            end.

(** An inspection command: a template of one of the three catalogues with
    its fields filled in. *)
Definition inspection (c : string) : Prop :=
  exists tpl kw,
    In tpl (KUBECTL_GLOBAL_CMDS ++ KUBECTL_PER_NS_CMDS ++ KUBECTL_PER_POD_CMDS)
    /\ PyStr.format tpl [] kw = Some c.

(** The exceptions that can end a run. *)
Definition run_exn (e : exn) : Prop :=
  match e with
  | TimeoutExpired c t => t = 60 /\ inspection c
  | TypeError_not_iterable => True
  | FormatError => False
  end.

(** The events of the traversal: those of [run_cmd] on a command of the
    global catalogue in subfolder [global], on one of the namespace
    catalogue in [namespaces/<namespace>], on one of the pod catalogue in
    [namespaces/<namespace>/<pod>], and those of a listing. *)
Inductive traverse_event (kc to : string) (out : PathLib.Path)
    : event -> Prop :=
| traverse_global tpl e :
    In tpl KUBECTL_GLOBAL_CMDS ->
    (let c := fill tpl [("kubeconfig_arg", kc); ("timeout", to)] in
     run_cmd_event c (output_path out "global" c) e) ->
    traverse_event kc to out e
| traverse_namespace tpl namespace e :
    In tpl KUBECTL_PER_NS_CMDS ->
    (let c := fill tpl [("kubeconfig_arg", kc); ("timeout", to);
                        ("namespace", namespace)] in
     run_cmd_event c (output_path out ("namespaces/" +:+ namespace) c) e) ->
    traverse_event kc to out e
| traverse_pod tpl namespace pod container e :
    In tpl KUBECTL_PER_POD_CMDS ->
    (let c := fill tpl [("kubeconfig_arg", kc); ("timeout", to);
                        ("namespace", namespace); ("pod", pod);
                        ("container", container)] in
     run_cmd_event c
       (output_path out ("namespaces/" +:+ namespace +:+ "/" +:+ pod) c) e) ->
    traverse_event kc to out e
| traverse_listing ot ns on jp e :
    listing_event (listing_command ot kc to ns on jp) e ->
    traverse_event kc to out e.

(** The two events of the archive step. *)
Definition packaging (e : event) : bool :=
  match e with
  | EvArchive _ _ _ | EvPrint (MsgCreated _) => true
  | _ => false
  end.

(** The archives a trace wrote: file name and name of the tree inside. *)
Definition archived (l : list event) : list (string * string) :=
  omap (fun e => match e with
                 | EvArchive file arcname _ => Some (file, arcname)
                 | _ => None
                 end) l.

(** Where an opened file lies. *)
Definition opens_in (D : PathLib.Path -> Prop) (e : event) : Prop :=
  match e with EvOpen p => D p | _ => True end.

(** The files of a cluster with the namespaces [nl], the pods [pods ns] in
    namespace [ns] and the containers [containers ns pod] in its pod
    [pod], in the order the traversal visits them. *)
Definition cluster_files (out : PathLib.Path) (kc to : string)
    (nl : list string) (pods : string -> list string)
    (containers : string -> string -> list string) : list PathLib.Path :=
  global_files out kc to
  ++ concat (List.map (fun ns =>
       namespace_files out kc to ns
       ++ concat (List.map (fun pod =>
            concat (List.map (fun container =>
              pod_files out kc to ns pod container) (containers ns pod)))
            (pods ns))) nl).

(** Whatever the world does, [m] only extends the trace, and when it
    raises [TimeoutExpired], the last thing it did was to start the
    command that timed out, under that timeout. *)
Definition stops_at_timeout {os : OS} {A} (m : M os A) : Prop :=
  forall s, exists ev,
    trace os (m s).2 = trace os s ++ ev
    /\ match (m s).1 with
       | Raise (TimeoutExpired c t) => last ev = Some (EvSpawn c (Some t))
       | _ => True
       end.

(** A failed attempt as the specification reads it: one that exits with a
    non-zero status, or one that outlasts the hard timeout. *)
Definition failed_attempt (b : behaviour) : Prop :=
  exit_status b <> 0 \/ 60 < elapsed b.

(** What a POSIX file system asks of a path it is to create: no name is
    [..], holds a NUL or is longer than [NAME_MAX] bytes, and the whole
    path is shorter than [PATH_MAX] bytes (a code point from 128 on takes
    two bytes). *)
Definition NAME_MAX : nat := 255.
Definition PATH_MAX : nat := 4096.

Fixpoint byte_length (s : string) : nat :=
  match s with
  | EmptyString => O
  | String c r =>
      ((if (nat_of_ascii c <? 128)%nat then 1 else 2) + byte_length r)%nat
  end.

Definition storable_name (n : string) : bool :=
  negb (String.eqb n "..") && negb (has_char "000" n)
  && (byte_length n <=? NAME_MAX)%nat.

Definition storable (p : PathLib.Path) : bool :=
  forallb storable_name (PathLib.names p)
  && (byte_length (PathLib.str p) <? PATH_MAX)%nat.

(** Files that can all be created as the script creates them: each path is
    storable, and none lies below another, which would have to be a file
    and a directory at once. *)
Definition accepted (ps : list PathLib.Path) : bool :=
  forallb storable ps
  && forallb (fun p => forallb (fun q => negb (PathLib.under p q)) ps) ps.

(** The file the kernel reaches by a path none of whose components is a
    symbolic link: [..] steps back to the parent directory, and stays at
    the root. *)
Fixpoint collapse_names (seen todo : list string) : list string :=
  match todo with
  | [] => rev seen
  | n :: r =>
      if String.eqb n ".." then collapse_names (tl seen) r
      else collapse_names (n :: seen) r
  end.

Definition collapse (p : PathLib.Path) : PathLib.Path :=
  PathLib.mkPath (PathLib.root p) (collapse_names [] (PathLib.names p)).

End Observe.

Module Worlds.

Import Snapshot.
Local Open Scope list_scope.

Definition ok (t : string) : behaviour := mkBehaviour 1 0 [mkChunk 0 Stdout t].
Definition ko (t : string) : behaviour := mkBehaviour 1 1 [mkChunk 0 Stderr t].
Definition hang (t : string) : behaviour :=
  mkBehaviour 100 0 [mkChunk 0 Stdout t; mkChunk 70 Stdout "late"].

(** A world that answers from a script, one behaviour per command started,
    and succeeds silently once the script is used up. *)
Definition scripted : OS :=
  mkOS (list behaviour)
       (fun _ w => match w with [] => (ok EmptyString, []) | b :: r => (b, r) end)
       (fun _ w => w)
       (fun _ => 1700000000).

(** A cluster where every command fails at once. *)
Definition unreachable : OS :=
  mkOS unit (fun _ w => (ko "refused", w)) (fun _ w => w)
       (fun _ => 1700000000).

(** A cluster where every command needs 100 time units. *)
Definition sluggish : OS :=
  mkOS unit (fun _ w => (hang "slow", w)) (fun _ w => w)
       (fun _ => 1700000000).

(** A cluster with namespace [default], pod [web-0], container [app];
    every other command succeeds and prints its own command line. *)
Definition one_pod : OS :=
  mkOS unit
    (fun cmd w =>
       (if PyStr.startswith "kubectl get namespaces " cmd then ok "default"
        else if PyStr.startswith "kubectl get pods " cmd then ok "web-0"
        else if PyStr.startswith "kubectl get pod " cmd then ok "app"
        else ok cmd, w))
    (fun _ w => w)
    (fun _ => 1700000000).

(** A cluster without namespaces. *)
Definition empty_cluster : OS :=
  mkOS unit (fun cmd w => (ok EmptyString, w)) (fun _ w => w)
       (fun _ => 1700000000).

(** A cluster with the namespaces [dev] and [prod], each with the pod
    [web], whose containers are [app] and [proxy]; every other command
    succeeds and prints its own command line. *)
Definition two_namespaces : OS :=
  mkOS unit
    (fun cmd w =>
       (if PyStr.startswith "kubectl get namespaces " cmd then ok "dev prod"
        else if PyStr.startswith "kubectl get pods " cmd then ok "web"
        else if PyStr.startswith "kubectl get pod " cmd then ok "app proxy"
        else ok cmd, w))
    (fun _ w => w)
    (fun _ => 1700000000).

(** A cluster with a clock: the world is the time, a command takes one
    unit and a pause as long as it says. *)
Definition clocked : OS :=
  mkOS Z (fun _ w => (ok EmptyString, w + 1)) (fun t w => w + t) (fun w => w).

Definition start (os : OS) (w : World os) : state os := mkState os w ∅ [].

End Worlds.

(* ===================================================================== *)
(** ** Sanity checks of the primitives *)
(* ===================================================================== *)

Example split_example :
  PyStr.split " " "ns1 ns2  ns3" = ["ns1"; "ns2"; ""; "ns3"].
Proof. reflexivity. Qed.

Example format_example :
  PyStr.format "a {x} {{b}} {}" ["p"] [("x", "1 2")] = Some "a 1 2 {b} p".
Proof. reflexivity. Qed.

Example str_of_int_example :
  PyStr.str_of_int 15 = "15" /\ PyStr.str_of_int 0 = "0"
  /\ PyStr.str_of_int (-3) = "-3".
Proof. repeat split; reflexivity. Qed.

Example path_example :
  PathLib.str (PathLib.truediv (PathLib.truediv (PathLib.parse "/tmp/x") "namespaces//a/") "./f_/b")
  = "/tmp/x/namespaces/a/f_/b".
Proof. reflexivity. Qed.


(* ===================================================================== *)
(** ** The retry loop of [run_cmd], one iteration at a time *)
(* ===================================================================== *)

Import Snapshot Observe.
Local Open Scope list_scope.

#[local] Existing Instance M_ret.
#[local] Existing Instance M_bind.

Section Iterations.

Context {os : OS}.
Implicit Types (s : state os) (cmd : string) (f : PathLib.Path).

Lemma bind_run {A B} (m : M os A) (k : A -> M os B) s :
  (m ≫= k) s =
  match m s with
  | (Return a, s') => k a s'
  | (Raise e, s') => (Raise e, s')
  | (Diverge, s') => (Diverge, s')
  end.
Proof. reflexivity. Qed.

Lemma bind_run_ret {A B} (a : A) (k : A -> M os B) :
  (mret a ≫= k) = k a.
Proof. reflexivity. Qed.

Lemma bind_run_raise {A B} e (k : A -> M os B) :
  (raise os e ≫= k) = raise os e.
Proof. reflexivity. Qed.

Lemma app_cons_assoc {A} (l : list A) (x : A) (r : list A) :
  (l ++ [x]) ++ r = l ++ x :: r.
Proof. by rewrite <- app_assoc. Qed.

Lemma run_cmd_loop_exhausted fuel cmd f t c s :
  BACKOFF_LIMIT < c ->
  run_cmd_loop os (S fuel) cmd f t c s
  = (Return tt, mkState os (world os s) (fs os s)
                  (trace os s ++ [EvPrint MsgFail])).
Proof.
  intros H. apply Z.ltb_lt in H. simpl. by rewrite H.
Qed.

Lemma run_cmd_loop_success fuel cmd f t c s :
  c <= BACKOFF_LIMIT ->
  elapsed (os_exec os cmd (world os s)).1 <= 60 ->
  exit_status (os_exec os cmd (world os s)).1 = 0 ->
  run_cmd_loop os (S fuel) cmd f t c s
  = (Return tt,
     mkState os (os_exec os cmd (world os s)).2
       (write_file f (text_of None (output (os_exec os cmd (world os s)).1))
          (fs os s))
       (trace os s ++ [EvSpawn cmd (Some 60); EvPrint MsgDone])).
Proof.
  intros Hc He Hx. simpl.
  replace (BACKOFF_LIMIT <? c) with false by (symmetry; apply Z.ltb_ge; lia).
  rewrite bind_run. unfold subprocess_run.
  destruct (os_exec os cmd (world os s)) as [b w]; simpl in *.
  replace (60 <? elapsed b) with false by (symmetry; apply Z.ltb_ge; lia).
  simpl. rewrite Hx. simpl. unfold print, emit. simpl.
  by rewrite app_cons_assoc.
Qed.

Lemma run_cmd_loop_failure fuel cmd f t c s :
  c <= BACKOFF_LIMIT ->
  elapsed (os_exec os cmd (world os s)).1 <= 60 ->
  exit_status (os_exec os cmd (world os s)).1 <> 0 ->
  run_cmd_loop os (S fuel) cmd f t c s
  = run_cmd_loop os fuel cmd f (t * 2) (c + 1)
      (mkState os (os_sleep os t (os_exec os cmd (world os s)).2)
         (write_file f (text_of None (output (os_exec os cmd (world os s)).1))
            (fs os s))
         (trace os s ++ [EvSpawn cmd (Some 60); EvPrint (MsgRetry t None);
                         EvSleep t])).
Proof.
  intros Hc He Hx. simpl.
  replace (BACKOFF_LIMIT <? c) with false by (symmetry; apply Z.ltb_ge; lia).
  rewrite bind_run. unfold subprocess_run.
  destruct (os_exec os cmd (world os s)) as [b w]; simpl in *.
  replace (60 <? elapsed b) with false by (symmetry; apply Z.ltb_ge; lia).
  simpl. apply Z.eqb_neq in Hx. rewrite Hx. simpl.
  rewrite !bind_run. unfold print, emit, sleep. simpl.
  rewrite bind_run. simpl.
  by rewrite !app_cons_assoc.
Qed.

Lemma run_cmd_loop_timeout fuel cmd f t c s :
  c <= BACKOFF_LIMIT ->
  60 < elapsed (os_exec os cmd (world os s)).1 ->
  run_cmd_loop os (S fuel) cmd f t c s
  = (Raise (TimeoutExpired cmd 60),
     mkState os (os_exec os cmd (world os s)).2
       (write_file f
          (text_of None
             (written_by 60 (output (os_exec os cmd (world os s)).1)))
          (fs os s))
       (trace os s ++ [EvSpawn cmd (Some 60)])).
Proof.
  intros Hc He. simpl.
  replace (BACKOFF_LIMIT <? c) with false by (symmetry; apply Z.ltb_ge; lia).
  rewrite bind_run. unfold subprocess_run.
  destruct (os_exec os cmd (world os s)) as [b w]; simpl in *.
  apply Z.ltb_lt in He. by rewrite He.
Qed.

End Iterations.

Arguments run_cmd_loop : simpl never.

(* ===================================================================== *)
(** ** Facts about strings and files *)
(* ===================================================================== *)

Lemma append_cons (c : ascii) (a b : string) :
  String c a +:+ b = String c (a +:+ b).
Proof. reflexivity. Qed.

Lemma append_nil_l (a : string) : EmptyString +:+ a = a.
Proof. reflexivity. Qed.

Lemma append_nil_r (a : string) : a +:+ EmptyString = a.
Proof. induction a as [|c a IH]; [done | by rewrite append_cons, IH]. Qed.

Lemma append_assoc (a b c : string) : (a +:+ b) +:+ c = a +:+ b +:+ c.
Proof. induction a as [|x a IH]; [done | by rewrite !append_cons, IH]. Qed.

Lemma concat_empty_cons (x : string) (l : list string) :
  String.concat EmptyString (x :: l) = x +:+ String.concat EmptyString l.
Proof. destruct l; simpl; [by rewrite append_nil_r | done]. Qed.

Lemma write_file_insert f old txt (m : gmap PathLib.Path string) :
  m !! f = Some old -> write_file f txt m = <[f := old +:+ txt]> m.
Proof. intros H. unfold write_file. by rewrite H. Qed.

Lemma texts_S (os : OS) only cmd t n (w : World os) :
  texts os only cmd t (S n) w
  = text_of only (output (os_exec os cmd w).1)
    +:+ texts os only cmd (t * 2) n (os_sleep os t (os_exec os cmd w).2).
Proof.
  unfold texts. rewrite <- cons_seq, <- seq_shift. simpl List.map.
  rewrite concat_empty_cons, List.map_map. reflexivity.
Qed.

Lemma fails_before_S (os : OS) cmd t n (w : World os) :
  fails_before os cmd t (S n) w ->
  (exit_status (os_exec os cmd w).1 <> 0 /\ elapsed (os_exec os cmd w).1 <= 60)
  /\ fails_before os cmd (t * 2) n (os_sleep os t (os_exec os cmd w).2).
Proof.
  intros H. split.
  - apply (H 0%nat). lia.
  - intros i Hi. apply (H (S i)). lia.
Qed.

(* ===================================================================== *)
(** ** The retry loop of [run_cmd], as a whole *)
(* ===================================================================== *)

Section RunCmdLoop.

Context {os : OS}.
Implicit Types (s : state os) (cmd : string) (f : PathLib.Path).

(** [k] failures, then a success. *)
Lemma run_cmd_loop_fails_then_ok cmd f k : forall fuel t c s old,
  c + Z.of_nat k <= BACKOFF_LIMIT ->
  (k < fuel)%nat ->
  fs os s !! f = Some old ->
  fails_before os cmd t k (world os s) ->
  exit_status (attempt_at os cmd t k (world os s)) = 0 ->
  elapsed (attempt_at os cmd t k (world os s)) <= 60 ->
  run_cmd_loop os fuel cmd f t c s
  = (Return tt,
     mkState os (os_exec os cmd (attempt_world os cmd t k (world os s))).2
       (<[f := old +:+ texts os None cmd t (S k) (world os s)]> (fs os s))
       (trace os s ++ retries cmd t k
          ++ [EvSpawn cmd (Some 60); EvPrint MsgDone])).
Proof.
  induction k as [|k IH]; intros fuel t c s old Hc Hfuel Hold Hfail Hx He;
    (destruct fuel as [|fuel]; [lia|]).
  - unfold attempt_at in Hx, He. simpl in Hx, He.
    rewrite run_cmd_loop_success by (done || lia).
    rewrite (write_file_insert _ old) by done.
    reflexivity.
  - apply fails_before_S in Hfail as [[Hx0 He0] Hfail].
    rewrite run_cmd_loop_failure by (done || lia).
    rewrite (write_file_insert _ old) by done.
    erewrite IH; simpl; try done; try lia.
    + rewrite insert_insert_eq, (texts_S _ _ _ _ (S k)), append_assoc.
      by rewrite <- app_assoc.
    + by rewrite lookup_insert_eq.
Qed.

(** Nothing but failures, until the limit. *)
Lemma run_cmd_loop_all_fail cmd f n : forall fuel t c s old,
  c + Z.of_nat n = BACKOFF_LIMIT + 1 ->
  (n < fuel)%nat ->
  fs os s !! f = Some old ->
  fails_before os cmd t n (world os s) ->
  run_cmd_loop os fuel cmd f t c s
  = (Return tt,
     mkState os (attempt_world os cmd t n (world os s))
       (<[f := old +:+ texts os None cmd t n (world os s)]> (fs os s))
       (trace os s ++ retries cmd t n ++ [EvPrint MsgFail])).
Proof.
  induction n as [|n IH]; intros fuel t c s old Hc Hfuel Hold Hfail;
    (destruct fuel as [|fuel]; [lia|]).
  - rewrite run_cmd_loop_exhausted by lia.
    unfold texts. simpl. rewrite append_nil_r, insert_id by done.
    by destruct s.
  - apply fails_before_S in Hfail as [[Hx0 He0] Hfail].
    rewrite run_cmd_loop_failure by (done || lia).
    rewrite (write_file_insert _ old) by done.
    erewrite IH; simpl; try done; try lia.
    + rewrite insert_insert_eq, (texts_S _ _ _ _ n), append_assoc.
      by rewrite <- app_assoc.
    + by rewrite lookup_insert_eq.
Qed.

End RunCmdLoop.

(* ===================================================================== *)
(** ** The retry loop of [get_kubectl_list] *)
(* ===================================================================== *)

Section ListLoop.

Context {os : OS}.
Implicit Types (s : state os) (cmd : string).

Lemma list_loop_exhausted fuel cmd t c s :
  BACKOFF_LIMIT < c ->
  get_kubectl_list_loop os (S fuel) cmd t c s
  = (Return None, mkState os (world os s) (fs os s)
                    (trace os s ++ [EvPrint MsgFail])).
Proof.
  intros H. apply Z.ltb_lt in H. simpl. rewrite H. reflexivity.
Qed.

Lemma list_loop_success fuel cmd t c s :
  c <= BACKOFF_LIMIT ->
  exit_status (os_exec os cmd (world os s)).1 = 0 ->
  get_kubectl_list_loop os (S fuel) cmd t c s
  = (Return (Some (parse_list
       (text_of (Some Stdout) (output (os_exec os cmd (world os s)).1)))),
     mkState os (os_exec os cmd (world os s)).2 (fs os s)
       (trace os s ++ [EvSpawn cmd None; EvPrint MsgDone])).
Proof.
  intros Hc Hx. simpl.
  replace (BACKOFF_LIMIT <? c) with false by (symmetry; apply Z.ltb_ge; lia).
  rewrite bind_run. unfold subprocess_run.
  destruct (os_exec os cmd (world os s)) as [b w]; simpl in *.
  rewrite Hx. simpl. rewrite bind_run. unfold print, emit. simpl.
  by rewrite app_cons_assoc.
Qed.

Lemma list_loop_failure fuel cmd t c s :
  c <= BACKOFF_LIMIT ->
  exit_status (os_exec os cmd (world os s)).1 <> 0 ->
  get_kubectl_list_loop os (S fuel) cmd t c s
  = get_kubectl_list_loop os fuel cmd (t * 2) (c + 1)
      (mkState os (os_sleep os t (os_exec os cmd (world os s)).2) (fs os s)
         (trace os s ++
          [EvSpawn cmd None;
           EvPrint (MsgRetry t (Some (text_of (Some Stderr)
                      (output (os_exec os cmd (world os s)).1))));
           EvSleep t])).
Proof.
  intros Hc Hx. simpl.
  replace (BACKOFF_LIMIT <? c) with false by (symmetry; apply Z.ltb_ge; lia).
  rewrite bind_run. unfold subprocess_run.
  destruct (os_exec os cmd (world os s)) as [b w]; simpl in *.
  apply Z.eqb_neq in Hx. rewrite Hx. simpl.
  rewrite !bind_run. unfold print, emit, sleep. simpl.
  rewrite bind_run. simpl.
  by rewrite !app_cons_assoc.
Qed.

Lemma nonzero_before_S cmd t n (w : World os) :
  nonzero_before os cmd t (S n) w ->
  exit_status (os_exec os cmd w).1 <> 0
  /\ nonzero_before os cmd (t * 2) n (os_sleep os t (os_exec os cmd w).2).
Proof.
  intros H. split.
  - apply (H 0%nat). lia.
  - intros i Hi. apply (H (S i)). lia.
Qed.

(** [k] failures, then a success: the parsed output of the last attempt. *)
Lemma list_loop_fails_then_ok cmd k : forall fuel t c s,
  c + Z.of_nat k <= BACKOFF_LIMIT ->
  (k < fuel)%nat ->
  nonzero_before os cmd t k (world os s) ->
  exit_status (attempt_at os cmd t k (world os s)) = 0 ->
  exists ev,
    get_kubectl_list_loop os fuel cmd t c s
    = (Return (Some (parse_list
         (text_of (Some Stdout)
            (output (attempt_at os cmd t k (world os s)))))),
       mkState os (os_exec os cmd (attempt_world os cmd t k (world os s))).2
         (fs os s) (trace os s ++ ev)).
Proof.
  induction k as [|k IH]; intros fuel t c s Hc Hfuel Hfail Hx;
    (destruct fuel as [|fuel]; [lia|]).
  - unfold attempt_at in Hx. simpl in Hx.
    rewrite list_loop_success by (done || lia). eauto.
  - apply nonzero_before_S in Hfail as [Hx0 Hfail].
    rewrite list_loop_failure by (done || lia).
    edestruct (IH fuel (t * 2) (c + 1)) as [ev ->]; simpl; try done; try lia.
    simpl. rewrite <- app_assoc. eauto.
Qed.

(** Nothing but failures: the bare [return], that is [None]. *)
Lemma list_loop_all_fail cmd n : forall fuel t c s,
  c + Z.of_nat n = BACKOFF_LIMIT + 1 ->
  (n < fuel)%nat ->
  nonzero_before os cmd t n (world os s) ->
  exists ev,
    get_kubectl_list_loop os fuel cmd t c s
    = (Return None,
       mkState os (attempt_world os cmd t n (world os s)) (fs os s)
         (trace os s ++ ev)).
Proof.
  induction n as [|n IH]; intros fuel t c s Hc Hfuel Hfail;
    (destruct fuel as [|fuel]; [lia|]).
  - rewrite list_loop_exhausted by lia. eauto.
  - apply nonzero_before_S in Hfail as [Hx0 Hfail].
    rewrite list_loop_failure by (done || lia).
    edestruct (IH fuel (t * 2) (c + 1)) as [ev ->]; simpl; try done; try lia.
    simpl. rewrite <- app_assoc. eauto.
Qed.

Lemma list_cmd_format ot kc to jp on :
  PyStr.format LIST_CMD []
    [("kubeconfig_arg", kc); ("jsonpath", jp); ("timeout", to);
     ("obj_type", ot); ("obj_name", on)]
  = Some (listing_command ot kc to None on jp).
Proof.
  transitivity
    (Some ("kubectl get " +:+ ot +:+ " " +:+ kc +:+ " --request-timeout "
           +:+ to +:+ " -o jsonpath=" +:+ dq +:+ jp +:+ dq +:+ " "
           +:+ on +:+ EmptyString)); [reflexivity|].
  by rewrite append_nil_r.
Qed.

Lemma get_kubectl_list_run ot kc to ns on jp s :
  get_kubectl_list os ot kc to ns on jp s
  = get_kubectl_list_loop os LOOP_FUEL (listing_command ot kc to ns on jp) 1 0
      (mkState os (world os s) (fs os s)
         (trace os s
          ++ [EvPrint (MsgExecuting (listing_command ot kc to ns on jp))])).
Proof.
  unfold get_kubectl_list, fmt. rewrite list_cmd_format.
  generalize (get_kubectl_list_loop os LOOP_FUEL). intros loop.
  rewrite bind_run. simpl.
  destruct ns as [[|c ns]|]; simpl; try reflexivity.
  rewrite append_nil_r. reflexivity.
Qed.

End ListLoop.

Arguments get_kubectl_list_loop : simpl never.

(* ===================================================================== *)
(** ** Induction along the runs of the two loops *)
(* ===================================================================== *)

Section LoopInduction.

Context {os : OS}.
Implicit Types (s : state os) (cmd : string) (f : PathLib.Path).

(** Every run of the loop of [run_cmd] is one of five shapes. *)
Lemma run_cmd_loop_cases cmd f
    (P : nat -> Z -> Z -> state os -> result unit * state os -> Prop) :
  (forall t c s, P O t c s (Diverge, s)) ->
  (forall fuel t c s, BACKOFF_LIMIT < c ->
     P (S fuel) t c s
       (Return tt, mkState os (world os s) (fs os s)
                     (trace os s ++ [EvPrint MsgFail]))) ->
  (forall fuel t c s, c <= BACKOFF_LIMIT ->
     60 < elapsed (os_exec os cmd (world os s)).1 ->
     P (S fuel) t c s
       (Raise (TimeoutExpired cmd 60),
        mkState os (os_exec os cmd (world os s)).2
          (write_file f
             (text_of None
                (written_by 60 (output (os_exec os cmd (world os s)).1)))
             (fs os s))
          (trace os s ++ [EvSpawn cmd (Some 60)]))) ->
  (forall fuel t c s, c <= BACKOFF_LIMIT ->
     elapsed (os_exec os cmd (world os s)).1 <= 60 ->
     exit_status (os_exec os cmd (world os s)).1 = 0 ->
     P (S fuel) t c s
       (Return tt,
        mkState os (os_exec os cmd (world os s)).2
          (write_file f
             (text_of None (output (os_exec os cmd (world os s)).1))
             (fs os s))
          (trace os s ++ [EvSpawn cmd (Some 60); EvPrint MsgDone]))) ->
  (forall fuel t c s r, c <= BACKOFF_LIMIT ->
     elapsed (os_exec os cmd (world os s)).1 <= 60 ->
     exit_status (os_exec os cmd (world os s)).1 <> 0 ->
     P fuel (t * 2) (c + 1)
       (mkState os (os_sleep os t (os_exec os cmd (world os s)).2)
          (write_file f
             (text_of None (output (os_exec os cmd (world os s)).1))
             (fs os s))
          (trace os s ++ [EvSpawn cmd (Some 60); EvPrint (MsgRetry t None);
                          EvSleep t])) r ->
     P (S fuel) t c s r) ->
  forall fuel t c s, P fuel t c s (run_cmd_loop os fuel cmd f t c s).
Proof.
  intros Hdiv Hlim Hto Hok Hko.
  induction fuel as [|fuel IH]; intros t c s; [apply Hdiv|].
  destruct (Z.lt_ge_cases BACKOFF_LIMIT c) as [Hc|Hc].
  { rewrite run_cmd_loop_exhausted by done. by apply Hlim. }
  destruct (Z.lt_ge_cases 60 (elapsed (os_exec os cmd (world os s)).1))
    as [He|He].
  { rewrite run_cmd_loop_timeout by done. by apply Hto. }
  destruct (Z.eq_dec (exit_status (os_exec os cmd (world os s)).1) 0)
    as [Hx|Hx].
  { rewrite run_cmd_loop_success by done. by apply Hok. }
  rewrite run_cmd_loop_failure by done. apply Hko; auto.
Qed.

(** Every run of the loop of [get_kubectl_list] is one of four shapes. *)
Lemma list_loop_cases cmd
    (P : nat -> Z -> Z -> state os
         -> result (option (list string)) * state os -> Prop) :
  (forall t c s, P O t c s (Diverge, s)) ->
  (forall fuel t c s, BACKOFF_LIMIT < c ->
     P (S fuel) t c s
       (Return None, mkState os (world os s) (fs os s)
                       (trace os s ++ [EvPrint MsgFail]))) ->
  (forall fuel t c s, c <= BACKOFF_LIMIT ->
     exit_status (os_exec os cmd (world os s)).1 = 0 ->
     P (S fuel) t c s
       (Return (Some (parse_list
          (text_of (Some Stdout) (output (os_exec os cmd (world os s)).1)))),
        mkState os (os_exec os cmd (world os s)).2 (fs os s)
          (trace os s ++ [EvSpawn cmd None; EvPrint MsgDone]))) ->
  (forall fuel t c s r, c <= BACKOFF_LIMIT ->
     exit_status (os_exec os cmd (world os s)).1 <> 0 ->
     P fuel (t * 2) (c + 1)
       (mkState os (os_sleep os t (os_exec os cmd (world os s)).2) (fs os s)
          (trace os s ++
           [EvSpawn cmd None;
            EvPrint (MsgRetry t (Some (text_of (Some Stderr)
                       (output (os_exec os cmd (world os s)).1))));
            EvSleep t])) r ->
     P (S fuel) t c s r) ->
  forall fuel t c s, P fuel t c s (get_kubectl_list_loop os fuel cmd t c s).
Proof.
  intros Hdiv Hlim Hok Hko.
  induction fuel as [|fuel IH]; intros t c s; [apply Hdiv|].
  destruct (Z.lt_ge_cases BACKOFF_LIMIT c) as [Hc|Hc].
  { rewrite list_loop_exhausted by done. by apply Hlim. }
  destruct (Z.eq_dec (exit_status (os_exec os cmd (world os s)).1) 0)
    as [Hx|Hx].
  { rewrite list_loop_success by done. by apply Hok. }
  rewrite list_loop_failure by done. apply Hko; auto.
Qed.

Lemma run_cmd_run cmd sub out s :
  run_cmd os cmd sub out s
  = run_cmd_loop os LOOP_FUEL cmd (output_path out sub cmd) 1 0
      (mkState os (world os s)
         (<[output_path out sub cmd := EmptyString]> (fs os s))
         (trace os s ++
          [EvMkdir (PathLib.parent (output_path out sub cmd));
           EvPrint (MsgExecuting cmd);
           EvOpen (output_path out sub cmd)])).
Proof.
  unfold run_cmd.
  generalize (run_cmd_loop os LOOP_FUEL). intros loop.
  do 3 (rewrite bind_run; simpl). by rewrite !app_cons_assoc.
Qed.

End LoopInduction.

(* ===================================================================== *)
(** ** What the traces of the retry loop say *)
(* ===================================================================== *)

Lemma LOOP_FUEL_eq : LOOP_FUEL = 6%nat.
Proof. reflexivity. Qed.

Lemma spawned_app (a b : list event) : spawned (a ++ b) = spawned a ++ spawned b.
Proof. apply omap_app. Qed.

Lemma slept_app (a b : list event) : slept (a ++ b) = slept a ++ slept b.
Proof. apply omap_app. Qed.

Lemma printed_app (a b : list event) : printed (a ++ b) = printed a ++ printed b.
Proof. apply omap_app. Qed.

Lemma opened_app (a b : list event) : opened (a ++ b) = opened a ++ opened b.
Proof. apply omap_app. Qed.

Lemma spawned_retries cmd t n :
  spawned (retries cmd t n) = replicate n (cmd, Some 60).
Proof.
  revert t. induction n as [|n IH]; intros t; [done|].
  simpl. f_equal. apply IH.
Qed.

Lemma slept_retries cmd t n : slept (retries cmd t n) = pauses t n.
Proof.
  revert t. induction n as [|n IH]; intros t; [done|].
  simpl. f_equal. apply IH.
Qed.

Lemma opened_retries cmd t n : opened (retries cmd t n) = [].
Proof.
  revert t. induction n as [|n IH]; intros t; [done|]. simpl. apply IH.
Qed.

Lemma total_pauses t n : total (pauses t n) = t * (2 ^ Z.of_nat n - 1).
Proof.
  revert t. induction n as [|n IH]; intros t.
  - simpl. lia.
  - change (total (pauses t (S n))) with (t + total (pauses (t * 2) n)).
    rewrite IH, Nat2Z.inj_succ, Z.pow_succ_r by lia. lia.
Qed.

Example pauses_example : pauses 1 4 = [1; 2; 4; 8] /\ pauses 1 5 = [1; 2; 4; 8; 16].
Proof. split; reflexivity. Qed.

Section RunCmd.

Context {os : OS}.
Implicit Types (s : state os) (cmd sub : string) (out : PathLib.Path).

(** [run_cmd] when [k] attempts fail and the next one succeeds. *)
Lemma run_cmd_fails_then_ok cmd sub out s k :
  (k <= 4)%nat ->
  fails_before os cmd 1 k (world os s) ->
  exit_status (attempt os cmd k (world os s)) = 0 ->
  elapsed (attempt os cmd k (world os s)) <= 60 ->
  run_cmd os cmd sub out s
  = (Return tt,
     mkState os (os_exec os cmd (attempt_world os cmd 1 k (world os s))).2
       (<[output_path out sub cmd := texts os None cmd 1 (S k) (world os s)]>
          (fs os s))
       (trace os s ++
        [EvMkdir (PathLib.parent (output_path out sub cmd));
         EvPrint (MsgExecuting cmd);
         EvOpen (output_path out sub cmd)] ++
        retries cmd 1 k ++ [EvSpawn cmd (Some 60); EvPrint MsgDone])).
Proof.
  intros Hk Hfail Hx He. rewrite run_cmd_run.
  erewrite (run_cmd_loop_fails_then_ok cmd _ k); simpl; try done.
  - rewrite insert_insert_eq, append_nil_l. by rewrite <- app_assoc.
  - unfold BACKOFF_LIMIT. lia.
  - rewrite LOOP_FUEL_eq. lia.
  - by rewrite lookup_insert_eq.
Qed.

(** [run_cmd] when all five attempts fail. *)
Lemma run_cmd_all_fail cmd sub out s :
  fails_before os cmd 1 5 (world os s) ->
  run_cmd os cmd sub out s
  = (Return tt,
     mkState os (attempt_world os cmd 1 5 (world os s))
       (<[output_path out sub cmd := texts os None cmd 1 5 (world os s)]>
          (fs os s))
       (trace os s ++
        [EvMkdir (PathLib.parent (output_path out sub cmd));
         EvPrint (MsgExecuting cmd);
         EvOpen (output_path out sub cmd)] ++
        retries cmd 1 5 ++ [EvPrint MsgFail])).
Proof.
  intros Hfail. rewrite run_cmd_run.
  erewrite (run_cmd_loop_all_fail cmd _ 5); simpl; try done.
  - rewrite insert_insert_eq, append_nil_l. by rewrite <- app_assoc.
  - rewrite LOOP_FUEL_eq. lia.
  - by rewrite lookup_insert_eq.
Qed.

(** Whatever the world does, the loop starts at most as many commands as
    the counter still allows. *)
Lemma run_cmd_loop_attempts cmd f fuel t c s :
  exists ev,
    trace os (run_cmd_loop os fuel cmd f t c s).2 = trace os s ++ ev
    /\ Z.of_nat (length (spawned ev)) <= Z.max 0 (BACKOFF_LIMIT + 1 - c).
Proof.
  revert fuel t c s.
  apply (run_cmd_loop_cases cmd f (fun _ t c s r =>
    exists ev, trace os r.2 = trace os s ++ ev
      /\ Z.of_nat (length (spawned ev)) <= Z.max 0 (BACKOFF_LIMIT + 1 - c)));
    unfold BACKOFF_LIMIT.
  - intros t c s. exists []. simpl. rewrite app_nil_r. split; [done|lia].
  - intros _ t c s Hc. eexists. split; [reflexivity|]. simpl. lia.
  - intros _ t c s Hc He. eexists. split; [reflexivity|]. simpl. lia.
  - intros _ t c s Hc He Hx. eexists. split; [reflexivity|]. simpl. lia.
  - intros _ t c s r Hc He Hx (ev & Htr & Hn). simpl in Htr.
    eexists. split.
    + rewrite Htr, <- app_assoc. reflexivity.
    + rewrite spawned_app, length_app. simpl. lia.
Qed.

Lemma run_cmd_attempts cmd sub out s :
  exists ev,
    trace os (run_cmd os cmd sub out s).2 = trace os s ++ ev
    /\ (length (spawned ev) <= 5)%nat.
Proof.
  rewrite run_cmd_run.
  destruct (run_cmd_loop_attempts cmd (output_path out sub cmd) LOOP_FUEL 1 0
    (mkState os (world os s)
       (<[output_path out sub cmd := EmptyString]> (fs os s))
       (trace os s ++
          [EvMkdir (PathLib.parent (output_path out sub cmd));
           EvPrint (MsgExecuting cmd);
           EvOpen (output_path out sub cmd)]))) as (ev & Htr & Hn).
  simpl in Htr. eexists. split.
  - rewrite Htr, <- app_assoc. reflexivity.
  - rewrite spawned_app. simpl. unfold BACKOFF_LIMIT in Hn. lia.
Qed.

End RunCmd.

(* ===================================================================== *)
(** ** How [run_cmd] ends *)
(* ===================================================================== *)

Section RunCmdEnds.

Context {os : OS}.
Implicit Types (s : state os) (cmd sub : string) (out : PathLib.Path).

(** With enough iterations the loop ends, either normally or with the
    timeout of [subprocess.run]. *)
Lemma run_cmd_loop_result cmd f fuel t c s :
  (Z.to_nat (BACKOFF_LIMIT + 1 - c) < fuel)%nat ->
  (run_cmd_loop os fuel cmd f t c s).1 = Return tt
  \/ (run_cmd_loop os fuel cmd f t c s).1 = Raise (TimeoutExpired cmd 60).
Proof.
  revert fuel t c s.
  apply (run_cmd_loop_cases cmd f (fun fuel t c s r =>
    (Z.to_nat (BACKOFF_LIMIT + 1 - c) < fuel)%nat ->
    r.1 = Return tt \/ r.1 = Raise (TimeoutExpired cmd 60)));
    unfold BACKOFF_LIMIT; try (intros; simpl; auto; lia).
  intros fuel t c s r Hc He Hx IH Hfuel. apply IH. lia.
Qed.

(** The iterations [run_cmd] allows itself are enough, and more change
    nothing. *)
Lemma run_cmd_loop_fuel cmd f fuel t c s :
  (Z.to_nat (BACKOFF_LIMIT + 1 - c) < fuel)%nat ->
  run_cmd_loop os fuel cmd f t c s = run_cmd_loop os (S fuel) cmd f t c s.
Proof.
  revert fuel t c s.
  apply (run_cmd_loop_cases cmd f (fun fuel t c s r =>
    (Z.to_nat (BACKOFF_LIMIT + 1 - c) < fuel)%nat ->
    r = run_cmd_loop os (S fuel) cmd f t c s)).
  - intros; lia.
  - intros fuel t c s Hc _. by rewrite run_cmd_loop_exhausted.
  - intros fuel t c s Hc He _. by rewrite run_cmd_loop_timeout.
  - intros fuel t c s Hc He Hx _. by rewrite run_cmd_loop_success.
  - intros fuel t c s r Hc He Hx IH Hfuel.
    rewrite (run_cmd_loop_failure (S fuel)) by done.
    apply IH. unfold BACKOFF_LIMIT in *. lia.
Qed.

Lemma run_cmd_loop_in_time cmd f fuel t c s :
  (forall w, elapsed (os_exec os cmd w).1 <= 60) ->
  (Z.to_nat (BACKOFF_LIMIT + 1 - c) < fuel)%nat ->
  (run_cmd_loop os fuel cmd f t c s).1 = Return tt.
Proof.
  intros Hfast. revert fuel t c s.
  apply (run_cmd_loop_cases cmd f (fun fuel t c s r =>
    (Z.to_nat (BACKOFF_LIMIT + 1 - c) < fuel)%nat -> r.1 = Return tt));
    unfold BACKOFF_LIMIT; try (intros; simpl; auto; lia).
  - intros fuel t c s Hc He _. specialize (Hfast (world os s)). lia.
  - intros fuel t c s r Hc He Hx IH Hfuel. apply IH. lia.
Qed.

(** [k] failures, then an attempt that outlasts the hard timeout: the
    exception of [subprocess.run] leaves the loop at once. *)
Lemma run_cmd_loop_fails_then_hangs cmd f k : forall fuel t c s,
  c + Z.of_nat k <= BACKOFF_LIMIT ->
  (k < fuel)%nat ->
  fails_before os cmd t k (world os s) ->
  60 < elapsed (attempt_at os cmd t k (world os s)) ->
  exists files,
    run_cmd_loop os fuel cmd f t c s
    = (Raise (TimeoutExpired cmd 60),
       mkState os (os_exec os cmd (attempt_world os cmd t k (world os s))).2
         files
         (trace os s ++ retries cmd t k ++ [EvSpawn cmd (Some 60)])).
Proof.
  induction k as [|k IH]; intros fuel t c s Hc Hfuel Hfail He;
    (destruct fuel as [|fuel]; [lia|]).
  - unfold attempt_at in He. simpl in He.
    rewrite run_cmd_loop_timeout by (done || lia). eauto.
  - apply fails_before_S in Hfail as [[Hx0 He0] Hfail].
    rewrite run_cmd_loop_failure by (done || lia).
    edestruct (IH fuel (t * 2) (c + 1)) as [files ->]; simpl; try done;
      try lia.
    simpl. rewrite <- app_assoc. eauto.
Qed.

Lemma run_cmd_fails_then_hangs cmd sub out s k :
  (k <= 4)%nat ->
  fails_before os cmd 1 k (world os s) ->
  60 < elapsed (attempt os cmd k (world os s)) ->
  exists files,
    run_cmd os cmd sub out s
    = (Raise (TimeoutExpired cmd 60),
       mkState os (os_exec os cmd (attempt_world os cmd 1 k (world os s))).2
         files
         (trace os s ++
          [EvMkdir (PathLib.parent (output_path out sub cmd));
           EvPrint (MsgExecuting cmd);
           EvOpen (output_path out sub cmd)] ++
          retries cmd 1 k ++ [EvSpawn cmd (Some 60)])).
Proof.
  intros Hk Hfail He. rewrite run_cmd_run.
  edestruct (run_cmd_loop_fails_then_hangs cmd (output_path out sub cmd) k
               LOOP_FUEL 1 0) as [files ->]; simpl; try done.
  - unfold BACKOFF_LIMIT. lia.
  - rewrite LOOP_FUEL_eq. lia.
  - rewrite <- app_assoc. eauto.
Qed.

End RunCmdEnds.

Lemma printed_retries cmd t n m :
  In m (printed (retries cmd t n)) -> exists t', m = MsgRetry t' None.
Proof.
  revert t. induction n as [|n IH]; intros t; [done|].
  simpl. intros [<- | H]; [eauto|]. by eapply IH.
Qed.

(** C3, as the code has it.  [run_cmd] starts its command at most
    [BACKOFF_LIMIT + 1 = 5] times, whatever happens.  What it counts and
    follows by a pause is an attempt that exits with a non-zero status
    within the hard timeout.  If the first [k <= 4] attempts do so and the
    next one exits with status 0, the pauses taken are
    [1, 2, ..., 2^(k-1)], their total is [2^k - 1], [k + 1] attempts were
    made and the last status line printed is DONE.  If five attempts in a
    row do so, exactly five attempts are made and the last status line
    printed is FAIL.  An attempt that outlasts the hard timeout is not
    such a failure: coming after [k <= 4] of them it ends the call with
    [TimeoutExpired], after [k + 1] attempts and the pauses
    [1, 2, ..., 2^(k-1)], and neither DONE nor FAIL is printed. *)
Theorem C3_bounded_doubling_backoff (os : OS) (cmd sub : string)
    (out : PathLib.Path) (s : state os) (k : nat) :
  exists ev,
    trace os (run_cmd os cmd sub out s).2 = trace os s ++ ev
    /\ (length (spawned ev) <= Z.to_nat (BACKOFF_LIMIT + 1))%nat
    /\ ((k <= 4)%nat ->
        fails_before os cmd 1 k (world os s) ->
        exit_status (attempt os cmd k (world os s)) = 0 ->
        elapsed (attempt os cmd k (world os s)) <= 60 ->
        (run_cmd os cmd sub out s).1 = Return tt
        /\ length (spawned ev) = S k
        /\ slept ev = pauses 1 k
        /\ total (slept ev) = 2 ^ Z.of_nat k - 1
        /\ last (printed ev) = Some MsgDone)
    /\ (fails_before os cmd 1 5 (world os s) ->
        (run_cmd os cmd sub out s).1 = Return tt
        /\ length (spawned ev) = 5%nat
        /\ last (printed ev) = Some MsgFail)
    /\ ((k <= 4)%nat ->
        fails_before os cmd 1 k (world os s) ->
        60 < elapsed (attempt os cmd k (world os s)) ->
        (run_cmd os cmd sub out s).1 = Raise (TimeoutExpired cmd 60)
        /\ length (spawned ev) = S k
        /\ slept ev = pauses 1 k
        /\ ~ In MsgDone (printed ev)
        /\ ~ In MsgFail (printed ev)).
Proof.
  destruct (run_cmd_attempts cmd sub out s) as (ev & Htr & Hn).
  exists ev. split; [done|]. split; [exact Hn|]. split; [|split].
  - intros Hk Hfail Hx He.
    rewrite (run_cmd_fails_then_ok cmd sub out s k) in Htr |- * by done.
    cbn [trace snd] in Htr. apply app_inv_head in Htr. subst ev.
    split; [done|].
    rewrite !spawned_app, !slept_app, !printed_app, spawned_retries,
      slept_retries. simpl.
    rewrite length_app, length_replicate, app_nil_r, total_pauses.
    repeat split; try (simpl; lia).
    rewrite app_comm_cons. apply last_snoc.
  - intros Hfail.
    rewrite (run_cmd_all_fail cmd sub out s) in Htr |- * by done.
    cbn [trace snd] in Htr. apply app_inv_head in Htr. subst ev.
    repeat split; reflexivity.
  - intros Hk Hfail He.
    destruct (run_cmd_fails_then_hangs cmd sub out s k Hk Hfail He)
      as [files Hrun].
    rewrite Hrun in Htr |- *.
    cbn [trace snd] in Htr. apply app_inv_head in Htr. subst ev.
    split; [reflexivity|].
    rewrite !spawned_app, !slept_app, !printed_app, spawned_retries,
      slept_retries. simpl.
    rewrite length_app, length_replicate, !app_nil_r.
    split; [simpl; lia|]. split; [done|].
    split; (intros [H | H]; [discriminate H|]);
      apply printed_retries in H as [t' H]; discriminate H.
Qed.

(** Two failures and a success: pauses of 1 and 2, three attempts, DONE;
    five failures: five attempts, FAIL; one failure and an attempt of 100
    time units: two attempts, a pause of 1, [TimeoutExpired]. *)
Lemma C3_bounded_doubling_backoff_witness :
  (let s := Worlds.start Worlds.scripted
              [Worlds.ko "e1"; Worlds.ko "e2"; Worlds.ok "v1"] in
   let r := run_cmd Worlds.scripted "kubectl version" "global"
              (PathLib.parse "/tmp/snap") s in
   exists ev,
     trace _ r.2 = trace _ s ++ ev
     /\ r.1 = Return tt
     /\ length (spawned ev) = 3%nat
     /\ slept ev = [1; 2]
     /\ total (slept ev) = 3
     /\ last (printed ev) = Some MsgDone)
  /\
  (let s := Worlds.start Worlds.unreachable tt in
   let r := run_cmd Worlds.unreachable "kubectl version" "global"
              (PathLib.parse "/tmp/snap") s in
   exists ev,
     trace _ r.2 = trace _ s ++ ev
     /\ r.1 = Return tt
     /\ length (spawned ev) = 5%nat
     /\ last (printed ev) = Some MsgFail)
  /\
  (let s := Worlds.start Worlds.scripted
              [Worlds.ko "e1"; Worlds.hang "x"] in
   let r := run_cmd Worlds.scripted "kubectl version" "global"
              (PathLib.parse "/tmp/snap") s in
   exists ev,
     trace _ r.2 = trace _ s ++ ev
     /\ r.1 = Raise (TimeoutExpired "kubectl version" 60)
     /\ length (spawned ev) = 2%nat
     /\ slept ev = [1]).
Proof.
  split; [|split].
  - intros s r.
    destruct (C3_bounded_doubling_backoff Worlds.scripted "kubectl version"
                "global" (PathLib.parse "/tmp/snap") s 2)
      as (ev & Htr & _ & H & _).
    exists ev. split; [exact Htr|]. apply H.
    + lia.
    + intros i Hi. destruct i as [|[|i]]; [split; [discriminate|simpl; lia]..|lia].
    + reflexivity.
    + simpl. lia.
  - intros s r.
    destruct (C3_bounded_doubling_backoff Worlds.unreachable "kubectl version"
                "global" (PathLib.parse "/tmp/snap") s 0)
      as (ev & Htr & _ & _ & H & _).
    exists ev. split; [exact Htr|]. apply H.
    intros i Hi. split; [discriminate|simpl; lia].
  - intros s r.
    destruct (C3_bounded_doubling_backoff Worlds.scripted "kubectl version"
                "global" (PathLib.parse "/tmp/snap") s 1)
      as (ev & Htr & _ & _ & _ & H).
    exists ev. split; [exact Htr|].
    destruct H as (Hr & Hn & Hsl & _).
    + lia.
    + intros i Hi. destruct i as [|i]; [split; [discriminate|simpl; lia]|lia].
    + simpl. lia.
    + repeat split; assumption.
Defined.

(** C3 as stated fails where an attempt outlasts the hard timeout, which
    the specification counts as a failed attempt.  After four non-zero
    exits and a fifth attempt of 100 time units all five attempts have
    failed in that reading, yet no FAIL is reported: [run_cmd] raises.
    And a first attempt of 100 time units is followed by no pause and no
    second attempt, although that one would succeed. *)
Lemma C3_timeout_is_not_a_counted_failure :
  (let s := Worlds.start Worlds.scripted
              [Worlds.ko "e1"; Worlds.ko "e2"; Worlds.ko "e3";
               Worlds.ko "e4"; Worlds.hang "x"] in
   let r := run_cmd Worlds.scripted "kubectl version" "global"
              (PathLib.parse "/tmp/snap") s in
   (forall i, (i < 5)%nat ->
      failed_attempt (attempt Worlds.scripted "kubectl version" i
                        (world _ s)))
   /\ r.1 = Raise (TimeoutExpired "kubectl version" 60)
   /\ length (spawned (trace _ r.2)) = 5%nat
   /\ printed (trace _ r.2)
      = [MsgExecuting "kubectl version"; MsgRetry 1 None; MsgRetry 2 None;
         MsgRetry 4 None; MsgRetry 8 None])
  /\
  (let s := Worlds.start Worlds.scripted
              [Worlds.hang "x"; Worlds.ok "v1"] in
   let r := run_cmd Worlds.scripted "kubectl version" "global"
              (PathLib.parse "/tmp/snap") s in
   failed_attempt (attempt Worlds.scripted "kubectl version" 0 (world _ s))
   /\ exit_status (attempt Worlds.scripted "kubectl version" 1 (world _ s))
      = 0
   /\ r.1 = Raise (TimeoutExpired "kubectl version" 60)
   /\ length (spawned (trace _ r.2)) = 1%nat
   /\ slept (trace _ r.2) = [])
  /\ ~ (forall (os : OS) cmd sub out (s : state os),
          (forall i, (i < 5)%nat ->
             failed_attempt (attempt os cmd i (world os s))) ->
          (run_cmd os cmd sub out s).1 = Return tt
          /\ last (printed (trace os (run_cmd os cmd sub out s).2))
             = Some MsgFail).
Proof.
  assert (Hall : forall i, (i < 5)%nat ->
    failed_attempt (attempt Worlds.scripted "kubectl version" i
      [Worlds.ko "e1"; Worlds.ko "e2"; Worlds.ko "e3"; Worlds.ko "e4";
       Worlds.hang "x"])).
  { intros i Hi. destruct i as [|[|[|[|[|i]]]]];
      [left; discriminate..|right; vm_compute; reflexivity|lia]. }
  split; [|split].
  - split; [exact Hall|]. repeat split; vm_compute; reflexivity.
  - split; [right; vm_compute; reflexivity|].
    repeat split; vm_compute; reflexivity.
  - intros Hclaim.
    destruct (Hclaim Worlds.scripted "kubectl version" "global"
                (PathLib.parse "/tmp/snap")
                (Worlds.start Worlds.scripted
                   [Worlds.ko "e1"; Worlds.ko "e2"; Worlds.ko "e3";
                    Worlds.ko "e4"; Worlds.hang "x"]) Hall) as [Hr _].
    vm_compute in Hr. discriminate Hr.
Qed.

(** C2, as the code has it.  [run_cmd] always ends, and the only exception
    it lets out is the [TimeoutExpired] of [subprocess.run].  When no run
    of the command outlasts the 60-unit hard timeout, [run_cmd] returns.
    When [k <= 4] attempts exit with a non-zero status and the next one
    outlasts the hard timeout, [run_cmd] raises [TimeoutExpired] to its
    caller right after that attempt: [k + 1] attempts, no further retry and
    no status line. *)
Theorem C2_run_cmd_returns_unless_timeout (os : OS) (cmd sub : string)
    (out : PathLib.Path) (s : state os) (k : nat) :
  ((run_cmd os cmd sub out s).1 = Return tt
   \/ (run_cmd os cmd sub out s).1 = Raise (TimeoutExpired cmd 60))
  /\ ((forall w, elapsed (os_exec os cmd w).1 <= 60) ->
      (run_cmd os cmd sub out s).1 = Return tt)
  /\ ((k <= 4)%nat ->
      fails_before os cmd 1 k (world os s) ->
      60 < elapsed (attempt os cmd k (world os s)) ->
      (run_cmd os cmd sub out s).1 = Raise (TimeoutExpired cmd 60)
      /\ trace os (run_cmd os cmd sub out s).2
         = trace os s ++
           [EvMkdir (PathLib.parent (output_path out sub cmd));
            EvPrint (MsgExecuting cmd);
            EvOpen (output_path out sub cmd)] ++
           retries cmd 1 k ++ [EvSpawn cmd (Some 60)]).
Proof.
  split; [|split].
  - rewrite run_cmd_run. apply run_cmd_loop_result. rewrite LOOP_FUEL_eq.
    vm_compute. lia.
  - intros Hfast. rewrite run_cmd_run. apply run_cmd_loop_in_time; [done|].
    rewrite LOOP_FUEL_eq. vm_compute. lia.
  - intros Hk Hfail He.
    destruct (run_cmd_fails_then_hangs cmd sub out s k Hk Hfail He)
      as [files ->].
    split; reflexivity.
Qed.

(** On a cluster whose commands take 1 time unit, [run_cmd] returns; on a
    cluster whose commands take 100 time units, [run_cmd] raises at its
    first attempt. *)
Lemma C2_run_cmd_returns_unless_timeout_witness :
  (run_cmd Worlds.unreachable "kubectl version" "global"
     (PathLib.parse "/tmp/snap") (Worlds.start Worlds.unreachable tt)).1
  = Return tt
  /\ (run_cmd Worlds.sluggish "kubectl version" "global"
        (PathLib.parse "/tmp/snap") (Worlds.start Worlds.sluggish tt)).1
     = Raise (TimeoutExpired "kubectl version" 60).
Proof.
  split.
  - apply (C2_run_cmd_returns_unless_timeout Worlds.unreachable
             "kubectl version" "global" (PathLib.parse "/tmp/snap")
             (Worlds.start Worlds.unreachable tt) 0).
    intros w. simpl. lia.
  - apply (C2_run_cmd_returns_unless_timeout Worlds.sluggish
             "kubectl version" "global" (PathLib.parse "/tmp/snap")
             (Worlds.start Worlds.sluggish tt) 0).
    + lia.
    + intros i Hi. lia.
    + simpl. lia.
Defined.

(** C2 as stated fails: where a command outlasts the hard timeout,
    [run_cmd] does not return, it raises; and the exception ends the whole
    run, [main] included. *)
Lemma C2_timeout_is_raised :
  (run_cmd Worlds.sluggish "kubectl version" "global"
     (PathLib.parse "/tmp/snap") (Worlds.start Worlds.sluggish tt)).1
  = Raise (TimeoutExpired "kubectl version" 60)
  /\ spawned
       (trace _ (run_cmd Worlds.sluggish "kubectl version" "global"
          (PathLib.parse "/tmp/snap") (Worlds.start Worlds.sluggish tt)).2)
     = [("kubectl version", Some 60)]
  /\ (main Worlds.sluggish "" 15 "/home/u" "/tmp/snap"
        (Worlds.start Worlds.sluggish tt)).1
     = Raise (TimeoutExpired "kubectl version  --request-timeout 15s" 60)
  /\ ~ (forall (os : OS) cmd sub out (s : state os),
          (run_cmd os cmd sub out s).1 = Return tt).
Proof.
  assert (H : (run_cmd Worlds.sluggish "kubectl version" "global"
     (PathLib.parse "/tmp/snap") (Worlds.start Worlds.sluggish tt)).1
     = Raise (TimeoutExpired "kubectl version" 60)) by (vm_compute; reflexivity).
  split; [exact H|]. split; [vm_compute; reflexivity|].
  split; [vm_compute; reflexivity|].
  intros Hall. rewrite Hall in H. discriminate.
Qed.

(* ===================================================================== *)
(** ** The output file of [run_cmd] *)
(* ===================================================================== *)

Section OutputFile.

Context {os : OS}.
Implicit Types (s : state os) (cmd sub : string) (out : PathLib.Path).

Lemma write_file_lookup f txt (m : gmap PathLib.Path string) :
  is_Some (write_file f txt m !! f).
Proof. unfold write_file. rewrite lookup_insert_eq. eauto. Qed.

Lemma write_file_dom f txt (m : gmap PathLib.Path string) :
  is_Some (m !! f) -> dom (write_file f txt m) = dom m.
Proof.
  intros H. unfold write_file. rewrite dom_insert_L.
  apply elem_of_dom in H. apply subseteq_union_1_L.
  by apply singleton_subseteq_l.
Qed.

(** The loop opens no file, and leaves the files that exist in place. *)
Lemma run_cmd_loop_files cmd f fuel t c s :
  is_Some (fs os s !! f) ->
  exists ev,
    trace os (run_cmd_loop os fuel cmd f t c s).2 = trace os s ++ ev
    /\ opened ev = []
    /\ is_Some (fs os (run_cmd_loop os fuel cmd f t c s).2 !! f)
    /\ dom (fs os (run_cmd_loop os fuel cmd f t c s).2) = dom (fs os s).
Proof.
  revert fuel t c s.
  apply (run_cmd_loop_cases cmd f (fun _ t c s r =>
    is_Some (fs os s !! f) ->
    exists ev, trace os r.2 = trace os s ++ ev
      /\ opened ev = []
      /\ is_Some (fs os r.2 !! f)
      /\ dom (fs os r.2) = dom (fs os s))).
  - intros t c s H. exists []. simpl. by rewrite app_nil_r.
  - intros _ t c s Hc H. eexists. split; [reflexivity|]. done.
  - intros _ t c s Hc He H. eexists. split; [reflexivity|].
    simpl. auto using write_file_lookup, write_file_dom.
  - intros _ t c s Hc He Hx H. eexists. split; [reflexivity|].
    simpl. auto using write_file_lookup, write_file_dom.
  - intros _ t c s r Hc He Hx IH H.
    destruct IH as (ev & Htr & Hop & Hin & Hdom);
      [simpl; apply write_file_lookup|].
    simpl in Htr, Hdom. eexists. split; [|split; [|split]].
    + rewrite Htr, <- app_assoc. reflexivity.
    + rewrite opened_app, Hop. reflexivity.
    + done.
    + rewrite Hdom. by apply write_file_dom.
Qed.

(** [run_cmd] creates its output file, opens it once, before it starts
    the command, and adds no other file. *)
Lemma run_cmd_files cmd sub out s :
  exists ev,
    trace os (run_cmd os cmd sub out s).2
    = trace os s ++
      [EvMkdir (PathLib.parent (output_path out sub cmd));
       EvPrint (MsgExecuting cmd);
       EvOpen (output_path out sub cmd)] ++ ev
    /\ opened ev = []
    /\ is_Some (fs os (run_cmd os cmd sub out s).2 !! output_path out sub cmd)
    /\ dom (fs os (run_cmd os cmd sub out s).2)
       = {[output_path out sub cmd]} ∪ dom (fs os s).
Proof.
  rewrite run_cmd_run.
  edestruct (run_cmd_loop_files cmd (output_path out sub cmd) LOOP_FUEL 1 0)
    as (ev & Htr & Hop & Hin & Hdom);
    [|exists ev; rewrite Htr, Hdom; simpl; repeat split; try done].
  - simpl. rewrite lookup_insert_eq. eauto.
  - by rewrite <- app_assoc.
  - by rewrite dom_insert_L.
Qed.

End OutputFile.

(** C9.  [run_cmd] opens its output file once, which creates or empties
    it, before the first attempt; no attempt opens it again, so the file
    exists however the run ends.  After [k <= 4] failed attempts and a
    successful one the file holds what all [k + 1] attempts wrote, in
    order, and nothing of what it held before; after five failed attempts
    it holds what the five wrote. *)
Theorem C9_output_file_accumulates (os : OS) (cmd sub : string)
    (out : PathLib.Path) (s : state os) (k : nat) :
  (exists ev,
     trace os (run_cmd os cmd sub out s).2
     = trace os s ++
       [EvMkdir (PathLib.parent (output_path out sub cmd));
        EvPrint (MsgExecuting cmd);
        EvOpen (output_path out sub cmd)] ++ ev
     /\ opened ev = [])
  /\ is_Some (fs os (run_cmd os cmd sub out s).2 !! output_path out sub cmd)
  /\ ((k <= 4)%nat ->
      fails_before os cmd 1 k (world os s) ->
      exit_status (attempt os cmd k (world os s)) = 0 ->
      elapsed (attempt os cmd k (world os s)) <= 60 ->
      fs os (run_cmd os cmd sub out s).2 !! output_path out sub cmd
      = Some (String.concat EmptyString
                (List.map (fun i => text_of None
                                      (output (attempt os cmd i (world os s))))
                   (seq 0 (S k)))))
  /\ (fails_before os cmd 1 5 (world os s) ->
      fs os (run_cmd os cmd sub out s).2 !! output_path out sub cmd
      = Some (String.concat EmptyString
                (List.map (fun i => text_of None
                                      (output (attempt os cmd i (world os s))))
                   (seq 0 5)))).
Proof.
  destruct (run_cmd_files cmd sub out s) as (ev & Htr & Hop & Hin & _).
  split; [eauto|]. split; [done|]. split.
  - intros Hk Hfail Hx He.
    rewrite (run_cmd_fails_then_ok cmd sub out s k) by done.
    simpl. by rewrite lookup_insert_eq.
  - intros Hfail.
    rewrite (run_cmd_all_fail cmd sub out s) by done.
    simpl. by rewrite lookup_insert_eq.
Qed.

(** Over a file with old content: two failures and a success leave the
    three outputs, in order; five failures leave the five error texts. *)
Lemma C9_output_file_accumulates_witness :
  (let p := output_path (PathLib.parse "/tmp/snap") "global" "kubectl version" in
   fs _ (run_cmd Worlds.scripted "kubectl version" "global"
           (PathLib.parse "/tmp/snap")
           (mkState Worlds.scripted
              [Worlds.ko "e1;"; Worlds.ko "e2;"; Worlds.ok "v1"]
              {[p := "stale"]} [])).2 !! p
   = Some "e1;e2;v1")
  /\
  (let p := output_path (PathLib.parse "/tmp/snap") "global" "kubectl version" in
   fs _ (run_cmd Worlds.unreachable "kubectl version" "global"
           (PathLib.parse "/tmp/snap")
           (Worlds.start Worlds.unreachable tt)).2 !! p
   = Some "refusedrefusedrefusedrefusedrefused").
Proof.
  split.
  - intros p.
    destruct (C9_output_file_accumulates Worlds.scripted "kubectl version"
             "global" (PathLib.parse "/tmp/snap")
             (mkState Worlds.scripted
                [Worlds.ko "e1;"; Worlds.ko "e2;"; Worlds.ok "v1"]
                {[p := "stale"]} []) 2) as (_ & _ & H & _).
    apply H.
    + lia.
    + intros i Hi. destruct i as [|[|i]]; [split; [discriminate|simpl; lia]..|lia].
    + reflexivity.
    + simpl. lia.
  - intros p.
    destruct (C9_output_file_accumulates Worlds.unreachable "kubectl version"
             "global" (PathLib.parse "/tmp/snap")
             (Worlds.start Worlds.unreachable tt) 0) as (_ & _ & _ & H).
    apply H.
    intros i Hi. split; [discriminate|simpl; lia].
Defined.

(* ===================================================================== *)
(** ** How [get_kubectl_list] ends *)
(* ===================================================================== *)

Section Lister.

Context {os : OS}.
Implicit Types (s : state os).

(** [k] failures, then a success. *)
Lemma get_kubectl_list_fails_then_ok ot kc to ns on jp s k :
  (k <= 4)%nat ->
  nonzero_before os (listing_command ot kc to ns on jp) 1 k (world os s) ->
  exit_status (attempt os (listing_command ot kc to ns on jp) k (world os s))
  = 0 ->
  exists ev,
    get_kubectl_list os ot kc to ns on jp s
    = (Return (Some (parse_list
         (text_of (Some Stdout)
            (output (attempt os (listing_command ot kc to ns on jp) k
                       (world os s)))))),
       mkState os
         (os_exec os (listing_command ot kc to ns on jp)
            (attempt_world os (listing_command ot kc to ns on jp) 1 k
               (world os s))).2
         (fs os s) (trace os s ++ ev)).
Proof.
  intros Hk Hfail Hx. rewrite get_kubectl_list_run.
  edestruct (list_loop_fails_then_ok (os:=os) (listing_command ot kc to ns on jp) k
               LOOP_FUEL 1 0) as [ev ->]; simpl; try done.
  - unfold BACKOFF_LIMIT. lia.
  - rewrite LOOP_FUEL_eq. lia.
  - rewrite <- app_assoc. eauto.
Qed.

(** Five failures. *)
Lemma get_kubectl_list_all_fail ot kc to ns on jp s :
  nonzero_before os (listing_command ot kc to ns on jp) 1 5 (world os s) ->
  exists ev,
    get_kubectl_list os ot kc to ns on jp s
    = (Return None,
       mkState os
         (attempt_world os (listing_command ot kc to ns on jp) 1 5
            (world os s))
         (fs os s) (trace os s ++ ev)).
Proof.
  intros Hfail. rewrite get_kubectl_list_run.
  edestruct (list_loop_all_fail (os:=os) (listing_command ot kc to ns on jp) 5
               LOOP_FUEL 1 0) as [ev ->]; simpl; try done.
  - rewrite LOOP_FUEL_eq. lia.
  - rewrite <- app_assoc. eauto.
Qed.

(** Whatever the world does, the loop gives every command it starts no
    timeout, starts the command at least once, opens no file and leaves
    the files alone. *)
Lemma list_loop_general cmd fuel t c s :
  exists ev,
    trace os (get_kubectl_list_loop os fuel cmd t c s).2 = trace os s ++ ev
    /\ Forall (spawn_timeout_is None) ev
    /\ Forall (spawn_cmd_is (eq cmd)) ev
    /\ opened ev = []
    /\ fs os (get_kubectl_list_loop os fuel cmd t c s).2 = fs os s
    /\ ((0 < fuel)%nat -> c <= BACKOFF_LIMIT ->
        head ev = Some (EvSpawn cmd None)).
Proof.
  revert fuel t c s.
  apply (list_loop_cases cmd (fun fuel t c s r =>
    exists ev, trace os r.2 = trace os s ++ ev
      /\ Forall (spawn_timeout_is None) ev
      /\ Forall (spawn_cmd_is (eq cmd)) ev
      /\ opened ev = []
      /\ fs os r.2 = fs os s
      /\ ((0 < fuel)%nat -> c <= BACKOFF_LIMIT ->
          head ev = Some (EvSpawn cmd None)))).
  - intros t c s. exists []. simpl. rewrite app_nil_r.
    repeat split; auto. lia.
  - intros fuel t c s Hc. eexists. split; [reflexivity|].
    repeat split; auto. + repeat constructor. + repeat constructor. + lia.
  - intros fuel t c s Hc Hx. eexists. split; [reflexivity|].
    repeat split; auto; repeat constructor.
  - intros fuel t c s r Hc Hx (ev & Htr & Hto & Hcmd & Hop & Hfs & _).
    simpl in Htr, Hfs. eexists. split; [|split; [|split; [|split; [|split]]]].
    + rewrite Htr, <- app_assoc. reflexivity.
    + apply Forall_app. split; [repeat constructor|done].
    + apply Forall_app. split; [repeat constructor|done].
    + by rewrite opened_app, Hop.
    + done.
    + reflexivity.
Qed.

Lemma get_kubectl_list_general ot kc to ns on jp s :
  exists ev,
    trace os (get_kubectl_list os ot kc to ns on jp s).2 = trace os s ++ ev
    /\ Forall (spawn_timeout_is None) ev
    /\ Forall (spawn_cmd_is (eq (listing_command ot kc to ns on jp))) ev
    /\ opened ev = []
    /\ fs os (get_kubectl_list os ot kc to ns on jp s).2 = fs os s
    /\ In (listing_command ot kc to ns on jp, None) (spawned ev).
Proof.
  rewrite get_kubectl_list_run.
  edestruct (list_loop_general (listing_command ot kc to ns on jp)
               LOOP_FUEL 1 0) as (ev & Htr & Hto & Hcmd & Hop & Hfs & Hhd).
  rewrite Htr, Hfs. simpl. eexists.
  split; [by rewrite <- app_assoc|].
  split; [apply Forall_app; split; [repeat constructor|done]|].
  split; [apply Forall_app; split; [repeat constructor|done]|].
  split; [by rewrite opened_app, Hop|]. split; [done|].
  assert (Hh : head ev = Some (EvSpawn (listing_command ot kc to ns on jp) None))
    by (apply Hhd; [rewrite LOOP_FUEL_eq; lia | done]).
  destruct ev as [|e ev']; [discriminate|]. injection Hh as ->.
  rewrite spawned_app. simpl. by left.
Qed.

(** The listing never raises and never diverges. *)
Lemma list_loop_returns cmd fuel t c s :
  (Z.to_nat (BACKOFF_LIMIT + 1 - c) < fuel)%nat ->
  exists v, (get_kubectl_list_loop os fuel cmd t c s).1 = Return v.
Proof.
  revert fuel t c s.
  apply (list_loop_cases cmd (fun fuel t c s r =>
    (Z.to_nat (BACKOFF_LIMIT + 1 - c) < fuel)%nat ->
    exists v, r.1 = Return v)); unfold BACKOFF_LIMIT;
    try (intros; simpl; eauto; lia).
  intros fuel t c s r Hc Hx IH Hfuel. apply IH. lia.
Qed.

(** The iterations [get_kubectl_list] allows itself are enough, and more
    change nothing. *)
Lemma list_loop_fuel cmd fuel t c s :
  (Z.to_nat (BACKOFF_LIMIT + 1 - c) < fuel)%nat ->
  get_kubectl_list_loop os fuel cmd t c s
  = get_kubectl_list_loop os (S fuel) cmd t c s.
Proof.
  revert fuel t c s.
  apply (list_loop_cases cmd (fun fuel t c s r =>
    (Z.to_nat (BACKOFF_LIMIT + 1 - c) < fuel)%nat ->
    r = get_kubectl_list_loop os (S fuel) cmd t c s)).
  - intros; lia.
  - intros fuel t c s Hc _. by rewrite list_loop_exhausted.
  - intros fuel t c s Hc Hx _. by rewrite list_loop_success.
  - intros fuel t c s r Hc Hx IH Hfuel.
    rewrite (list_loop_failure (S fuel)) by done.
    apply IH. unfold BACKOFF_LIMIT in *. lia.
Qed.

Lemma get_kubectl_list_returns ot kc to ns on jp s :
  exists v, (get_kubectl_list os ot kc to ns on jp s).1 = Return v.
Proof.
  rewrite get_kubectl_list_run. apply list_loop_returns.
  rewrite LOOP_FUEL_eq. vm_compute. lia.
Qed.

End Lister.

Section Spawns.

Context {os : OS}.
Implicit Types (s : state os).

(** Every command [run_cmd] starts is its own, under the hard timeout. *)
Lemma run_cmd_loop_spawns cmd f fuel t c s :
  exists ev,
    trace os (run_cmd_loop os fuel cmd f t c s).2 = trace os s ++ ev
    /\ Forall (spawn_timeout_is (Some 60)) ev
    /\ Forall (spawn_cmd_is (eq cmd)) ev.
Proof.
  revert fuel t c s.
  apply (run_cmd_loop_cases cmd f (fun _ t c s r =>
    exists ev, trace os r.2 = trace os s ++ ev
      /\ Forall (spawn_timeout_is (Some 60)) ev
      /\ Forall (spawn_cmd_is (eq cmd)) ev)).
  - intros t c s. exists []. simpl. by rewrite app_nil_r.
  - intros _ t c s Hc. eexists. split; [reflexivity|].
    split; repeat constructor.
  - intros _ t c s Hc He. eexists. split; [reflexivity|].
    split; repeat constructor.
  - intros _ t c s Hc He Hx. eexists. split; [reflexivity|].
    split; repeat constructor.
  - intros _ t c s r Hc He Hx (ev & Htr & Hto & Hcmd).
    simpl in Htr. eexists. split; [|split].
    + rewrite Htr, <- app_assoc. reflexivity.
    + apply Forall_app. split; [repeat constructor|done].
    + apply Forall_app. split; [repeat constructor|done].
Qed.

Lemma run_cmd_spawns cmd sub out s :
  exists ev,
    trace os (run_cmd os cmd sub out s).2 = trace os s ++ ev
    /\ Forall (spawn_timeout_is (Some 60)) ev
    /\ Forall (spawn_cmd_is (eq cmd)) ev.
Proof.
  rewrite run_cmd_run.
  edestruct (run_cmd_loop_spawns cmd (output_path out sub cmd) LOOP_FUEL 1 0)
    as (ev & Htr & Hto & Hcmd).
  rewrite Htr. simpl. eexists. split; [by rewrite <- app_assoc|].
  split; (apply Forall_app; split; [repeat constructor|done]).
Qed.

End Spawns.

(** C1, as the code has it.  [get_kubectl_list] itself never raises.  But
    when five attempts of a listing exit with a non-zero status, what it
    returns is [None], not an empty list; a [for] loop over that value
    raises [TypeError]; so a run against a cluster that refuses the
    namespace listing, or later a pod listing, ends with that exception. *)
Theorem C1_failed_listing_is_None_and_aborts (os : OS)
    (ot kc to : string) (ns : option string) (on jp : string)
    (s : state os) (body : string -> M os unit) :
  (exists v, (get_kubectl_list os ot kc to ns on jp s).1 = Return v)
  /\ (nonzero_before os (listing_command ot kc to ns on jp) 1 5 (world os s) ->
      (get_kubectl_list os ot kc to ns on jp s).1 = Return None
      /\ (get_kubectl_list os ot kc to ns on jp s).1 <> Return (Some []))
  /\ for_in os None body s = (Raise TypeError_not_iterable, s)
  /\ (main Worlds.unreachable "" 15 "/home/u" "/tmp/snap"
        (Worlds.start Worlds.unreachable tt)).1
     = Raise TypeError_not_iterable
  /\ (main Worlds.scripted "" 15 "/home/u" "/tmp/snap"
        (Worlds.start Worlds.scripted
           (Worlds.ok "default" :: replicate 17 (Worlds.ok "text")
            ++ replicate 5 (Worlds.ko "refused")))).1
     = Raise TypeError_not_iterable.
Proof.
  split; [apply get_kubectl_list_returns|].
  split; [|split; [reflexivity|split; vm_compute; reflexivity]].
  intros Hfail.
  destruct (get_kubectl_list_all_fail ot kc to ns on jp s Hfail) as [ev ->].
  split; [reflexivity|discriminate].
Qed.

(** A namespace listing refused five times yields [None]. *)
Lemma C1_failed_listing_is_None_and_aborts_witness :
  (get_kubectl_list Worlds.unreachable "namespaces" "" "15s" None ""
     DEFAULT_JSONPATH (Worlds.start Worlds.unreachable tt)).1
  = Return None.
Proof.
  destruct (C1_failed_listing_is_None_and_aborts Worlds.unreachable
              "namespaces" "" "15s" None "" DEFAULT_JSONPATH
              (Worlds.start Worlds.unreachable tt) (fun _ => mret tt))
    as (_ & H & _).
  apply H. intros i Hi. discriminate.
Defined.

(** C5, as the code has it.  Every command [run_cmd] starts is given the
    hard timeout of 60, but every command [get_kubectl_list] starts, at
    least one per call, is given none: a listing that needs 100 time
    units is waited for and its output used. *)
Theorem C5_listing_has_no_hard_timeout (os : OS)
    (ot kc to : string) (ns : option string) (on jp : string)
    (cmd sub : string) (out : PathLib.Path) (s : state os) :
  (exists ev,
     trace os (get_kubectl_list os ot kc to ns on jp s).2 = trace os s ++ ev
     /\ Forall (spawn_timeout_is None) ev
     /\ In (listing_command ot kc to ns on jp, None) (spawned ev))
  /\ (exists ev,
        trace os (run_cmd os cmd sub out s).2 = trace os s ++ ev
        /\ Forall (spawn_timeout_is (Some 60)) ev)
  /\ (get_kubectl_list Worlds.sluggish "namespaces" "" "15s" None ""
        DEFAULT_JSONPATH (Worlds.start Worlds.sluggish tt)).1
     = Return (Some ["slowlate"]).
Proof.
  split; [|split; [|vm_compute; reflexivity]].
  - destruct (get_kubectl_list_general ot kc to ns on jp s)
      as (ev & Htr & Hto & _ & _ & _ & Hin). eauto.
  - destruct (run_cmd_spawns cmd sub out s) as (ev & Htr & Hto & _). eauto.
Qed.

(* ===================================================================== *)
(** ** Parsing the output of a listing *)
(* ===================================================================== *)

Lemma contains_false_count (l : list string) :
  PyStr.contains EmptyString l = false -> count_empty l = 0%nat.
Proof.
  unfold PyStr.contains, count_empty.
  induction l as [|x l IH]; [done|].
  destruct x as [|c x]; simpl; [discriminate|exact IH].
Qed.

Lemma remove_empty (l : list string) :
  PyStr.contains EmptyString l = true ->
  exists l', PyStr.remove EmptyString l = Some l'
    /\ List.filter nonempty l' = List.filter nonempty l
    /\ count_empty l = S (count_empty l').
Proof.
  unfold PyStr.contains, count_empty, nonempty.
  induction l as [|x l IH]; [discriminate|].
  destruct x as [|c x]; simpl.
  - intros _. eauto.
  - intros H. destruct (IH H) as (l' & -> & Hf & Hc). simpl.
    eexists. split; [reflexivity|]. simpl. by rewrite Hf, Hc.
Qed.

Lemma count_empty_zero (l : list string) :
  count_empty l = 0%nat -> List.filter nonempty l = l.
Proof.
  unfold count_empty, nonempty.
  induction l as [|x l IH]; [done|].
  destruct x as [|c x]; simpl; [discriminate|].
  intros H. by rewrite IH.
Qed.

Lemma parse_list_spec (out : string) :
  List.filter nonempty (parse_list out) = tokens_without_empty (PyStr.strip out)
  /\ count_empty (parse_list out)
     = pred (count_empty (PyStr.split " " (PyStr.strip out))).
Proof.
  unfold parse_list, tokens_without_empty.
  destruct (PyStr.contains EmptyString (PyStr.split " " (PyStr.strip out)))
    eqn:E.
  - destruct (remove_empty _ E) as (l' & -> & Hf & Hc). simpl.
    by rewrite Hc.
  - apply contains_false_count in E. by rewrite E.
Qed.

(** C4, as the code has it.  A listing whose attempt number [k] is the
    first to exit with status 0 returns the parsed standard output of that
    attempt.  Parsing strips the output, splits it on single spaces and
    removes the first empty token only: the non-empty tokens are kept in
    order and one empty token fewer remains, so the result is free of
    empty tokens exactly when the split has at most one; in particular
    the output ["ns1 ns2  ns3"] yields [["ns1"; "ns2"; "ns3"]]. *)
Theorem C4_listing_drops_first_empty_token (os : OS)
    (ot kc to : string) (ns : option string) (on jp : string)
    (s : state os) (k : nat) (out : string) :
  ((k <= 4)%nat ->
   nonzero_before os (listing_command ot kc to ns on jp) 1 k (world os s) ->
   exit_status (attempt os (listing_command ot kc to ns on jp) k (world os s))
   = 0 ->
   (get_kubectl_list os ot kc to ns on jp s).1
   = Return (Some (parse_list
       (text_of (Some Stdout)
          (output (attempt os (listing_command ot kc to ns on jp) k
                     (world os s)))))))
  /\ List.filter nonempty (parse_list out)
     = tokens_without_empty (PyStr.strip out)
  /\ count_empty (parse_list out)
     = pred (count_empty (PyStr.split " " (PyStr.strip out)))
  /\ ((count_empty (PyStr.split " " (PyStr.strip out)) <= 1)%nat ->
      parse_list out = tokens_without_empty (PyStr.strip out))
  /\ parse_list "ns1 ns2  ns3" = ["ns1"; "ns2"; "ns3"].
Proof.
  destruct (parse_list_spec out) as [Hf Hc].
  split; [|split; [done|split; [done|split; [|reflexivity]]]].
  - intros Hk Hfail Hx.
    by destruct (get_kubectl_list_fails_then_ok ot kc to ns on jp s k Hk
                   Hfail Hx) as [ev ->].
  - intros H. rewrite <- Hf. symmetry. apply count_empty_zero. lia.
Qed.

(** One failure, then ["ns1 ns2  ns3"]: the three names. *)
Lemma C4_listing_drops_first_empty_token_witness :
  (get_kubectl_list Worlds.scripted "namespaces" "" "15s" None ""
     DEFAULT_JSONPATH
     (Worlds.start Worlds.scripted
        [Worlds.ko "refused"; Worlds.ok "ns1 ns2  ns3"])).1
  = Return (Some ["ns1"; "ns2"; "ns3"])
  /\ parse_list "a  b" = ["a"; "b"].
Proof.
  split.
  - destruct (C4_listing_drops_first_empty_token Worlds.scripted
                "namespaces" "" "15s" None "" DEFAULT_JSONPATH
                (Worlds.start Worlds.scripted
                   [Worlds.ko "refused"; Worlds.ok "ns1 ns2  ns3"])
                1 "") as (H & _).
    apply H.
    + lia.
    + intros i Hi. destruct i as [|i]; [discriminate|lia].
    + reflexivity.
  - destruct (C4_listing_drops_first_empty_token Worlds.scripted
                "namespaces" "" "15s" None "" DEFAULT_JSONPATH
                (Worlds.start Worlds.scripted []) 0 "a  b")
      as (_ & _ & _ & H & _).
    apply H. vm_compute. lia.
Defined.

(** C4 as stated fails: of two doubled separators the second leaves an
    empty token in the sequence the listing returns. *)
Lemma C4_second_empty_token_survives :
  parse_list "ns1  ns2  ns3" = ["ns1"; "ns2"; ""; "ns3"]
  /\ In EmptyString (parse_list "ns1  ns2  ns3")
  /\ parse_list "ns1  ns2  ns3" <> tokens_without_empty "ns1  ns2  ns3"
  /\ (get_kubectl_list Worlds.scripted "namespaces" "" "15s" None ""
        DEFAULT_JSONPATH
        (Worlds.start Worlds.scripted [Worlds.ok "ns1  ns2  ns3"])).1
     = Return (Some ["ns1"; "ns2"; ""; "ns3"]).
Proof.
  split; [reflexivity|]. split; [vm_compute; auto|].
  split; [discriminate|reflexivity].
Qed.

(* ===================================================================== *)
(** ** Paths of output files *)
(* ===================================================================== *)

Lemma split_not_nil sep s : PyStr.split sep s <> [].
Proof.
  destruct s as [|c s]; simpl; [done|].
  destruct (Ascii.eqb c sep); [done|]. by destruct (PyStr.split sep s).
Qed.

Lemma split_cons_other sep c s :
  Ascii.eqb c sep = false ->
  PyStr.split sep (String c s)
  = String c (hd EmptyString (PyStr.split sep s)) :: tl (PyStr.split sep s).
Proof.
  intros H. simpl. rewrite H.
  pose proof (split_not_nil sep s). by destruct (PyStr.split sep s).
Qed.

Lemma split_app_sep sep a b :
  PyStr.split sep (a +:+ String sep b) = PyStr.split sep a ++ PyStr.split sep b.
Proof.
  induction a as [|c a IH].
  - rewrite append_nil_l. simpl. by rewrite Ascii.eqb_refl.
  - rewrite append_cons. simpl. destruct (Ascii.eqb c sep).
    + by rewrite IH.
    + rewrite IH. pose proof (split_not_nil sep a).
      by destruct (PyStr.split sep a).
Qed.

Lemma splitroot_relative s :
  PyStr.startswith "/" s = false -> PathLib.splitroot s = (EmptyString, s).
Proof.
  destruct s as [|c s]; [done|].
  destruct c as [[] [] [] [] [] [] [] []]; try reflexivity.
  simpl. by destruct s.
Qed.

Lemma parse_relative s :
  PyStr.startswith "/" s = false ->
  PathLib.parse s
  = PathLib.mkPath EmptyString
      (List.filter PathLib.keep_name (PyStr.split "/" s)).
Proof. intros H. unfold PathLib.parse. by rewrite splitroot_relative. Qed.

Lemma truediv_relative p s :
  PyStr.startswith "/" s = false ->
  PathLib.truediv p s
  = PathLib.mkPath (PathLib.root p)
      (PathLib.names p ++ List.filter PathLib.keep_name (PyStr.split "/" s)).
Proof. intros H. unfold PathLib.truediv. by rewrite parse_relative. Qed.

Lemma prefix_nil r : String.prefix EmptyString r = true.
Proof. by destruct r. Qed.

Lemma startswith_one c x r :
  PyStr.startswith (String c EmptyString) (String x r)
  = if ascii_dec c x then true else false.
Proof.
  unfold PyStr.startswith.
  change (String.prefix (String c EmptyString) (String x r))
    with (if ascii_dec c x then String.prefix EmptyString r else false).
  by rewrite prefix_nil.
Qed.

Lemma startswith_app c a b :
  a <> EmptyString ->
  PyStr.startswith (String c EmptyString) (a +:+ b)
  = PyStr.startswith (String c EmptyString) a.
Proof.
  destruct a as [|x a]; [done|]. intros _.
  by rewrite append_cons, !startswith_one.
Qed.

Lemma startswith_replace s :
  PyStr.startswith "/" (PyStr.replace " " "_" s) = PyStr.startswith "/" s.
Proof.
  destruct s as [|x s]; [done|].
  change (PyStr.replace " " "_" (String x s))
    with (String (if Ascii.eqb x " " then "_"%char else x)
            (PyStr.replace " " "_" s)).
  rewrite !startswith_one.
  destruct (Ascii.eqb x " ") eqn:E; [|reflexivity].
  apply Ascii.eqb_eq in E. by subst x.
Qed.

Lemma output_path_joined out sub cmd :
  sub <> EmptyString ->
  PyStr.startswith "/" sub = false ->
  PyStr.startswith "/" cmd = false ->
  output_path out sub cmd
  = PathLib.truediv out (sub +:+ "/" +:+ PyStr.replace " " "_" cmd).
Proof.
  intros Hne Hsub Hcmd. unfold output_path.
  rewrite (truediv_relative out sub) by done.
  rewrite (truediv_relative _ (PyStr.replace " " "_" cmd))
    by (by rewrite startswith_replace).
  rewrite (truediv_relative out (sub +:+ _))
    by (by rewrite startswith_app).
  change (sub +:+ "/" +:+ PyStr.replace " " "_" cmd)
    with (sub +:+ String "/" (PyStr.replace " " "_" cmd)).
  rewrite split_app_sep, List.filter_app. simpl.
  by rewrite <- app_assoc.
Qed.

(** C7.  For a non-empty relative subfolder and a command that does not
    start with a slash, the file [run_cmd] opens is the output directory
    joined with [subfolder + "/" + command with every space replaced by an
    underscore].  Every command of the three catalogues and every
    subfolder [main] passes is of that kind.  The command
    ["kubectl get all -o wide --namespace foo"] gets the file name
    ["kubectl_get_all_-o_wide_--namespace_foo"] under its subfolder. *)
Theorem C7_output_path_rule (os : OS) (out : PathLib.Path)
    (sub cmd : string) (s : state os)
    (kc to ns pod container : string) :
  (sub <> EmptyString ->
   PyStr.startswith "/" sub = false ->
   PyStr.startswith "/" cmd = false ->
   output_path out sub cmd
   = PathLib.truediv out (sub +:+ "/" +:+ PyStr.replace " " "_" cmd)
   /\ exists ev,
        trace os (run_cmd os cmd sub out s).2
        = trace os s ++
          [EvMkdir (PathLib.parent
             (PathLib.truediv out
                (sub +:+ "/" +:+ PyStr.replace " " "_" cmd)));
           EvPrint (MsgExecuting cmd);
           EvOpen (PathLib.truediv out
                     (sub +:+ "/" +:+ PyStr.replace " " "_" cmd))] ++ ev
        /\ opened ev = [])
  /\ Forall (fun tpl => exists c,
       PyStr.format tpl [] [("kubeconfig_arg", kc); ("timeout", to)] = Some c
       /\ PyStr.startswith "/" c = false) KUBECTL_GLOBAL_CMDS
  /\ Forall (fun tpl => exists c,
       PyStr.format tpl []
         [("kubeconfig_arg", kc); ("timeout", to); ("namespace", ns)] = Some c
       /\ PyStr.startswith "/" c = false) KUBECTL_PER_NS_CMDS
  /\ Forall (fun tpl => exists c,
       PyStr.format tpl []
         [("kubeconfig_arg", kc); ("timeout", to); ("namespace", ns);
          ("pod", pod); ("container", container)] = Some c
       /\ PyStr.startswith "/" c = false) KUBECTL_PER_POD_CMDS
  /\ (exists d, PyStr.format "namespaces/{}" [ns] [] = Some d
        /\ d <> EmptyString /\ PyStr.startswith "/" d = false)
  /\ (exists d, PyStr.format "namespaces/{}/{}" [ns; pod] [] = Some d
        /\ d <> EmptyString /\ PyStr.startswith "/" d = false)
  /\ PathLib.str (output_path (PathLib.parse "/tmp/snap") "namespaces/foo"
                    "kubectl get all -o wide --namespace foo")
     = "/tmp/snap/namespaces/foo/kubectl_get_all_-o_wide_--namespace_foo"
  /\ last (PathLib.names
             (output_path (PathLib.parse "/tmp/snap") "namespaces/foo"
                "kubectl get all -o wide --namespace foo"))
     = Some "kubectl_get_all_-o_wide_--namespace_foo".
Proof.
  split.
  { intros Hne Hsub Hcmd.
    rewrite <- (output_path_joined out sub cmd) by done. split; [done|].
    destruct (run_cmd_files (os:=os) cmd sub out s) as (ev & Htr & Hop & _).
    eauto. }
  split; [repeat constructor; eexists; split; reflexivity|].
  split; [repeat constructor; eexists; split; reflexivity|].
  split; [repeat constructor; eexists; split; reflexivity|].
  split; [eexists; split; [reflexivity|split; [discriminate|reflexivity]]|].
  split; [eexists; split; [reflexivity|split; [discriminate|reflexivity]]|].
  split; reflexivity.
Qed.

(** The example of the rule, through the theorem. *)
Lemma C7_output_path_rule_witness :
  output_path (PathLib.parse "/tmp/snap") "namespaces/foo"
    "kubectl get all -o wide --namespace foo"
  = PathLib.truediv (PathLib.parse "/tmp/snap")
      "namespaces/foo/kubectl_get_all_-o_wide_--namespace_foo".
Proof.
  destruct (C7_output_path_rule Worlds.unreachable (PathLib.parse "/tmp/snap")
              "namespaces/foo" "kubectl get all -o wide --namespace foo"
              (Worlds.start Worlds.unreachable tt) "" "15s" "foo" "p" "c")
    as (H & _).
  apply H; [discriminate|reflexivity|reflexivity].
Defined.

(** C8.  The mapping from commands to output files is not injective: two
    commands that differ only in a space against an underscore get the same
    file in every subfolder of every output directory. *)
Theorem C8_output_path_not_injective :
  exists cmd1 cmd2 : string,
    cmd1 <> cmd2
    /\ PyStr.replace " " "_" cmd1 = PyStr.replace " " "_" cmd2
    /\ forall out sub, output_path out sub cmd1 = output_path out sub cmd2.
Proof.
  exists "kubectl get pods my pod", "kubectl get pods my_pod".
  split; [discriminate|]. split; reflexivity.
Qed.

(* ===================================================================== *)
(** ** What a whole run can emit *)
(* ===================================================================== *)

Section Emits.

Context {os : OS}.
Implicit Types (s : state os) (P : event -> Prop).

Lemma emits_ret P {A} (a : A) : emits P (mret a : M os A).
Proof. intros s. exists []. simpl. by rewrite app_nil_r. Qed.

Lemma emits_raise P {A} e : emits P (raise os e : M os A).
Proof. intros s. exists []. simpl. by rewrite app_nil_r. Qed.

Lemma emits_bind P {A B} (m : M os A) (k : A -> M os B) :
  emits P m -> (forall a, emits P (k a)) -> emits P (m ≫= k).
Proof.
  intros Hm Hk s. rewrite bind_run. destruct (Hm s) as (ev & Htr & Hev).
  destruct (m s) as [[a| |] s1]; simpl in *; [|eauto..].
  destruct (Hk a s1) as (ev' & Htr' & Hev').
  exists (ev ++ ev'). rewrite Htr', Htr, <- app_assoc. split; [done|].
  by apply Forall_app.
Qed.

Lemma emits_impl P Q {A} (m : M os A) :
  (forall e, P e -> Q e) -> emits P m -> emits Q m.
Proof.
  intros H Hm s. destruct (Hm s) as (ev & Htr & Hev). exists ev.
  split; [done|]. eapply Forall_impl; eauto.
Qed.

Lemma emits_fmt P tpl args kw : emits P (fmt os tpl args kw).
Proof.
  unfold fmt. destruct (PyStr.format tpl args kw);
    [apply emits_ret|apply emits_raise].
Qed.

Lemma emits_for_list P {A} (l : list A) (body : A -> M os unit) :
  (forall x, In x l -> emits P (body x)) -> emits P (for_list os l body).
Proof.
  induction l as [|x l IH]; intros H; simpl; [apply emits_ret|].
  apply emits_bind; [apply H; by left|].
  intros _. apply IH. intros y Hy. apply H. by right.
Qed.

Lemma emits_for_in P {A} (v : option (list A)) (body : A -> M os unit) :
  (forall x, emits P (body x)) -> emits P (for_in os v body).
Proof.
  intros H. destruct v as [l|]; simpl; [|apply emits_raise].
  apply emits_for_list. auto.
Qed.

Lemma emits_run_cmd P cmd sub out :
  (forall e, spawn_cmd_is (eq cmd) e -> P e) ->
  emits P (run_cmd os cmd sub out).
Proof.
  intros H s. destruct (run_cmd_spawns cmd sub out s) as (ev & Htr & _ & Hev).
  exists ev. split; [done|]. eapply Forall_impl; eauto.
Qed.

Lemma emits_get_kubectl_list P ot kc to ns on jp :
  (forall e, spawn_cmd_is (eq (listing_command ot kc to ns on jp)) e -> P e) ->
  emits P (get_kubectl_list os ot kc to ns on jp).
Proof.
  intros H s.
  destruct (get_kubectl_list_general ot kc to ns on jp s)
    as (ev & Htr & _ & Hev & _).
  exists ev. split; [done|]. eapply Forall_impl; eauto.
Qed.

Lemma emits_package P cwd out :
  (forall e, is_spawn e = false -> P e) -> emits P (package os cwd out).
Proof.
  intros H s. eexists. split; [reflexivity|]. repeat constructor; by apply H.
Qed.

Lemma emits_with_tempdir P {A} tmp (m : M os A) :
  emits P m -> emits P (with_tempdir os tmp m).
Proof.
  intros Hm s. unfold with_tempdir. destruct (Hm s) as (ev & Htr & Hev).
  destruct (m s) as [r s1]. simpl in *. eauto.
Qed.

Lemma spawn_cmd_is_impl (Q R : string -> Prop) e :
  (forall c, Q c -> R c) -> spawn_cmd_is Q e -> spawn_cmd_is R e.
Proof. intros H. destruct e; simpl; auto. Qed.

(** Every command the traversal starts is one of the catalogue, or a
    listing query, with the given [kubeconfig_arg] and [timeout]. *)
Lemma emits_traverse kc to nl out :
  emits (spawn_cmd_is (executed kc to)) (traverse os kc to nl out).
Proof.
  unfold traverse. apply emits_bind.
  { apply emits_for_list. intros tpl Hin. unfold fmt.
    destruct (PyStr.format tpl [] _) as [c|] eqn:E;
      [|rewrite bind_run_raise; apply emits_raise].
    rewrite bind_run_ret. apply emits_run_cmd.
    intros e. apply spawn_cmd_is_impl. intros ? <-.
    by eapply executed_global. }
  intros _. apply emits_for_in. intros namespace. apply emits_bind.
  { apply emits_for_list. intros tpl Hin. unfold fmt.
    destruct (PyStr.format tpl [] _) as [c|] eqn:E;
      [|rewrite bind_run_raise; apply emits_raise].
    rewrite bind_run_ret. apply emits_bind; [apply emits_fmt|].
    intros sub. apply emits_run_cmd.
    intros e. apply spawn_cmd_is_impl. intros ? <-.
    by eapply executed_namespace. }
  intros _. apply emits_bind.
  { apply emits_get_kubectl_list. intros e. apply spawn_cmd_is_impl.
    intros ? <-. constructor. }
  intros pods. apply emits_for_in. intros pod. apply emits_bind.
  { apply emits_get_kubectl_list. intros e. apply spawn_cmd_is_impl.
    intros ? <-. constructor. }
  intros containers. apply emits_for_in. intros container.
  apply emits_for_list. intros tpl Hin. unfold fmt.
  destruct (PyStr.format tpl [] _) as [c|] eqn:E;
    [|rewrite bind_run_raise; apply emits_raise].
  rewrite bind_run_ret. apply emits_bind; [apply emits_fmt|].
  intros sub. apply emits_run_cmd.
  intros e. apply spawn_cmd_is_impl. intros ? <-.
  by eapply executed_pod.
Qed.

End Emits.

(* ===================================================================== *)
(** ** The kubeconfig argument *)
(* ===================================================================== *)

Lemma prefix_cons a b s1 s2 :
  String.prefix (String a s1) (String b s2)
  = if ascii_dec a b then String.prefix s1 s2 else false.
Proof. reflexivity. Qed.

Lemma prefix_app_l x r : String.prefix x (x +:+ r) = true.
Proof.
  induction x as [|c x IH]; [apply prefix_nil|].
  rewrite append_cons, prefix_cons. by destruct (ascii_dec c c).
Qed.

Lemma prefix_app_left x : forall a b,
  String.prefix x a = true -> String.prefix x (a +:+ b) = true.
Proof.
  induction x as [|c x IH]; intros a b H; [apply prefix_nil|].
  destruct a as [|d a]; [discriminate|].
  rewrite append_cons, prefix_cons. rewrite prefix_cons in H.
  destruct (ascii_dec c d); [by apply IH|done].
Qed.

Lemma substring_of_eq x s :
  PyStr.substring_of x s
  = String.prefix x s
    || match s with
       | EmptyString => false
       | String _ r => PyStr.substring_of x r
       end.
Proof. by destruct s. Qed.

Lemma substring_of_cons x c s :
  PyStr.substring_of x s = true -> PyStr.substring_of x (String c s) = true.
Proof. intros H. rewrite substring_of_eq, H. apply orb_true_r. Qed.

Lemma substring_of_app_l x r : PyStr.substring_of x (x +:+ r) = true.
Proof. by rewrite substring_of_eq, prefix_app_l. Qed.

Lemma substring_of_app_r x a b :
  PyStr.substring_of x b = true -> PyStr.substring_of x (a +:+ b) = true.
Proof.
  intros H. induction a as [|c a IH]; [done|].
  rewrite append_cons. by apply substring_of_cons.
Qed.

Lemma substring_of_app_left x a b :
  PyStr.substring_of x a = true -> PyStr.substring_of x (a +:+ b) = true.
Proof.
  induction a as [|c a IH]; rewrite (substring_of_eq x).
  - rewrite orb_false_r. intros H. rewrite append_nil_l.
    destruct x; [|by destruct b]. rewrite substring_of_eq.
    by rewrite prefix_nil.
  - intros H. apply orb_true_iff in H as [H|H].
    + rewrite substring_of_eq. by rewrite prefix_app_left.
    + rewrite append_cons. apply substring_of_cons. by apply IH.
Qed.

Ltac find_substring :=
  repeat first
    [ apply substring_of_app_l
    | apply substring_of_cons
    | apply substring_of_app_r ].

(** Every command of a run carries the [kubeconfig_arg] value in it. *)
Lemma executed_contains kc to c :
  executed kc to c -> PyStr.substring_of kc c = true.
Proof.
  intros [tpl c' Hin H|tpl namespace c' Hin H|tpl namespace pod container c' Hin H
          |ot ns on jp].
  - repeat (destruct Hin as [<-|Hin];
            [simpl in H; injection H as <-; find_substring|]).
    destruct Hin.
  - repeat (destruct Hin as [<-|Hin];
            [simpl in H; injection H as <-; find_substring|]).
    destruct Hin.
  - repeat (destruct Hin as [<-|Hin];
            [simpl in H; injection H as <-; find_substring|]).
    destruct Hin.
  - unfold listing_command. destruct (truthy ns).
    + apply substring_of_app_left.
      do 3 apply substring_of_app_r. apply substring_of_app_l.
    + do 3 apply substring_of_app_r. apply substring_of_app_l.
Qed.

Lemma splitroot_absolute s :
  PyStr.startswith "/" s = true -> (PathLib.splitroot s).1 <> EmptyString.
Proof.
  destruct s as [|c s]; [discriminate|].
  destruct c as [[] [] [] [] [] [] [] []]; try discriminate.
  intros _. unfold PathLib.splitroot.
  by destruct (_ =? _)%nat.
Qed.

Lemma absolute_is_absolute cwd p :
  PyStr.startswith "/" cwd = true ->
  PathLib.is_absolute (PathLib.absolute cwd p) = true.
Proof.
  intros H. unfold PathLib.absolute.
  destruct (PathLib.is_absolute p) eqn:E; [done|].
  unfold PathLib.join. rewrite E. unfold PathLib.is_absolute, PathLib.parse.
  apply splitroot_absolute in H.
  destruct (PathLib.splitroot cwd) as [rt rel]. simpl in *.
  by destruct rt.
Qed.

Section Main.

Context {os : OS}.
Implicit Types (s : state os).

Lemma kubeconfig_arg_run cwd kubeconfig s :
  kubeconfig_arg os cwd kubeconfig s
  = (Return (kubeconfig_flag cwd kubeconfig), s).
Proof.
  destruct kubeconfig as [|c k]; [reflexivity|].
  unfold kubeconfig_arg, kubeconfig_flag, fmt.
  generalize (PathLib.str (PathLib.absolute cwd (PathLib.parse (String c k)))).
  intros p. simpl. by rewrite append_nil_r.
Qed.

Lemma main_run kubeconfig timeout cwd tmp_dir s :
  main os kubeconfig timeout cwd tmp_dir s
  = (namespaces_list ←
       get_kubectl_list os "namespaces" (kubeconfig_flag cwd kubeconfig)
         (timeout_arg timeout) None EmptyString DEFAULT_JSONPATH;
     with_tempdir os tmp_dir
       (traverse os (kubeconfig_flag cwd kubeconfig) (timeout_arg timeout)
          namespaces_list (PathLib.parse tmp_dir);;
        package os cwd (PathLib.parse tmp_dir))) s.
Proof.
  unfold main, fmt.
  change (PyStr.format "{}s" [PyStr.str_of_int timeout] [])
    with (Some (PyStr.str_of_int timeout +:+ "s" +:+ EmptyString)).
  rewrite append_nil_r. rewrite bind_run_ret.
  rewrite bind_run, kubeconfig_arg_run. reflexivity.
Qed.

Lemma emits_main kubeconfig timeout cwd tmp_dir :
  emits (spawn_cmd_is
           (executed (kubeconfig_flag cwd kubeconfig) (timeout_arg timeout)))
    (main os kubeconfig timeout cwd tmp_dir).
Proof.
  intros s. rewrite main_run. revert s. apply emits_bind.
  { apply emits_get_kubectl_list. intros e. apply spawn_cmd_is_impl.
    intros ? <-. constructor. }
  intros nl. apply emits_with_tempdir. apply emits_bind;
    [apply emits_traverse|].
  intros _. apply emits_package. by intros [].
Qed.

End Main.

(** C10.  The kubeconfig is the [--kubeconfig] option, else the
    [KUBECONFIG] variable, else the empty string.  If it is empty, the
    [kubeconfig_arg] field of every command is filled with the empty
    string: no kubeconfig flag is put in any command.  If it is not, the
    field is ["--kubeconfig "] followed by the path made absolute against
    the working directory (an absolute path when the working directory
    is), and every command of the run, inspection command or listing
    query, is an instance of its template with that value and contains
    it. *)
Theorem C10_kubeconfig_argument (os : OS) (kubeconfig : string)
    (timeout : Z) (cwd tmp_dir : string) (s : state os)
    (arg env : string) (arg_timeout : option Z) :
  ((parse_args None None arg_timeout).1 = EmptyString
   /\ (parse_args None (Some env) arg_timeout).1 = env
   /\ (parse_args (Some arg) (Some env) arg_timeout).1 = arg
   /\ (parse_args (Some arg) None arg_timeout).1 = arg)
  /\ kubeconfig_arg os cwd kubeconfig s
     = (Return (kubeconfig_flag cwd kubeconfig), s)
  /\ kubeconfig_flag cwd EmptyString = EmptyString
  /\ (kubeconfig <> EmptyString ->
      kubeconfig_flag cwd kubeconfig
      = "--kubeconfig "
        +:+ PathLib.str (PathLib.absolute cwd (PathLib.parse kubeconfig))
      /\ (PyStr.startswith "/" cwd = true ->
          PathLib.is_absolute
            (PathLib.absolute cwd (PathLib.parse kubeconfig)) = true))
  /\ (exists ev,
        trace os (main os kubeconfig timeout cwd tmp_dir s).2
        = trace os s ++ ev
        /\ Forall (spawn_cmd_is (fun c =>
             executed (kubeconfig_flag cwd kubeconfig) (timeout_arg timeout) c
             /\ PyStr.substring_of (kubeconfig_flag cwd kubeconfig) c = true))
             ev)
  /\ kubeconfig_flag "/home/u" "cfg" = "--kubeconfig /home/u/cfg"
  /\ forallb (fun c => negb (PyStr.substring_of "--kubeconfig" c.1))
       (spawned (trace _
          (main Worlds.one_pod "" 15 "/home/u" "/tmp/snap"
             (Worlds.start Worlds.one_pod tt)).2)) = true
  /\ forallb (fun c => PyStr.substring_of "--kubeconfig /home/u/cfg " c.1)
       (spawned (trace _
          (main Worlds.one_pod "cfg" 15 "/home/u" "/tmp/snap"
             (Worlds.start Worlds.one_pod tt)).2)) = true.
Proof.
  split; [done|]. split; [apply kubeconfig_arg_run|]. split; [done|].
  split.
  { intros Hne. split; [by destruct kubeconfig|].
    apply absolute_is_absolute. }
  split.
  { destruct (emits_main (os:=os) kubeconfig timeout cwd tmp_dir s)
      as (ev & Htr & Hev).
    exists ev. split; [done|]. eapply Forall_impl; [exact Hev|].
    intros e. apply spawn_cmd_is_impl. intros c Hc.
    split; [done|]. by eapply executed_contains. }
  split; [reflexivity|]. split; vm_compute; reflexivity.
Qed.

(** With kubeconfig [cfg] and working directory [/home/u], the field is
    ["--kubeconfig /home/u/cfg"], an absolute path. *)
Lemma C10_kubeconfig_argument_witness :
  kubeconfig_flag "/home/u" "cfg"
  = "--kubeconfig "
    +:+ PathLib.str (PathLib.absolute "/home/u" (PathLib.parse "cfg"))
  /\ PathLib.is_absolute (PathLib.absolute "/home/u" (PathLib.parse "cfg"))
     = true.
Proof.
  destruct (C10_kubeconfig_argument Worlds.one_pod "cfg" 15 "/home/u"
              "/tmp/snap" (Worlds.start Worlds.one_pod tt) "cfg" "" None)
    as (_ & _ & _ & H & _).
  destruct H as [H1 H2]; [discriminate|].
  split; [exact H1|]. apply H2. reflexivity.
Defined.

(* ===================================================================== *)
(** ** The files a run creates *)
(* ===================================================================== *)

Section Yields.

Context {os : OS}.
Implicit Types (s : state os).

Lemma yields_ret {A} (a : A) : yields (mret a : M os A) a [].
Proof.
  intros s. exists s, []. simpl. rewrite app_nil_r.
  repeat split. by rewrite (left_id_L ∅ (∪)).
Qed.

Lemma yields_bind {A B} (m : M os A) (k : A -> M os B) a b ps qs :
  yields m a ps -> yields (k a) b qs -> yields (m ≫= k) b (ps ++ qs).
Proof.
  intros Hm Hk s. rewrite bind_run.
  destruct (Hm s) as (s1 & ev1 & -> & Htr1 & Hop1 & Hdom1).
  destruct (Hk s1) as (s2 & ev2 & -> & Htr2 & Hop2 & Hdom2).
  exists s2, (ev1 ++ ev2). split; [done|].
  rewrite Htr2, Htr1, <- app_assoc, opened_app, Hop1, Hop2, Hdom2, Hdom1.
  repeat split.
  by rewrite list_to_set_app_L, (assoc_L (∪)), (comm_L (∪) (list_to_set qs)).
Qed.

Lemma yields_fmt tpl args kw c :
  PyStr.format tpl args kw = Some c -> yields (fmt os tpl args kw) c [].
Proof. intros H. unfold fmt. rewrite H. apply yields_ret. Qed.

Lemma yields_for_list {A} (l : list A) (body : A -> M os unit)
    (g : A -> list PathLib.Path) :
  (forall x, In x l -> yields (body x) tt (g x)) ->
  yields (for_list os l body) tt (concat (List.map g l)).
Proof.
  induction l as [|x l IH]; intros H; simpl; [apply yields_ret|].
  eapply yields_bind; [apply H; by left|].
  apply IH. intros y Hy. apply H. by right.
Qed.

Lemma yields_for_in {A} (l : list A) (body : A -> M os unit)
    (g : A -> list PathLib.Path) :
  (forall x, In x l -> yields (body x) tt (g x)) ->
  yields (for_in os (Some l) body) tt (concat (List.map g l)).
Proof. apply yields_for_list. Qed.

(** Where no command outlasts the hard timeout, [run_cmd] returns and
    creates its output file. *)
Lemma yields_run_cmd cmd sub out :
  (forall w, elapsed (os_exec os cmd w).1 <= 60) ->
  yields (run_cmd os cmd sub out) tt [output_path out sub cmd].
Proof.
  intros Hfast s.
  destruct (run_cmd_files cmd sub out s) as (ev & Htr & Hop & _ & Hdom).
  assert (Hr : (run_cmd os cmd sub out s).1 = Return tt).
  { rewrite run_cmd_run. apply run_cmd_loop_in_time; [done|].
    rewrite LOOP_FUEL_eq. vm_compute. lia. }
  destruct (run_cmd os cmd sub out s) as [r s']. simpl in *. subst r.
  eexists _, _. split; [reflexivity|]. split; [exact Htr|].
  simpl. rewrite Hop, Hdom. split; [done|].
  by rewrite (right_id_L ∅ (∪)).
Qed.

(** A listing creates no file; what it returns is up to the cluster. *)
Lemma yields_get_kubectl_list ot kc to ns on jp v :
  (forall s, (get_kubectl_list os ot kc to ns on jp s).1 = Return v) ->
  yields (get_kubectl_list os ot kc to ns on jp) v [].
Proof.
  intros H s. specialize (H s).
  destruct (get_kubectl_list_general ot kc to ns on jp s)
    as (ev & Htr & _ & _ & Hop & Hfs & _).
  destruct (get_kubectl_list os ot kc to ns on jp s) as [r s']. simpl in *.
  subst r. exists s', ev. repeat split; try done.
  by rewrite Hfs, (left_id_L ∅ (∪)).
Qed.

End Yields.

(* ===================================================================== *)
(** ** The shape of output paths *)
(* ===================================================================== *)

(** The names a relative string contributes to a path. *)
Lemma output_path_names out sub cmd :
  PyStr.startswith "/" sub = false ->
  PyStr.startswith "/" cmd = false ->
  output_path out sub cmd
  = PathLib.mkPath (PathLib.root out)
      (PathLib.names out
       ++ List.filter PathLib.keep_name (PyStr.split "/" sub)
       ++ List.filter PathLib.keep_name
            (PyStr.split "/" (PyStr.replace " " "_" cmd))).
Proof.
  intros Hsub Hcmd. unfold output_path.
  rewrite (truediv_relative out sub) by done.
  rewrite (truediv_relative _ (PyStr.replace " " "_" cmd))
    by (by rewrite startswith_replace).
  simpl. by rewrite <- app_assoc.
Qed.

Lemma split_tokens sep s :
  PyStr.split sep s = first_token sep s :: rest_tokens sep s.
Proof.
  unfold first_token, rest_tokens. pose proof (split_not_nil sep s).
  by destruct (PyStr.split sep s).
Qed.

Lemma first_token_cons sep c s :
  Ascii.eqb c sep = false ->
  first_token sep (String c s) = String c (first_token sep s).
Proof. intros H. unfold first_token. by rewrite split_cons_other. Qed.

Lemma rest_tokens_cons sep c s :
  Ascii.eqb c sep = false ->
  rest_tokens sep (String c s) = rest_tokens sep s.
Proof. intros H. unfold rest_tokens. by rewrite split_cons_other. Qed.

Lemma names_cons c s :
  Ascii.eqb c "/" = false ->
  Ascii.eqb c "." = false ->
  List.filter PathLib.keep_name (PyStr.split "/" (String c s))
  = String c (first_token "/" s)
    :: List.filter PathLib.keep_name (rest_tokens "/" s).
Proof.
  intros H1 H2. rewrite split_tokens, first_token_cons, rest_tokens_cons by done.
  simpl. unfold PathLib.keep_name.
  change (String.eqb (String c (first_token "/" s)) ".")
    with (Ascii.eqb c "." && String.eqb (first_token "/" s) EmptyString).
  by rewrite H2.
Qed.

Lemma under_extend r ns ext :
  ext <> [] ->
  PathLib.under (PathLib.mkPath r ns) (PathLib.mkPath r (ns ++ ext)) = true.
Proof.
  intros H. unfold PathLib.under. simpl.
  rewrite String.eqb_refl, length_app, take_app_length, bool_decide_eq_true_2
    by done.
  destruct ext; [done|]. simpl. rewrite andb_true_r. apply Nat.ltb_lt. lia.
Qed.

Lemma under_differs r r' ns a b l1 l2 :
  a <> b ->
  PathLib.under (PathLib.mkPath r (ns ++ a :: l1))
    (PathLib.mkPath r' (ns ++ b :: l2)) = false.
Proof.
  intros Hab. unfold PathLib.under. simpl.
  rewrite bool_decide_eq_false_2; [by rewrite andb_false_r|].
  intros H. apply (f_equal (fun l => l !! length ns)) in H.
  rewrite (lookup_app_r ns (a :: l1)), Nat.sub_diag in H by lia.
  simpl in H. apply lookup_take_Some in H as [H _].
  rewrite lookup_app_r, Nat.sub_diag in H by lia. simpl in H. congruence.
Qed.

Lemma replace_app o n a b :
  PyStr.replace o n (a +:+ b) = PyStr.replace o n a +:+ PyStr.replace o n b.
Proof.
  induction a as [|c a IH]; [done|]. rewrite append_cons. simpl.
  by rewrite IH, append_cons.
Qed.



Lemma first_token_app L s :
  has_char "/" L = false ->
  first_token "/" (L +:+ s) = L +:+ first_token "/" s
  /\ rest_tokens "/" (L +:+ s) = rest_tokens "/" s.
Proof.
  induction L as [|c L IH]; [done|]. simpl. intros H.
  apply orb_false_iff in H as [Hc HL]. destruct (IH HL) as [IH1 IH2].
  rewrite append_cons, first_token_cons, rest_tokens_cons, IH1, IH2 by done.
  by rewrite append_cons.
Qed.

Lemma names_app L s :
  starts_name L = true ->
  List.filter PathLib.keep_name (PyStr.split "/" (L +:+ s))
  = (L +:+ first_token "/" s)
    :: List.filter PathLib.keep_name (rest_tokens "/" s).
Proof.
  destruct L as [|c L]; [done|]. unfold starts_name. intros H.
  apply andb_true_iff in H as [Hdot Hsep].
  apply negb_true_iff in Hdot, Hsep.
  destruct (first_token_app (String c L) s Hsep) as [H1 H2].
  rewrite append_cons in *. simpl in Hsep.
  apply orb_false_iff in Hsep as [Hc _].
  rewrite names_cons by done.
  rewrite first_token_cons in H1 by done.
  rewrite rest_tokens_cons in H2 by done.
  injection H1 as ->. by rewrite H2.
Qed.



(* ===================================================================== *)
(** ** The three catalogues *)
(* ===================================================================== *)

Ltac each_template H :=
  repeat (destruct H as [<-|H];
          [repeat split; try reflexivity; eexists; reflexivity|]);
  destruct H.

Lemma global_fill kc to tpl :
  In tpl KUBECTL_GLOBAL_CMDS ->
  PyStr.format tpl [] [("kubeconfig_arg", kc); ("timeout", to)]
  = Some (fill tpl [("kubeconfig_arg", kc); ("timeout", to)])
  /\ fill tpl [("kubeconfig_arg", kc); ("timeout", to)]
     = literal_prefix tpl
       +:+ (kc +:+ " --request-timeout " +:+ to +:+ EmptyString)
  /\ starts_name (PyStr.replace " " "_" (literal_prefix tpl)) = true
  /\ exists r, PyStr.replace " " "_" (literal_prefix tpl) = String "k" r.
Proof. intros H. each_template H. Qed.

Lemma namespace_fill kc to ns tpl :
  In tpl KUBECTL_PER_NS_CMDS ->
  PyStr.format tpl []
    [("kubeconfig_arg", kc); ("timeout", to); ("namespace", ns)]
  = Some (fill tpl [("kubeconfig_arg", kc); ("timeout", to);
                    ("namespace", ns)])
  /\ fill tpl [("kubeconfig_arg", kc); ("timeout", to); ("namespace", ns)]
     = literal_prefix tpl
       +:+ (kc +:+ " --request-timeout " +:+ to +:+ " --namespace " +:+ ns
            +:+ EmptyString)
  /\ starts_name (PyStr.replace " " "_" (literal_prefix tpl)) = true
  /\ exists r, PyStr.replace " " "_" (literal_prefix tpl) = String "k" r.
Proof. intros H. each_template H. Qed.

Lemma pod_fill kc to ns pod container tpl :
  In tpl KUBECTL_PER_POD_CMDS ->
  PyStr.format tpl []
    [("kubeconfig_arg", kc); ("timeout", to); ("namespace", ns);
     ("pod", pod); ("container", container)]
  = Some (fill tpl [("kubeconfig_arg", kc); ("timeout", to);
                    ("namespace", ns); ("pod", pod);
                    ("container", container)])
  /\ fill tpl [("kubeconfig_arg", kc); ("timeout", to); ("namespace", ns);
               ("pod", pod); ("container", container)]
     = literal_prefix tpl
       +:+ (kc +:+ " " +:+ pod +:+ " --container " +:+ container
            +:+ " --request-timeout " +:+ to +:+ " --namespace " +:+ ns
            +:+ EmptyString)
  /\ starts_name (PyStr.replace " " "_" (literal_prefix tpl)) = true
  /\ exists r, PyStr.replace " " "_" (literal_prefix tpl) = String "k" r.
Proof. intros H. each_template H. Qed.

Lemma inspection_global kc to tpl :
  In tpl KUBECTL_GLOBAL_CMDS ->
  inspection (fill tpl [("kubeconfig_arg", kc); ("timeout", to)]).
Proof.
  intros Hin. exists tpl, [("kubeconfig_arg", kc); ("timeout", to)].
  split; [apply in_app_iff; by left|]. by apply global_fill.
Qed.

Lemma inspection_namespace kc to ns tpl :
  In tpl KUBECTL_PER_NS_CMDS ->
  inspection (fill tpl [("kubeconfig_arg", kc); ("timeout", to);
                        ("namespace", ns)]).
Proof.
  intros Hin. eexists tpl, _.
  split; [apply in_app_iff; right; apply in_app_iff; by left|].
  by apply namespace_fill.
Qed.

Lemma inspection_pod kc to ns pod container tpl :
  In tpl KUBECTL_PER_POD_CMDS ->
  inspection (fill tpl [("kubeconfig_arg", kc); ("timeout", to);
                        ("namespace", ns); ("pod", pod);
                        ("container", container)]).
Proof.
  intros Hin. eexists tpl, _.
  split; [apply in_app_iff; right; apply in_app_iff; by right|].
  by apply pod_fill.
Qed.

Lemma collapse_names_plain (l : list string) : forall seen,
  Forall (fun n => String.eqb n ".." = false) l ->
  collapse_names seen l = rev seen ++ l.
Proof.
  induction l as [|n l IH]; intros seen H; simpl; [by rewrite app_nil_r|].
  apply Forall_cons in H as [Hn Hl]. rewrite Hn, IH by done.
  simpl. by rewrite <- app_assoc.
Qed.

Lemma collapse_storable p : storable p = true -> collapse p = p.
Proof.
  destruct p as [rt ns]. unfold storable, collapse. simpl. intros H.
  apply andb_true_iff in H as [H _]. f_equal.
  rewrite collapse_names_plain; [done|].
  apply List.Forall_forall. intros n Hn.
  rewrite forallb_forall in H. specialize (H n Hn).
  unfold storable_name in H.
  apply andb_true_iff in H as [H _]. apply andb_true_iff in H as [H _].
  by apply negb_true_iff in H.
Qed.

(** Paths the file system accepts are the files the kernel reaches. *)
Lemma map_collapse_accepted (ps : list PathLib.Path) :
  accepted ps = true -> List.map collapse ps = ps.
Proof.
  unfold accepted. intros H. apply andb_true_iff in H as [H _].
  rewrite forallb_forall in H.
  induction ps as [|p ps IH]; [done|]. simpl.
  rewrite collapse_storable by (apply H; by left).
  f_equal. apply IH. intros q Hq. apply H. by right.
Qed.

(** The path of a command that starts with a literal text. *)
Lemma output_path_shape out sub L T :
  PyStr.startswith "/" sub = false ->
  starts_name (PyStr.replace " " "_" L) = true ->
  output_path out sub (L +:+ T)
  = PathLib.mkPath (PathLib.root out)
      (PathLib.names out
       ++ List.filter PathLib.keep_name (PyStr.split "/" sub)
       ++ (PyStr.replace " " "_" L
           +:+ first_token "/" (PyStr.replace " " "_" T))
          :: List.filter PathLib.keep_name
               (rest_tokens "/" (PyStr.replace " " "_" T))).
Proof.
  intros Hsub HL.
  rewrite output_path_names, replace_app, names_app; try done.
  destruct L as [|c L]; [done|]. rewrite append_cons, startswith_one.
  simpl in HL. by destruct (ascii_dec "/" c) as [<-|].
Qed.



Section Files.

Variables (out : PathLib.Path) (kc to : string).



(** Where the files of the global catalogue lie. *)
Lemma global_files_under :
  Forall (fun p => PathLib.under out p = true
                   /\ PathLib.under (PathLib.truediv out "global") p = true
                   /\ PathLib.under (PathLib.truediv out "namespaces") p
                      = false)
    (global_files out kc to).
Proof.
  unfold global_files. apply List.Forall_forall. intros p Hp.
  apply in_map_iff in Hp as (tpl & <- & Hin).
  destruct (global_fill kc to tpl Hin) as (_ & -> & Hs & r & Hr).
  rewrite output_path_shape by done.
  rewrite !truediv_relative by done.
  change (List.filter PathLib.keep_name (PyStr.split "/" "global"))
    with ["global"].
  change (List.filter PathLib.keep_name (PyStr.split "/" "namespaces"))
    with ["namespaces"].
  destruct out as [rt ns]. simpl PathLib.root. simpl PathLib.names.
  split; [by apply under_extend|]. split.
  - rewrite (assoc_L (++) ns ["global"]). by apply under_extend.
  - simpl. by apply under_differs.
Qed.




End Files.

(* ===================================================================== *)
(** ** The traversal of [main] *)
(* ===================================================================== *)

Section Traversal.

Context {os : OS}.
Implicit Types (s : state os).

Variables (kc to : string) (out : PathLib.Path).

Hypothesis in_time :
  forall cmd w, inspection cmd -> elapsed (os_exec os cmd w).1 <= 60.

Lemma yields_eq {A} (m : M os A) a ps qs :
  yields m a ps -> ps = qs -> yields m a qs.
Proof. by intros H <-. Qed.

Lemma yields_global_loop :
  yields
    (for_list os KUBECTL_GLOBAL_CMDS (fun cmd =>
       c ← fmt os cmd [] [("kubeconfig_arg", kc); ("timeout", to)];
       run_cmd os c "global" out))
    tt (global_files out kc to).
Proof.
  eapply yields_eq.
  - apply (yields_for_list _ _ (fun tpl =>
      [] ++ [output_path out "global"
               (fill tpl [("kubeconfig_arg", kc); ("timeout", to)])])).
    intros tpl Hin. eapply yields_bind.
    + apply yields_fmt. by apply global_fill.
    + apply yields_run_cmd. intros w. apply in_time.
      by apply inspection_global.
  - reflexivity.
Qed.





End Traversal.

Section WholeRun.

Context {os : OS}.
Implicit Types (s : state os).

(** A run whose namespace listing returns [nl] and whose traversal
    creates the files [ps] in a fresh temporary directory: it returns, and
    the tree it archives holds exactly [ps]. *)
Lemma main_creates kubeconfig timeout cwd tmp_dir s nl ps :
  (get_kubectl_list os "namespaces" (kubeconfig_flag cwd kubeconfig)
     (timeout_arg timeout) None EmptyString DEFAULT_JSONPATH s).1
  = Return nl ->
  yields (traverse os (kubeconfig_flag cwd kubeconfig) (timeout_arg timeout)
            nl (PathLib.parse tmp_dir)) tt ps ->
  (forall p, p ∈ dom (fs os s) ->
     PathLib.under (PathLib.parse tmp_dir) p = false) ->
  Forall (fun p => PathLib.under (PathLib.parse tmp_dir) p = true) ps ->
  exists ev file arcname tree,
    (main os kubeconfig timeout cwd tmp_dir s).1 = Return tt
    /\ trace os (main os kubeconfig timeout cwd tmp_dir s).2
       = trace os s ++ ev
    /\ opened ev = ps
    /\ In (EvArchive file arcname tree) ev
    /\ dom tree = list_to_set ps.
Proof.
  intros Hnl Hy Hfresh Hunder. rewrite main_run, bind_run.
  destruct (get_kubectl_list_general "namespaces"
              (kubeconfig_flag cwd kubeconfig) (timeout_arg timeout) None
              EmptyString DEFAULT_JSONPATH s)
    as (ev0 & Htr0 & _ & _ & Hop0 & Hfs0 & _).
  destruct (get_kubectl_list os "namespaces" _ _ None _ _ s) as [r s1].
  simpl in Hnl, Htr0, Hfs0. subst r.
  unfold with_tempdir. rewrite bind_run.
  destruct (Hy s1) as (s2 & ev1 & -> & Htr1 & Hop1 & Hdom1).
  unfold package. simpl.
  eexists (ev0 ++ ev1 ++ [_; _]), _, _, _.
  split; [reflexivity|]. split; [by rewrite Htr1, Htr0, <- !app_assoc|].
  split; [rewrite !opened_app, Hop0, Hop1; simpl; by rewrite app_nil_r|].
  split; [rewrite !in_app_iff; right; right; by left|].
  apply dom_filter_L. intros p. rewrite elem_of_list_to_set. split.
  - intros Hp. assert (Hin : p ∈ dom (fs os s2))
      by (rewrite Hdom1, elem_of_union, elem_of_list_to_set; by left).
    apply elem_of_dom in Hin as [x Hx]. exists x. split; [done|].
    simpl. rewrite Forall_forall in Hunder. by apply Hunder.
  - intros (x & Hx & Hu). simpl in Hu.
    assert (Hin : p ∈ dom (fs os s2)) by (apply elem_of_dom; eauto).
    rewrite Hdom1, elem_of_union, elem_of_list_to_set in Hin.
    destruct Hin as [Hin|Hin]; [done|].
    rewrite Hfs0 in Hin. apply Hfresh in Hin. congruence.
Qed.

End WholeRun.




(* ===================================================================== *)
(** ** Paths and the strings that name them *)
(* ===================================================================== *)

(** Files are kept by their parsed path; the operating system is given
    [str] of it.  On the paths the script can build the two agree: [str]
    is injective there. *)

Lemma split_no_sep sep s :
  has_char sep s = false -> PyStr.split sep s = [s].
Proof.
  induction s as [|c s IH]; [done|]. simpl. intros H.
  apply orb_false_iff in H as [Hc Hs]. by rewrite Hc, IH.
Qed.

Lemma split_tokens_no_sep sep s :
  Forall (fun t => has_char sep t = false) (PyStr.split sep s).
Proof.
  induction s as [|c s IH]; [by repeat constructor|]. simpl.
  destruct (Ascii.eqb c sep) eqn:E; [by constructor|].
  pose proof (split_not_nil sep s).
  destruct (PyStr.split sep s) as [|h t]; [done|].
  apply Forall_cons in IH as [Hh Ht]. constructor; [|done].
  simpl. by rewrite E, Hh.
Qed.

Lemma split_join (l : list string) :
  l <> [] -> Forall (fun t => has_char "/" t = false) l ->
  PyStr.split "/" (PyStr.join "/" l) = l.
Proof.
  induction l as [|x l IH]; [done|]. intros _ H.
  apply Forall_cons in H as [Hx Hl].
  destruct l as [|y l]; [by apply split_no_sep|].
  change (PyStr.join "/" (x :: y :: l))
    with (x +:+ String "/" (PyStr.join "/" (y :: l))).
  by rewrite split_app_sep, split_no_sep, IH.
Qed.

Lemma parse_well_formed s : well_formed (PathLib.parse s).
Proof.
  unfold well_formed, PathLib.parse. split.
  - unfold PathLib.splitroot. destruct s as [|c s]; [by left|].
    destruct c as [[] [] [] [] [] [] [] []]; simpl; auto.
    destruct (_ =? _)%nat; simpl; auto.
  - destruct (PathLib.splitroot s) as [rt rel]. simpl.
    pose proof (split_tokens_no_sep "/" rel) as H.
    induction H as [|t l Ht Hl IH]; [constructor|]. simpl.
    destruct (PathLib.keep_name t) eqn:E; [|done]. constructor; [|done].
    unfold PathLib.keep_name in E. apply andb_true_iff in E as [E1 E2].
    apply negb_true_iff in E1, E2. apply String.eqb_neq in E1, E2. done.
Qed.

Lemma join_well_formed p q :
  well_formed p -> well_formed q -> well_formed (PathLib.join p q).
Proof.
  intros [Hp1 Hp2] [Hq1 Hq2]. unfold PathLib.join.
  destruct (PathLib.is_absolute q); [done|]. split; [done|].
  simpl. by apply Forall_app.
Qed.

Lemma output_path_well_formed out sub cmd :
  well_formed out -> well_formed (output_path out sub cmd).
Proof.
  intros H. unfold output_path, PathLib.truediv.
  auto using join_well_formed, parse_well_formed.
Qed.

Lemma join_names_head (l : list string) :
  Forall good_name l -> PyStr.startswith "/" (PyStr.join "/" l) = false.
Proof.
  destruct l as [|x l]; [done|]. intros H.
  apply Forall_cons in H as [(Hne & _ & Hx) _].
  destruct x as [|c x]; [done|]. simpl in Hx.
  apply orb_false_iff in Hx as [Hc _].
  assert (Hs : forall r, PyStr.startswith "/" (String c r) = false).
  { intros r. rewrite startswith_one.
    destruct (ascii_dec "/" c) as [<-|]; [done|done]. }
  destruct l as [|y l]; [apply Hs|].
  change (PyStr.join "/" (String c x :: y :: l))
    with (String c x +:+ "/" +:+ PyStr.join "/" (y :: l)).
  rewrite append_cons. apply Hs.
Qed.

Lemma join_names_inj (l1 l2 : list string) :
  Forall good_name l1 -> Forall good_name l2 ->
  PyStr.join "/" l1 = PyStr.join "/" l2 -> l1 = l2.
Proof.
  intros H1 H2 H.
  assert (Hne : forall l, Forall good_name l -> l <> [] ->
                PyStr.join "/" l <> EmptyString).
  { intros [|x [|y l]] Hl Hn; [done| |].
    - apply Forall_cons in Hl as [(Hx & _) _]. done.
    - apply Forall_cons in Hl as [(Hx & _) _].
      change (PyStr.join "/" (x :: y :: l))
        with (x +:+ "/" +:+ PyStr.join "/" (y :: l)).
      destruct x; [done|]. by rewrite append_cons. }
  assert (Hs : forall l, Forall good_name l ->
               Forall (fun t => has_char "/" t = false) l).
  { intros l Hl. eapply Forall_impl; [exact Hl|]. by intros t (_ & _ & Ht). }
  destruct l1 as [|x1 l1], l2 as [|x2 l2]; [done| | |].
  - symmetry in H. by apply Hne in H.
  - by apply Hne in H.
  - rewrite <- (split_join (x1 :: l1)), <- (split_join (x2 :: l2)), H; auto.
Qed.

Lemma root_app_inj r1 r2 j1 j2 :
  (r1 = EmptyString \/ r1 = "/" \/ r1 = "//") ->
  (r2 = EmptyString \/ r2 = "/" \/ r2 = "//") ->
  PyStr.startswith "/" j1 = false ->
  PyStr.startswith "/" j2 = false ->
  r1 +:+ j1 = r2 +:+ j2 -> r1 = r2 /\ j1 = j2.
Proof.
  assert (Hs : forall j, PyStr.startswith "/" (String "/" j) = false -> False).
  { intros j. rewrite startswith_one. by destruct (ascii_dec "/" "/"). }
  intros [-> | [-> | ->]] [-> | [-> | ->]] H1 H2 H;
    rewrite ?append_nil_l, ?append_cons, ?append_nil_l in H;
    try (split; [reflexivity|congruence]); exfalso;
    try (injection H as H); subst; eauto.
Qed.

Lemma str_inj p q :
  well_formed p -> well_formed q -> PathLib.str p = PathLib.str q -> p = q.
Proof.
  destruct p as [r1 n1], q as [r2 n2]. intros [Hr1 Hn1] [Hr2 Hn2].
  simpl in Hr1, Hn1, Hr2, Hn2.
  pose proof (join_names_head n1 Hn1) as Hh1.
  pose proof (join_names_head n2 Hn2) as Hh2.
  assert (Hdot : forall n, Forall good_name n -> PyStr.join "/" n <> ".").
  { intros n Hn Hj.
    assert (Hs : PyStr.split "/" (PyStr.join "/" n) = ["."])
      by (by rewrite Hj).
    destruct n as [|x n]; [done|].
    rewrite split_join in Hs; [| done |].
    - injection Hs as Hx _. apply Forall_cons in Hn as [(_ & Hx' & _) _]. done.
    - eapply Forall_impl; [exact Hn|]. by intros t (_ & _ & Ht). }
  assert (Hstr : forall r n,
    (r = EmptyString \/ r = "/" \/ r = "//") ->
    PathLib.str (PathLib.mkPath r n)
    = match r, n with
      | EmptyString, [] => "."
      | _, _ => r +:+ PyStr.join "/" n
      end).
  { intros r n [-> | [-> | ->]]; by destruct n. }
  rewrite !Hstr by done. intros H.
  assert (Hcase : r1 +:+ PyStr.join "/" n1 = r2 +:+ PyStr.join "/" n2).
  { destruct Hr1 as [-> | [-> | ->]], Hr2 as [-> | [-> | ->]];
      destruct n1 as [|a1 n1], n2 as [|a2 n2]; try done;
      rewrite ?append_nil_l, ?append_cons in H; try discriminate H.
    - symmetry in H. by apply Hdot in H.
    - by apply Hdot in H. }
  destruct (root_app_inj r1 r2 _ _ Hr1 Hr2 Hh1 Hh2 Hcase) as [-> Hj].
  f_equal. by apply join_names_inj.
Qed.

(* ===================================================================== *)
(** ** The schedule of the listing loop *)
(* ===================================================================== *)

Section ListerSchedule.

Context {os : OS}.
Implicit Types (s : state os) (cmd : string).

(** [k] failures, then a success: what the trace shows. *)
Lemma list_loop_schedule_ok cmd k : forall fuel t c s,
  c + Z.of_nat k <= BACKOFF_LIMIT ->
  (k < fuel)%nat ->
  nonzero_before os cmd t k (world os s) ->
  exit_status (attempt_at os cmd t k (world os s)) = 0 ->
  exists ev,
    trace os (get_kubectl_list_loop os fuel cmd t c s).2 = trace os s ++ ev
    /\ spawned ev = replicate (S k) (cmd, None)
    /\ slept ev = pauses t k
    /\ last (printed ev) = Some MsgDone.
Proof.
  induction k as [|k IH]; intros fuel t c s Hc Hfuel Hfail Hx;
    (destruct fuel as [|fuel]; [lia|]).
  - unfold attempt_at in Hx. simpl in Hx.
    rewrite list_loop_success by (done || lia).
    eexists. split; [reflexivity|]. done.
  - apply nonzero_before_S in Hfail as [Hx0 Hfail].
    rewrite list_loop_failure by (done || lia).
    destruct (IH fuel (t * 2) (c + 1)
                (mkState os (os_sleep os t (os_exec os cmd (world os s)).2)
                   (fs os s)
                   (trace os s ++
                    [EvSpawn cmd None;
                     EvPrint (MsgRetry t (Some (text_of (Some Stderr)
                                (output (os_exec os cmd (world os s)).1))));
                     EvSleep t])))
      as (ev & Htr & Hsp & Hsl & Hpr); simpl; try done; try lia.
    cbn [trace] in Htr. rewrite Htr, <- app_assoc.
    eexists. split; [reflexivity|].
    rewrite spawned_app, slept_app, printed_app, Hsp, Hsl. simpl.
    repeat split. destruct (printed ev); [done|]. exact Hpr.
Qed.

(** Nothing but failures: what the trace shows.  The pause after the
    last failure is taken although no attempt follows it. *)
Lemma list_loop_schedule_fail cmd n : forall fuel t c s,
  c + Z.of_nat n = BACKOFF_LIMIT + 1 ->
  (n < fuel)%nat ->
  nonzero_before os cmd t n (world os s) ->
  exists ev,
    get_kubectl_list_loop os fuel cmd t c s
    = (Return None,
       mkState os (attempt_world os cmd t n (world os s)) (fs os s)
         (trace os s ++ ev))
    /\ spawned ev = replicate n (cmd, None)
    /\ slept ev = pauses t n
    /\ match n with
       | O => ev = [EvPrint MsgFail]
       | S m => exists pre,
           ev = pre ++ [EvSleep (t * 2 ^ Z.of_nat m); EvPrint MsgFail]
       end.
Proof.
  induction n as [|n IH]; intros fuel t c s Hc Hfuel Hfail;
    (destruct fuel as [|fuel]; [lia|]).
  - rewrite list_loop_exhausted by lia.
    eexists. split; [reflexivity|]. repeat split; try done.
  - apply nonzero_before_S in Hfail as [Hx0 Hfail].
    rewrite list_loop_failure by (done || lia).
    destruct (IH fuel (t * 2) (c + 1)
                (mkState os (os_sleep os t (os_exec os cmd (world os s)).2)
                   (fs os s)
                   (trace os s ++
                    [EvSpawn cmd None;
                     EvPrint (MsgRetry t (Some (text_of (Some Stderr)
                                (output (os_exec os cmd (world os s)).1))));
                     EvSleep t])))
      as (ev & -> & Hsp & Hsl & Hend); simpl; try done; try lia.
    cbn [trace world fs]. rewrite <- app_assoc.
    eexists. split; [reflexivity|].
    rewrite spawned_app, slept_app, Hsp, Hsl. simpl.
    split; [done|]. split; [done|].
    destruct n as [|n].
    + subst ev. eexists [_; _].
      change (2 ^ Z.of_nat 0) with 1. by rewrite Z.mul_1_r.
    + destruct Hend as [pre ->]. eexists (_ :: _ :: _ :: pre).
      rewrite (Nat2Z.inj_succ n), Z.pow_succ_r by lia.
      replace (t * (2 * 2 ^ Z.of_nat n)) with (t * 2 * 2 ^ Z.of_nat n) by lia.
      reflexivity.
Qed.

(** Whatever the world does, the loop starts at most as many commands as
    the counter still allows. *)
Lemma list_loop_attempts cmd fuel t c s :
  exists ev,
    trace os (get_kubectl_list_loop os fuel cmd t c s).2 = trace os s ++ ev
    /\ Z.of_nat (length (spawned ev)) <= Z.max 0 (BACKOFF_LIMIT + 1 - c).
Proof.
  revert fuel t c s.
  apply (list_loop_cases cmd (fun _ t c s r =>
    exists ev, trace os r.2 = trace os s ++ ev
      /\ Z.of_nat (length (spawned ev)) <= Z.max 0 (BACKOFF_LIMIT + 1 - c)));
    unfold BACKOFF_LIMIT.
  - intros t c s. exists []. simpl. rewrite app_nil_r. split; [done|lia].
  - intros _ t c s Hc. eexists. split; [reflexivity|]. simpl. lia.
  - intros _ t c s Hc Hx. eexists. split; [reflexivity|]. simpl. lia.
  - intros _ t c s r Hc Hx (ev & Htr & Hn). simpl in Htr.
    eexists. split.
    + rewrite Htr, <- app_assoc. reflexivity.
    + rewrite spawned_app, length_app. simpl. lia.
Qed.

End ListerSchedule.

(** X1.  [get_kubectl_list] retries like [run_cmd]: it starts its query at
    most five times, whatever happens.  If the first [k <= 4] attempts exit
    with a non-zero status and the next one exits with status 0, it has
    started the same query [k + 1] times, with no timeout, paused
    [1, 2, ..., 2^(k-1)] in between, and printed DONE last.  If five
    attempts exit with a non-zero status, it returns [None] after five
    starts and the pauses [1, 2, 4, 8, 16]: the pause of 16 after the
    fifth failure is taken although nothing follows it but the FAIL
    line. *)
Theorem X1_listing_retry_schedule (os : OS) (ot kc to : string)
    (ns : option string) (on jp : string) (s : state os) (k : nat) :
  let cmd := listing_command ot kc to ns on jp in
  exists ev,
    trace os (get_kubectl_list os ot kc to ns on jp s).2 = trace os s ++ ev
    /\ (length (spawned ev) <= 5)%nat
    /\ ((k <= 4)%nat ->
        nonzero_before os cmd 1 k (world os s) ->
        exit_status (attempt os cmd k (world os s)) = 0 ->
        spawned ev = replicate (S k) (cmd, None)
        /\ slept ev = pauses 1 k
        /\ total (slept ev) = 2 ^ Z.of_nat k - 1
        /\ last (printed ev) = Some MsgDone)
    /\ (nonzero_before os cmd 1 5 (world os s) ->
        (get_kubectl_list os ot kc to ns on jp s).1 = Return None
        /\ spawned ev = replicate 5 (cmd, None)
        /\ slept ev = [1; 2; 4; 8; 16]
        /\ total (slept ev) = 31
        /\ exists pre, ev = pre ++ [EvSleep 16; EvPrint MsgFail]).
Proof.
  intros cmd. rewrite get_kubectl_list_run. fold cmd.
  set (s0 := mkState os (world os s) (fs os s)
               (trace os s ++ [EvPrint (MsgExecuting cmd)])).
  destruct (list_loop_attempts cmd LOOP_FUEL 1 0 s0) as (ev & Htr & Hn).
  exists (EvPrint (MsgExecuting cmd) :: ev).
  split; [rewrite Htr; unfold s0; cbn [trace]; by rewrite <- app_assoc|].
  split; [unfold BACKOFF_LIMIT in Hn; simpl; lia|]. split.
  - intros Hk Hfail Hx.
    destruct (list_loop_schedule_ok cmd k LOOP_FUEL 1 0 s0)
      as (ev' & Htr' & Hsp & Hsl & Hpr); try done.
    { unfold BACKOFF_LIMIT. lia. }
    { rewrite LOOP_FUEL_eq. lia. }
    rewrite Htr in Htr'. apply app_inv_head in Htr'. subst ev'.
    simpl. rewrite Hsp, Hsl, total_pauses.
    repeat split; [lia|]. destruct (printed ev); [done|exact Hpr].
  - intros Hfail.
    destruct (list_loop_schedule_fail cmd 5 LOOP_FUEL 1 0 s0)
      as (ev' & Hrun & Hsp & Hsl & pre & Hend); try done.
    { rewrite LOOP_FUEL_eq. lia. }
    rewrite Hrun in Htr |- *. cbn [trace snd] in Htr.
    apply app_inv_head in Htr. subst ev'.
    simpl. rewrite Hsp, Hsl. repeat split.
    exists (EvPrint (MsgExecuting cmd) :: pre). by rewrite Hend.
Qed.

(** One refusal, then an answer: two starts and a pause of 1.  Five
    refusals: [None] after pauses of 31 in all. *)
Lemma X1_listing_retry_schedule_witness :
  (let s := Worlds.start Worlds.scripted
              [Worlds.ko "refused"; Worlds.ok "default"] in
   exists ev,
     trace _ (get_kubectl_list Worlds.scripted "namespaces" "" "15s" None ""
                DEFAULT_JSONPATH s).2 = trace _ s ++ ev
     /\ length (spawned ev) = 2%nat
     /\ slept ev = [1]
     /\ last (printed ev) = Some MsgDone)
  /\
  (let s := Worlds.start Worlds.unreachable tt in
   exists ev,
     trace _ (get_kubectl_list Worlds.unreachable "namespaces" "" "15s" None
                "" DEFAULT_JSONPATH s).2 = trace _ s ++ ev
     /\ (get_kubectl_list Worlds.unreachable "namespaces" "" "15s" None ""
           DEFAULT_JSONPATH s).1 = Return None
     /\ total (slept ev) = 31).
Proof.
  split.
  - intros s.
    destruct (X1_listing_retry_schedule Worlds.scripted "namespaces" "" "15s"
                None "" DEFAULT_JSONPATH s 1) as (ev & Htr & _ & H & _).
    exists ev. split; [exact Htr|].
    destruct H as (Hsp & Hsl & _ & Hpr).
    + lia.
    + intros i Hi. destruct i as [|i]; [discriminate|lia].
    + reflexivity.
    + rewrite Hsp. repeat split; assumption.
  - intros s.
    destruct (X1_listing_retry_schedule Worlds.unreachable "namespaces" ""
                "15s" None "" DEFAULT_JSONPATH s 0) as (ev & Htr & _ & _ & H).
    exists ev. split; [exact Htr|].
    destruct H as (Hr & _ & _ & Ht & _).
    + intros i Hi. discriminate.
    + split; assumption.
Defined.

(* ===================================================================== *)
(** ** Everything a call of [run_cmd] or [get_kubectl_list] does *)
(* ===================================================================== *)

Section Effects.

Context {os : OS}.
Implicit Types (s : state os) (cmd sub : string) (out f : PathLib.Path).

Lemma run_cmd_loop_events cmd f fuel t c s :
  exists ev,
    trace os (run_cmd_loop os fuel cmd f t c s).2 = trace os s ++ ev
    /\ Forall (run_cmd_event cmd f) ev.
Proof.
  revert fuel t c s.
  apply (run_cmd_loop_cases cmd f (fun _ t c s r =>
    exists ev, trace os r.2 = trace os s ++ ev
      /\ Forall (run_cmd_event cmd f) ev)).
  - intros t c s. exists []. simpl. by rewrite app_nil_r.
  - intros _ t c s Hc. eexists. split; [reflexivity|]. repeat constructor.
  - intros _ t c s Hc He. eexists. split; [reflexivity|]. repeat constructor.
  - intros _ t c s Hc He Hx. eexists. split; [reflexivity|].
    repeat constructor.
  - intros _ t c s r Hc He Hx (ev & Htr & Hev).
    simpl in Htr. eexists. split.
    + rewrite Htr, <- app_assoc. reflexivity.
    + apply Forall_app. split; [repeat constructor|done].
Qed.

Lemma emits_run_cmd_events cmd sub out :
  emits (run_cmd_event cmd (output_path out sub cmd)) (run_cmd os cmd sub out).
Proof.
  intros s. rewrite run_cmd_run.
  edestruct (run_cmd_loop_events cmd (output_path out sub cmd) LOOP_FUEL 1 0)
    as (ev & Htr & Hev).
  rewrite Htr. simpl. eexists. split; [by rewrite <- app_assoc|].
  apply Forall_app. split; [repeat constructor|done].
Qed.

Lemma list_loop_events cmd fuel t c s :
  exists ev,
    trace os (get_kubectl_list_loop os fuel cmd t c s).2 = trace os s ++ ev
    /\ Forall (listing_event cmd) ev.
Proof.
  revert fuel t c s.
  apply (list_loop_cases cmd (fun _ t c s r =>
    exists ev, trace os r.2 = trace os s ++ ev
      /\ Forall (listing_event cmd) ev)).
  - intros t c s. exists []. simpl. by rewrite app_nil_r.
  - intros _ t c s Hc. eexists. split; [reflexivity|]. repeat constructor.
  - intros _ t c s Hc Hx. eexists. split; [reflexivity|]. repeat constructor.
  - intros _ t c s r Hc Hx (ev & Htr & Hev).
    simpl in Htr. eexists. split.
    + rewrite Htr, <- app_assoc. reflexivity.
    + apply Forall_app. split; [repeat constructor|done].
Qed.

Lemma emits_listing_events ot kc to ns on jp :
  emits (listing_event (listing_command ot kc to ns on jp))
    (get_kubectl_list os ot kc to ns on jp).
Proof.
  intros s. rewrite get_kubectl_list_run.
  edestruct (list_loop_events (listing_command ot kc to ns on jp)
               LOOP_FUEL 1 0) as (ev & Htr & Hev).
  rewrite Htr. simpl. eexists. split; [by rewrite <- app_assoc|].
  apply Forall_app. split; [repeat constructor|done].
Qed.

End Effects.

(** X2.  Whatever the cluster does, every effect of one call of [run_cmd]
    is one of: creating the parent directory of its output file, the
    Executing line, opening that file, starting its own command under the
    hard timeout of 60, a retry line, a pause, the DONE line, the FAIL
    line.  Every retry line reports the error output [None]: the command's
    error text goes to the file, never to the console. *)
Theorem X2_run_cmd_effects (os : OS) (cmd sub : string) (out : PathLib.Path)
    (s : state os) :
  exists ev,
    trace os (run_cmd os cmd sub out s).2 = trace os s ++ ev
    /\ Forall (run_cmd_event cmd (output_path out sub cmd)) ev
    /\ Forall (fun m => match m with
                        | MsgRetry _ err => err = None
                        | MsgCreated _ => False
                        | _ => True
                        end) (printed ev)
    /\ Forall (fun e => is_archive e = false) ev.
Proof.
  destruct (emits_run_cmd_events (os:=os) cmd sub out s) as (ev & Htr & Hev).
  exists ev. split; [done|]. split; [done|]. split.
  - clear Htr. induction Hev as [|e ev He Hev IH]; [constructor|].
    destruct He; simpl; try done; by constructor.
  - eapply Forall_impl; [exact Hev|]. by intros e [].
Qed.

(** X3.  Whatever the cluster does, every effect of one call of
    [get_kubectl_list] is one of: the Executing line, starting its own
    query with no timeout, a retry line that carries the captured error
    output, a pause, the DONE line, the FAIL line.  The call creates no
    directory, opens no file and leaves every file as it was. *)
Theorem X3_listing_effects (os : OS) (ot kc to : string)
    (ns : option string) (on jp : string) (s : state os) :
  (exists ev,
     trace os (get_kubectl_list os ot kc to ns on jp s).2 = trace os s ++ ev
     /\ Forall (listing_event (listing_command ot kc to ns on jp)) ev
     /\ opened ev = []
     /\ Forall (fun e => match e with
                         | EvMkdir _ | EvOpen _ | EvArchive _ _ _ => False
                         | _ => True
                         end) ev)
  /\ fs os (get_kubectl_list os ot kc to ns on jp s).2 = fs os s.
Proof.
  split.
  - destruct (emits_listing_events (os:=os) ot kc to ns on jp s)
      as (ev & Htr & Hev).
    exists ev. split; [done|]. split; [done|]. split.
    + clear Htr. induction Hev as [|e ev He Hev IH]; [done|].
      by destruct He.
    + eapply Forall_impl; [exact Hev|]. by intros e [].
  - by destruct (get_kubectl_list_general (os:=os) ot kc to ns on jp s)
      as (ev & _ & _ & _ & _ & Hfs & _).
Qed.

(** X4.  When its command exits with a non-zero status five times (within
    the hard timeout), [run_cmd] does exactly this, in this order: create
    the parent directory, print the Executing line, open the file, then
    five times start the command, print a retry line and pause, for 1, 2,
    4, 8 and 16 time units, then print FAIL and return.  The pause of 16
    after the fifth failure is taken although no attempt follows: such a
    command costs 31 time units of pauses. *)
Theorem X4_run_cmd_gives_up_after_last_pause (os : OS) (cmd sub : string)
    (out : PathLib.Path) (s : state os) :
  fails_before os cmd 1 5 (world os s) ->
  let p := output_path out sub cmd in
  (run_cmd os cmd sub out s).1 = Return tt
  /\ trace os (run_cmd os cmd sub out s).2
     = trace os s ++
       [EvMkdir (PathLib.parent p); EvPrint (MsgExecuting cmd); EvOpen p;
        EvSpawn cmd (Some 60); EvPrint (MsgRetry 1 None); EvSleep 1;
        EvSpawn cmd (Some 60); EvPrint (MsgRetry 2 None); EvSleep 2;
        EvSpawn cmd (Some 60); EvPrint (MsgRetry 4 None); EvSleep 4;
        EvSpawn cmd (Some 60); EvPrint (MsgRetry 8 None); EvSleep 8;
        EvSpawn cmd (Some 60); EvPrint (MsgRetry 16 None); EvSleep 16;
        EvPrint MsgFail]
  /\ total (slept (drop (length (trace os s))
                     (trace os (run_cmd os cmd sub out s).2))) = 31.
Proof.
  intros Hfail p. rewrite (run_cmd_all_fail cmd sub out s Hfail).
  split; [reflexivity|]. split; [reflexivity|].
  cbn [trace snd]. by rewrite drop_app_length.
Qed.

(** A cluster that refuses every command. *)
Lemma X4_run_cmd_gives_up_after_last_pause_witness :
  slept (trace _ (run_cmd Worlds.unreachable "kubectl version" "global"
                    (PathLib.parse "/tmp/snap")
                    (Worlds.start Worlds.unreachable tt)).2)
  = [1; 2; 4; 8; 16].
Proof.
  destruct (X4_run_cmd_gives_up_after_last_pause Worlds.unreachable
              "kubectl version" "global" (PathLib.parse "/tmp/snap")
              (Worlds.start Worlds.unreachable tt)) as (_ & Htr & _).
  - intros i Hi. split; [discriminate|simpl; lia].
  - rewrite Htr. reflexivity.
Defined.

(* ===================================================================== *)
(** ** Listings of well-behaved names *)
(* ===================================================================== *)

Lemma lstrip_blank_app w s :
  blank w = true -> PyStr.lstrip (w +:+ s) = PyStr.lstrip s.
Proof.
  induction w as [|c w IH]; [done|]. intros H.
  apply andb_true_iff in H as [Hc Hw].
  rewrite append_cons. simpl. rewrite Hc. by apply IH.
Qed.

Lemma rstrip_blank w : blank w = true -> PyStr.rstrip w = EmptyString.
Proof.
  induction w as [|c w IH]; [done|]. intros H.
  apply andb_true_iff in H as [Hc Hw]. simpl. by rewrite IH, Hc.
Qed.

Lemma rstrip_app_blank s w :
  blank w = true -> PyStr.rstrip (s +:+ w) = PyStr.rstrip s.
Proof.
  intros Hw. induction s as [|c s IH]; [by apply rstrip_blank|].
  rewrite append_cons. simpl. by rewrite IH.
Qed.

Lemma rstrip_app_fixed a b :
  PyStr.rstrip b = b -> b <> EmptyString -> PyStr.rstrip (a +:+ b) = a +:+ b.
Proof.
  intros Hb Hne. induction a as [|c a IH]; [done|].
  rewrite append_cons. simpl. rewrite IH.
  destruct (a +:+ b) eqn:E; [|done].
  destruct a; [by rewrite append_nil_l in E | by rewrite append_cons in E].
Qed.

Lemma rstrip_token t :
  all_chars (fun c => negb (PyStr.isspace c)) t = true -> PyStr.rstrip t = t.
Proof.
  induction t as [|c t IH]; [done|]. intros H.
  apply andb_true_iff in H as [Hc Ht]. apply negb_true_iff in Hc.
  simpl. rewrite IH by done. destruct t; [by rewrite Hc|done].
Qed.

Lemma token_no_space t :
  all_chars (fun c => negb (PyStr.isspace c)) t = true ->
  has_char " " t = false.
Proof.
  induction t as [|c t IH]; [done|]. intros H.
  apply andb_true_iff in H as [Hc Ht]. simpl. rewrite IH by done.
  rewrite orb_false_r. destruct (Ascii.eqb c " ") eqn:E; [|done].
  apply Ascii.eqb_eq in E. by subst c.
Qed.

Lemma split_join_sep sep (l : list string) :
  l <> [] -> Forall (fun t => has_char sep t = false) l ->
  PyStr.split sep (PyStr.join (String sep EmptyString) l) = l.
Proof.
  induction l as [|x l IH]; [done|]. intros _ H.
  apply Forall_cons in H as [Hx Hl].
  destruct l as [|y l]; [by apply split_no_sep|].
  change (PyStr.join (String sep EmptyString) (x :: y :: l))
    with (x +:+ String sep (PyStr.join (String sep EmptyString) (y :: l))).
  by rewrite split_app_sep, split_no_sep, IH.
Qed.

(** A non-empty list of names, joined by single spaces, starts and ends
    with a character that is not whitespace. *)
Lemma join_tokens (l : list string) :
  l <> [] -> Forall (fun t => name_token t = true) l ->
  PyStr.rstrip (PyStr.join " " l) = PyStr.join " " l
  /\ exists c r, PyStr.join " " l = String c r /\ PyStr.isspace c = false.
Proof.
  induction l as [|x l IH]; [done|]. intros _ H.
  apply Forall_cons in H as [Hx Hl].
  apply andb_true_iff in Hx as [Hne Hx]. apply negb_true_iff in Hne.
  destruct x as [|c x]; [done|].
  pose proof Hx as Hc. apply andb_true_iff in Hc as [Hc _].
  apply negb_true_iff in Hc.
  destruct l as [|y l].
  - split; [by apply rstrip_token|]. by exists c, x.
  - destruct IH as [IH1 (d & r & IH2 & _)]; [done|done|].
    change (PyStr.join " " (String c x :: y :: l))
      with (String c x +:+ " " +:+ PyStr.join " " (y :: l)).
    split.
    + rewrite <- append_assoc. apply rstrip_app_fixed; [done|].
      by rewrite IH2.
    + rewrite append_cons. eauto.
Qed.

Lemma contains_tokens (l : list string) :
  Forall (fun t => name_token t = true) l ->
  PyStr.contains EmptyString l = false.
Proof.
  unfold PyStr.contains. induction 1 as [|x l Hx Hl IH]; [done|].
  apply andb_true_iff in Hx as [Hne _].
  destruct x as [|c x]; [done|]. exact IH.
Qed.

(** X5.  A listing reads back the names the cluster prints: when the
    standard output consists of names, none empty and none with whitespace
    in it, separated by single spaces, with any whitespace before and
    after (a final newline, say), [parse_list] returns exactly these names,
    in order; whitespace alone gives the empty list. *)
Theorem X5_parse_list_reads_back_names (w1 w2 : string) (l : list string) :
  blank w1 = true -> blank w2 = true ->
  Forall (fun t => name_token t = true) l ->
  parse_list (w1 +:+ PyStr.join " " l +:+ w2) = l.
Proof.
  intros H1 H2 Hl. unfold parse_list, PyStr.strip.
  rewrite lstrip_blank_app by done.
  destruct l as [|x l].
  - rewrite append_nil_l.
    replace (PyStr.lstrip w2) with (PyStr.lstrip (w2 +:+ EmptyString))
      by (by rewrite append_nil_r).
    rewrite lstrip_blank_app by done. reflexivity.
  - destruct (join_tokens (x :: l)) as [Hr (c & r & Hj & Hc)]; [done|done|].
    assert (Hls : PyStr.lstrip (PyStr.join " " (x :: l) +:+ w2)
                  = PyStr.join " " (x :: l) +:+ w2).
    { rewrite Hj, append_cons. simpl. by rewrite Hc. }
    rewrite Hls, rstrip_app_blank, Hr by done.
    rewrite (split_join_sep " " (x :: l)); [|done|].
    + by rewrite contains_tokens.
    + eapply Forall_impl; [exact Hl|]. intros t Ht.
      apply andb_true_iff in Ht as [_ Ht]. by apply token_no_space.
Qed.

(** Two namespaces between a leading tab and a final newline. *)
Lemma X5_parse_list_reads_back_names_witness :
  parse_list (String "009" EmptyString +:+ PyStr.join " " ["default"; "kube-system"]
              +:+ String "010" EmptyString)
  = ["default"; "kube-system"].
Proof.
  apply (X5_parse_list_reads_back_names (String "009" EmptyString)
           (String "010" EmptyString) ["default"; "kube-system"]);
    [reflexivity|reflexivity|].
  repeat constructor.
Defined.

(* ===================================================================== *)
(** ** The query of a listing, and where slashes put an output file *)
(* ===================================================================== *)

(** X6.  The query [get_kubectl_list] starts is
    [kubectl get <type> <kubeconfig> --request-timeout <timeout>
    -o jsonpath="<jsonpath>" <name>], with the values put in as they are
    (the braces of a jsonpath are not read as fields), and it is followed
    by [ -n <namespace>] exactly when a non-empty namespace is given: with
    the empty string as namespace the call is the call without
    namespace. *)
Theorem X6_listing_query (os : OS) (ot kc to on jp namespace : string)
    (s : state os) :
  let base := "kubectl get " +:+ ot +:+ " " +:+ kc +:+ " --request-timeout "
              +:+ to +:+ " -o jsonpath=" +:+ dq +:+ jp +:+ dq +:+ " " +:+ on in
  get_kubectl_list os ot kc to (Some EmptyString) on jp s
  = get_kubectl_list os ot kc to None on jp s
  /\ (exists ev,
        trace os (get_kubectl_list os ot kc to None on jp s).2
        = trace os s ++ EvPrint (MsgExecuting base) :: EvSpawn base None :: ev)
  /\ (namespace <> EmptyString ->
      exists ev,
        trace os (get_kubectl_list os ot kc to (Some namespace) on jp s).2
        = trace os s ++
          EvPrint (MsgExecuting (base +:+ " -n " +:+ namespace))
          :: EvSpawn (base +:+ " -n " +:+ namespace) None :: ev).
Proof.
  intros base.
  assert (H : forall ns, exists ev,
    trace os (get_kubectl_list os ot kc to ns on jp s).2
    = trace os s ++
      EvPrint (MsgExecuting (listing_command ot kc to ns on jp))
      :: EvSpawn (listing_command ot kc to ns on jp) None :: ev).
  { intros ns. rewrite get_kubectl_list_run.
    edestruct (list_loop_general (os:=os) (listing_command ot kc to ns on jp)
                 LOOP_FUEL 1 0) as (ev & Htr & _ & _ & _ & _ & Hhd).
    rewrite Htr. cbn [trace].
    destruct ev as [|e ev];
      [discriminate Hhd; [rewrite LOOP_FUEL_eq; lia|done]|].
    injection Hhd as ->; [|rewrite LOOP_FUEL_eq; lia|done].
    exists ev. by rewrite <- app_assoc. }
  split; [by rewrite !get_kubectl_list_run|]. split; [apply (H None)|].
  intros Hne. destruct (H (Some namespace)) as [ev Hev]. exists ev.
  rewrite Hev. unfold listing_command. fold base.
  destruct namespace as [|c n]; [done|]. simpl truthy. cbn [default].
  by rewrite <- !append_assoc.
Qed.

(** The pods of namespace [kube-system]. *)
Lemma X6_listing_query_witness :
  exists ev,
    trace _ (get_kubectl_list Worlds.one_pod "pods" "" "15s"
               (Some "kube-system") "" DEFAULT_JSONPATH
               (Worlds.start Worlds.one_pod tt)).2
    = [EvPrint (MsgExecuting
         ("kubectl get pods  --request-timeout 15s -o jsonpath=" +:+ dq
          +:+ "{.items[*].metadata.name}" +:+ dq +:+ "  -n kube-system"));
       EvSpawn
         ("kubectl get pods  --request-timeout 15s -o jsonpath=" +:+ dq
          +:+ "{.items[*].metadata.name}" +:+ dq +:+ "  -n kube-system")
         None] ++ ev.
Proof.
  destruct (X6_listing_query Worlds.one_pod "pods" "" "15s" ""
              DEFAULT_JSONPATH "kube-system" (Worlds.start Worlds.one_pod tt))
    as (_ & _ & H).
  destruct H as [ev Hev]; [discriminate|].
  exists ev. exact Hev.
Defined.

Lemma parse_absolute s :
  PyStr.startswith "/" s = true ->
  PathLib.is_absolute (PathLib.parse s) = true.
Proof.
  intros H. apply splitroot_absolute in H.
  unfold PathLib.is_absolute, PathLib.parse.
  destruct (PathLib.splitroot s) as [[|c rt] rel]; [done|done].
Qed.

(** X7.  Slashes in a command shape its output path.  For a command
    [a/b] that does not start with a slash, the names of the path are
    those of the path of [a], followed by the names in [b] with spaces
    replaced by underscores: what precedes a slash becomes a directory.
    So with a kubeconfig, which is always passed as an absolute path, an
    output file does not lie in its subfolder but in directories below it,
    and its own name is only what follows the last slash.  And for a
    command that starts with a slash the path is the underscored command
    alone: output directory and subfolder are dropped. *)
Theorem X7_slashes_in_a_command (out : PathLib.Path) (sub a b cmd : string) :
  (a <> EmptyString ->
   PyStr.startswith "/" a = false ->
   output_path out sub (a +:+ "/" +:+ b)
   = PathLib.mkPath (PathLib.root (output_path out sub a))
       (PathLib.names (output_path out sub a)
        ++ List.filter PathLib.keep_name
             (PyStr.split "/" (PyStr.replace " " "_" b))))
  /\ (PyStr.startswith "/" cmd = true ->
      output_path out sub cmd = PathLib.parse (PyStr.replace " " "_" cmd))
  /\ PathLib.str
       (output_path (PathLib.parse "/tmp/snap") "global"
          ("kubectl version " +:+ kubeconfig_flag "/home/u" "/tmp/kubeconfig"
           +:+ " --request-timeout " +:+ timeout_arg 15))
     = "/tmp/snap/global/kubectl_version_--kubeconfig_/tmp/kubeconfig_--request-timeout_15s"
  /\ PathLib.names
       (output_path (PathLib.parse "/tmp/snap") "global"
          ("kubectl version " +:+ kubeconfig_flag "/home/u" "/tmp/kubeconfig"
           +:+ " --request-timeout " +:+ timeout_arg 15))
     = ["tmp"; "snap"; "global"; "kubectl_version_--kubeconfig_"; "tmp";
        "kubeconfig_--request-timeout_15s"].
Proof.
  split; [|split; [|split; reflexivity]].
  - intros Hne Ha.
    assert (Hab : PyStr.startswith "/" (a +:+ "/" +:+ b) = false)
      by (by rewrite startswith_app).
    unfold output_path.
    rewrite (truediv_relative _ (PyStr.replace " " "_" (a +:+ "/" +:+ b)))
      by (by rewrite startswith_replace).
    rewrite (truediv_relative _ (PyStr.replace " " "_" a))
      by (by rewrite startswith_replace).
    rewrite !replace_app.
    change (PyStr.replace " " "_" "/" +:+ PyStr.replace " " "_" b)
      with (String "/" (PyStr.replace " " "_" b)).
    rewrite split_app_sep, List.filter_app. simpl.
    by rewrite <- app_assoc.
  - intros Hcmd. unfold output_path, PathLib.truediv, PathLib.join.
    by rewrite parse_absolute by (by rewrite startswith_replace).
Qed.

(** The commands [kubectl get pods -n a/b c] and [/bin/true now]. *)
Lemma X7_slashes_in_a_command_witness :
  PathLib.names (output_path (PathLib.parse "/tmp/snap") "global"
                   ("kubectl get pods -n a" +:+ "/" +:+ "b c"))
  = ["tmp"; "snap"; "global"; "kubectl_get_pods_-n_a"; "b_c"]
  /\ PathLib.str (output_path (PathLib.parse "/tmp/snap") "global"
                    "/bin/true now")
     = "/bin/true_now".
Proof.
  destruct (X7_slashes_in_a_command (PathLib.parse "/tmp/snap") "global"
              "kubectl get pods -n a" "b c" "/bin/true now")
    as (H1 & H2 & _).
  split.
  - rewrite H1; [reflexivity|discriminate|reflexivity].
  - rewrite H2; reflexivity.
Defined.

(* ===================================================================== *)
(** ** How a whole run can end, and what it does on the way *)
(* ===================================================================== *)

Section Ends.

Context {os : OS}.
Implicit Types (s : state os) (E : exn -> Prop).

Lemma ends_ret E {A} (a : A) : ends E (mret a : M os A).
Proof. by intros s. Qed.

Lemma ends_raise E {A} e : E e -> ends E (raise os e : M os A).
Proof. by intros H s. Qed.

Lemma ends_bind E {A B} (m : M os A) (k : A -> M os B) :
  ends E m -> (forall a, ends E (k a)) -> ends E (m ≫= k).
Proof.
  intros Hm Hk s. rewrite bind_run. specialize (Hm s).
  destruct (m s) as [[a| |] s1]; simpl in *; try done. apply Hk.
Qed.

Lemma ends_fmt E tpl args kw c :
  PyStr.format tpl args kw = Some c -> ends E (fmt os tpl args kw).
Proof. intros H. unfold fmt. rewrite H. apply ends_ret. Qed.

Lemma ends_for_list E {A} (l : list A) (body : A -> M os unit) :
  (forall x, In x l -> ends E (body x)) -> ends E (for_list os l body).
Proof.
  induction l as [|x l IH]; intros H; simpl; [apply ends_ret|].
  apply ends_bind; [apply H; by left|].
  intros _. apply IH. intros y Hy. apply H. by right.
Qed.

Lemma ends_for_in E {A} (v : option (list A)) (body : A -> M os unit) :
  E TypeError_not_iterable ->
  (forall x, ends E (body x)) -> ends E (for_in os v body).
Proof.
  intros He H. destruct v as [l|]; simpl; [|by apply ends_raise].
  apply ends_for_list. auto.
Qed.

Lemma ends_run_cmd E cmd sub out :
  E (TimeoutExpired cmd 60) -> ends E (run_cmd os cmd sub out).
Proof.
  intros He s. rewrite run_cmd_run.
  edestruct (run_cmd_loop_result (os:=os) cmd (output_path out sub cmd)
               LOOP_FUEL 1 0) as [-> | ->]; [|done|done].
  rewrite LOOP_FUEL_eq. vm_compute. lia.
Qed.

Lemma ends_get_kubectl_list E ot kc to ns on jp :
  ends E (get_kubectl_list os ot kc to ns on jp).
Proof.
  intros s. by destruct (get_kubectl_list_returns (os:=os) ot kc to ns on jp s)
    as [v ->].
Qed.

Lemma ends_with_tempdir E {A} tmp (m : M os A) :
  ends E m -> ends E (with_tempdir os tmp m).
Proof.
  intros Hm s. specialize (Hm s). unfold with_tempdir.
  by destruct (m s) as [r s1].
Qed.

Lemma format_namespace_folder ns :
  PyStr.format "namespaces/{}" [ns] [] = Some ("namespaces/" +:+ ns).
Proof.
  transitivity (Some ("namespaces/" +:+ ns +:+ EmptyString)); [reflexivity|].
  by rewrite append_nil_r.
Qed.

Lemma format_pod_folder ns pod :
  PyStr.format "namespaces/{}/{}" [ns; pod] []
  = Some ("namespaces/" +:+ ns +:+ "/" +:+ pod).
Proof.
  transitivity (Some ("namespaces/" +:+ ns +:+ "/" +:+ pod +:+ EmptyString));
    [reflexivity|].
  by rewrite append_nil_r.
Qed.

(** The traversal ends normally, or with the timeout of an inspection
    command, or with the [TypeError] of a listing that returned [None]. *)
Lemma ends_traverse kc to nl out : ends run_exn (traverse os kc to nl out).
Proof.
  unfold traverse. apply ends_bind.
  { apply ends_for_list. intros tpl Hin. unfold fmt.
    destruct (global_fill kc to tpl Hin) as (-> & _). rewrite bind_run_ret.
    apply ends_run_cmd. split; [done|by apply inspection_global]. }
  intros _. apply ends_for_in; [done|]. intros namespace. apply ends_bind.
  { apply ends_for_list. intros tpl Hin. unfold fmt.
    destruct (namespace_fill kc to namespace tpl Hin) as (-> & _).
    rewrite bind_run_ret, format_namespace_folder, bind_run_ret.
    apply ends_run_cmd. split; [done|by apply inspection_namespace]. }
  intros _. apply ends_bind; [apply ends_get_kubectl_list|].
  intros pods. apply ends_for_in; [done|]. intros pod.
  apply ends_bind; [apply ends_get_kubectl_list|].
  intros containers. apply ends_for_in; [done|]. intros container.
  apply ends_for_list. intros tpl Hin. unfold fmt.
  destruct (pod_fill kc to namespace pod container tpl Hin) as (-> & _).
  rewrite bind_run_ret, format_pod_folder, bind_run_ret.
  apply ends_run_cmd. split; [done|by apply inspection_pod].
Qed.

(** Every effect of the traversal is an effect of [run_cmd] on a command
    of a catalogue, in the subfolder of that catalogue, or an effect of a
    listing. *)
Lemma emits_traverse_events kc to nl out :
  emits (traverse_event kc to out) (traverse os kc to nl out).
Proof.
  unfold traverse. apply emits_bind.
  { apply emits_for_list. intros tpl Hin. unfold fmt.
    destruct (global_fill kc to tpl Hin) as (-> & _). rewrite bind_run_ret.
    eapply emits_impl; [|apply emits_run_cmd_events].
    intros e He. by eapply traverse_global. }
  intros _. apply emits_for_in. intros namespace. apply emits_bind.
  { apply emits_for_list. intros tpl Hin. unfold fmt.
    destruct (namespace_fill kc to namespace tpl Hin) as (-> & _).
    rewrite bind_run_ret, format_namespace_folder, bind_run_ret.
    eapply emits_impl; [|apply emits_run_cmd_events].
    intros e He. by eapply traverse_namespace. }
  intros _. apply emits_bind.
  { eapply emits_impl; [|apply emits_listing_events].
    intros e He. by eapply traverse_listing. }
  intros pods. apply emits_for_in. intros pod. apply emits_bind.
  { eapply emits_impl; [|apply emits_listing_events].
    intros e He. by eapply traverse_listing. }
  intros containers. apply emits_for_in. intros container.
  apply emits_for_list. intros tpl Hin. unfold fmt.
  destruct (pod_fill kc to namespace pod container tpl Hin) as (-> & _).
  rewrite bind_run_ret, format_pod_folder, bind_run_ret.
  eapply emits_impl; [|apply emits_run_cmd_events].
  intros e He. by eapply traverse_pod.
Qed.

(** A run is the namespace listing and the traversal, followed, if and
    only if these end normally, by the two events of the archive step. *)
Lemma main_cases kubeconfig timeout cwd tmp_dir s :
  let kc := kubeconfig_flag cwd kubeconfig in
  let to := timeout_arg timeout in
  let out := PathLib.parse tmp_dir in
  let r := main os kubeconfig timeout cwd tmp_dir s in
  let name := "snapshot-" +:+ PyStr.str_of_int (os_time os (world os r.2)) in
  exists pre,
    Forall (traverse_event kc to out) pre
    /\ ((r.1 = Return tt
         /\ exists tree,
              trace os r.2
              = trace os s ++ pre ++
                [EvArchive (name +:+ ".tar.gz") name tree;
                 EvPrint (MsgCreated
                   (PathLib.str (PathLib.truediv (PathLib.parse cwd)
                                   (name +:+ ".tar.gz"))))]
              /\ forall p, p ∈ dom tree -> PathLib.under out p = true)
        \/ ((exists e, r.1 = Raise e /\ run_exn e)
            /\ trace os r.2 = trace os s ++ pre)).
Proof.
  intros kc to out. cbv zeta. rewrite main_run, bind_run. fold kc to out.
  destruct (emits_listing_events (os:=os) "namespaces" kc to None EmptyString
              DEFAULT_JSONPATH s) as (ev0 & Htr0 & Hev0).
  destruct (get_kubectl_list_returns (os:=os) "namespaces" kc to None
              EmptyString DEFAULT_JSONPATH s) as [nl Hnl].
  destruct (get_kubectl_list os "namespaces" kc to None EmptyString
              DEFAULT_JSONPATH s) as [r0 s1].
  cbn [fst snd] in Htr0, Hnl. subst r0.
  unfold with_tempdir. rewrite bind_run.
  destruct (emits_traverse_events kc to nl out s1) as (ev1 & Htr1 & Hev1).
  pose proof (ends_traverse kc to nl out s1) as Hend.
  destruct (traverse os kc to nl out s1) as [[[]|e|] s2];
    cbn [fst snd] in Htr1, Hend; [| |done].
  - exists (ev0 ++ ev1). split.
    { apply Forall_app. split; [|done].
      eapply Forall_impl; [exact Hev0|]. intros e He.
      by eapply traverse_listing. }
    left. unfold package. cbn [fst snd world trace fs].
    split; [done|]. eexists. split.
    + rewrite Htr1, Htr0, <- !app_assoc. reflexivity.
    + intros p Hp. apply elem_of_dom in Hp as [x Hx].
      by apply map_lookup_filter_Some in Hx as [_ Hx].
  - exists (ev0 ++ ev1). split.
    { apply Forall_app. split; [|done].
      eapply Forall_impl; [exact Hev0|]. intros e' He.
      by eapply traverse_listing. }
    right. cbn [fst snd trace]. split; [eauto|].
    by rewrite Htr1, Htr0, <- app_assoc.
Qed.

End Ends.

Lemma traverse_event_not_packaging kc to out e :
  traverse_event kc to out e -> packaging e = false.
Proof.
  intros [tpl e' _ H|tpl ns e' _ H|tpl ns pod cont e' _ H|ot ns on jp e' H];
    by destruct H.
Qed.

(** X8.  Which exceptions of its own statements a run lets out, whatever
    the cluster answers.  It never fails in [str.format]: every field of
    every template it fills is supplied.  And a [TimeoutExpired] that ends
    it was raised for an inspection command (a filled-in template of one
    of the three catalogues) under the hard timeout of 60, never for a
    listing query.  Errors of the operating system are not the subject
    here. *)
Theorem X8_exceptions_of_a_run (os : OS) (kubeconfig : string) (timeout : Z)
    (cwd tmp_dir : string) (s : state os) :
  match (main os kubeconfig timeout cwd tmp_dir s).1 with
  | Raise (TimeoutExpired c t) => t = 60 /\ inspection c
  | Raise FormatError => False
  | _ => True
  end.
Proof.
  destruct (main_cases (os:=os) kubeconfig timeout cwd tmp_dir s)
    as (pre & _ & [[-> _] | [(e & -> & He) _]]); [done|].
  by destruct e.
Qed.

(** X9.  The archive is written last, and only by a run that returns.
    Such a run ends with exactly two events: the archive
    [snapshot-<t>.tar.gz], holding under the name [snapshot-<t>] files
    that all lie in the temporary directory, [t] being the clock at that
    moment; and the line that names the archive by its absolute path.
    Nothing before them is an archive or such a line.  A run that raises
    writes no archive and prints no such line. *)
Theorem X9_archive_is_last_and_only_on_return (os : OS) (kubeconfig : string)
    (timeout : Z) (cwd tmp_dir : string) (s : state os) :
  let r := main os kubeconfig timeout cwd tmp_dir s in
  let name := "snapshot-" +:+ PyStr.str_of_int (os_time os (world os r.2)) in
  exists ev,
    trace os r.2 = trace os s ++ ev
    /\ match r.1 with
       | Return _ =>
           exists pre tree,
             ev = pre ++
                  [EvArchive (name +:+ ".tar.gz") name tree;
                   EvPrint (MsgCreated
                     (PathLib.str (PathLib.truediv (PathLib.parse cwd)
                                     (name +:+ ".tar.gz"))))]
             /\ Forall (fun e => packaging e = false) pre
             /\ forall p, p ∈ dom tree ->
                  PathLib.under (PathLib.parse tmp_dir) p = true
       | _ => Forall (fun e => packaging e = false) ev
       end.
Proof.
  intros r name.
  destruct (main_cases (os:=os) kubeconfig timeout cwd tmp_dir s)
    as (pre & Hpre & [[Hr (tree & Htr & Htree)] | [(e & Hr & He) Htr]]);
    fold r in Hr, Htr; fold name in Htr.
  - eexists. split; [exact Htr|]. rewrite Hr. exists pre, tree.
    split; [done|]. split; [|done].
    eapply Forall_impl; [exact Hpre|]. apply traverse_event_not_packaging.
  - exists pre. split; [exact Htr|]. rewrite Hr.
    eapply Forall_impl; [exact Hpre|]. apply traverse_event_not_packaging.
Qed.

(** A cluster without namespaces, at clock 1700000000, run from
    [/home/u]. *)
Lemma X9_archive_is_last_and_only_on_return_witness :
  exists pre tree,
    trace _ (main Worlds.empty_cluster "" 15 "/home/u" "/tmp/snap"
               (Worlds.start Worlds.empty_cluster tt)).2
    = pre ++
      [EvArchive "snapshot-1700000000.tar.gz" "snapshot-1700000000" tree;
       EvPrint (MsgCreated "/home/u/snapshot-1700000000.tar.gz")]
    /\ Forall (fun e => packaging e = false) pre.
Proof.
  destruct (X9_archive_is_last_and_only_on_return Worlds.empty_cluster "" 15
              "/home/u" "/tmp/snap" (Worlds.start Worlds.empty_cluster tt))
    as (ev & Htr & H).
  assert (Hr : (main Worlds.empty_cluster "" 15 "/home/u" "/tmp/snap"
                  (Worlds.start Worlds.empty_cluster tt)).1 = Return tt)
    by (vm_compute; reflexivity).
  rewrite Hr in H. destruct H as (pre & tree & Hev & Hpre & _).
  exists pre, tree. split; [|exact Hpre].
  rewrite Htr, Hev. reflexivity.
Defined.

(* ===================================================================== *)
(** ** The archive, a refused namespace listing, the request timeout *)
(* ===================================================================== *)

Lemma str_of_int_inj (a b : Z) :
  PyStr.str_of_int a = PyStr.str_of_int b -> a = b.
Proof.
  unfold PyStr.str_of_int. intros H. apply DecimalZ.to_int_inj.
  assert (Hn : forall z, Z.to_int z <> Decimal.Pos Decimal.Nil
                         /\ Z.to_int z <> Decimal.Neg Decimal.Nil).
  { intros [|p|p]; simpl; split; try discriminate; intros [= Hp];
      by apply DecimalPos.Unsigned.to_uint_nonnil in Hp. }
  apply (f_equal NilZero.int_of_string) in H.
  rewrite !NilZero.isi in H by apply Hn. congruence.
Qed.

Lemma append_inv_head_str (a b c : string) : a +:+ b = a +:+ c -> b = c.
Proof.
  induction a as [|x a IH]; [done|]. rewrite !append_cons.
  intros [= H]. by apply IH.
Qed.

Lemma archived_app (a b : list event) :
  archived (a ++ b) = archived a ++ archived b.
Proof. apply omap_app. Qed.

(** X10.  The archive step adds one archive to those written so far: the
    file [snapshot-<t>.tar.gz], whose content sits under the name
    [snapshot-<t>], the file name without its suffix, where [t] is the
    clock in whole units.  The name tells the clock value: two archive
    steps choose the same file name exactly when their clocks agree, so a
    run overwrites the archive of an earlier run in the same directory
    only if both end within the same second. *)
Theorem X10_archive_name_and_clock (os : OS) (cwd : string)
    (out : PathLib.Path) (s1 s2 : state os) :
  archived (trace os (package os cwd out s1).2)
  = archived (trace os s1)
    ++ [("snapshot-" +:+ PyStr.str_of_int (os_time os (world os s1))
         +:+ ".tar.gz",
         "snapshot-" +:+ PyStr.str_of_int (os_time os (world os s1)))]
  /\ (last (archived (trace os (package os cwd out s1).2))
      = last (archived (trace os (package os cwd out s2).2))
      <-> os_time os (world os s1) = os_time os (world os s2)).
Proof.
  assert (H : forall s : state os,
    archived (trace os (package os cwd out s).2)
    = archived (trace os s)
      ++ [("snapshot-" +:+ PyStr.str_of_int (os_time os (world os s))
           +:+ ".tar.gz",
           "snapshot-" +:+ PyStr.str_of_int (os_time os (world os s)))]).
  { intros s. unfold package. cbn [snd trace]. by rewrite archived_app. }
  split; [apply H|]. rewrite !H, !last_snoc. split.
  - intros [= _ Hn]. apply append_inv_head_str in Hn. by apply str_of_int_inj.
  - by intros ->.
Qed.

(** Two archive steps at the same clock value, whatever else differs,
    choose the same file. *)
Lemma X10_archive_name_and_clock_witness :
  last (archived (trace _ (package Worlds.clocked "/home/u"
                             (PathLib.parse "/tmp/snap")
                             (Worlds.start Worlds.clocked 1700000000)).2))
  = last (archived (trace _ (package Worlds.clocked "/home/u"
                               (PathLib.parse "/tmp/snap")
                               (mkState Worlds.clocked 1700000000 ∅
                                  [EvSleep 5])).2)).
Proof.
  apply (X10_archive_name_and_clock Worlds.clocked "/home/u"
           (PathLib.parse "/tmp/snap")
           (Worlds.start Worlds.clocked 1700000000)
           (mkState Worlds.clocked 1700000000 ∅ [EvSleep 5])).
  reflexivity.
Defined.

Section RefusedListing.

Context {os : OS}.
Implicit Types (s : state os).


End RefusedListing.



Lemma substring_of_refl x : PyStr.substring_of x x = true.
Proof.
  rewrite <- (append_nil_r x) at 2. apply substring_of_app_l.
Qed.

(** Every command of a run carries the request timeout. *)
Lemma executed_carries_timeout kc to c :
  executed kc to c ->
  PyStr.substring_of ("--request-timeout " +:+ to) c = true.
Proof.
  intros [tpl c' Hin H|tpl namespace c' Hin H|tpl namespace pod container c' Hin H
          |ot ns on jp].
  - destruct (global_fill kc to tpl Hin) as (H1 & H2 & _).
    rewrite H1 in H. injection H as <-. rewrite H2.
    do 2 apply substring_of_app_r. apply substring_of_cons.
    rewrite append_nil_r. apply substring_of_refl.
  - destruct (namespace_fill kc to namespace tpl Hin) as (H1 & H2 & _).
    rewrite H1 in H. injection H as <-. rewrite H2.
    do 2 apply substring_of_app_r. apply substring_of_cons.
    change (PyStr.substring_of ("--request-timeout " +:+ to)
              (("--request-timeout " +:+ to)
               +:+ " --namespace " +:+ namespace +:+ EmptyString) = true).
    apply substring_of_app_l.
  - destruct (pod_fill kc to namespace pod container tpl Hin) as (H1 & H2 & _).
    rewrite H1 in H. injection H as <-. rewrite H2.
    do 2 apply substring_of_app_r. apply substring_of_cons.
    apply substring_of_app_r.
    change (PyStr.substring_of ("--request-timeout " +:+ to)
              (" --container " +:+ container +:+ " "
               +:+ ("--request-timeout " +:+ to)
               +:+ " --namespace " +:+ namespace +:+ EmptyString) = true).
    do 3 apply substring_of_app_r. apply substring_of_app_l.
  - assert (Hb : PyStr.substring_of ("--request-timeout " +:+ to)
             ("kubectl get " +:+ ot +:+ " " +:+ kc +:+ " --request-timeout "
              +:+ to +:+ " -o jsonpath=" +:+ dq +:+ jp +:+ dq +:+ " " +:+ on)
             = true).
    { do 4 apply substring_of_app_r. apply substring_of_cons.
      change (PyStr.substring_of ("--request-timeout " +:+ to)
                (("--request-timeout " +:+ to)
                 +:+ " -o jsonpath=" +:+ dq +:+ jp +:+ dq +:+ " " +:+ on)
              = true).
      apply substring_of_app_l. }
    unfold listing_command. destruct (truthy ns); [|exact Hb].
    by apply substring_of_app_left.
Qed.

(** X12.  The timeout is 15 unless [--timeout] gives another, and it
    reaches every command: whatever the cluster does, each command a run
    starts, listing query or inspection command, contains
    [--request-timeout <timeout>s]. *)
Theorem X12_request_timeout_in_every_command (os : OS) (kubeconfig : string)
    (timeout : Z) (cwd tmp_dir : string) (s : state os)
    (arg_kubeconfig env : option string) :
  (parse_args arg_kubeconfig env None).2 = 15
  /\ (parse_args arg_kubeconfig env (Some timeout)).2 = timeout
  /\ exists ev,
       trace os (main os kubeconfig timeout cwd tmp_dir s).2 = trace os s ++ ev
       /\ Forall (spawn_cmd_is (fun c =>
            PyStr.substring_of
              ("--request-timeout " +:+ PyStr.str_of_int timeout +:+ "s") c
            = true)) ev.
Proof.
  split; [done|]. split; [done|].
  destruct (emits_main (os:=os) kubeconfig timeout cwd tmp_dir s)
    as (ev & Htr & Hev).
  exists ev. split; [done|]. eapply Forall_impl; [exact Hev|].
  intros e. apply spawn_cmd_is_impl. intros c Hc.
  by apply executed_carries_timeout in Hc.
Qed.

(* ===================================================================== *)
(** ** The kubeconfig path, read back *)
(* ===================================================================== *)

Lemma lstrip_sep_relative s :
  PyStr.startswith "/" s = false -> PathLib.lstrip_sep s = s.
Proof.
  destruct s as [|c s]; [done|]. rewrite startswith_one.
  destruct (ascii_dec "/" c) as [<-|Hc]; [done|]. intros _.
  destruct c as [[] [] [] [] [] [] [] []]; try reflexivity. done.
Qed.

Lemma filter_keep_good (l : list string) :
  Forall good_name l -> List.filter PathLib.keep_name l = l.
Proof.
  induction 1 as [|x l (Hne & Hdot & _) Hl IH]; [done|].
  change (List.filter PathLib.keep_name (x :: l))
    with (if PathLib.keep_name x then x :: List.filter PathLib.keep_name l
          else List.filter PathLib.keep_name l).
  rewrite IH. unfold PathLib.keep_name.
  apply String.eqb_neq in Hne, Hdot. by rewrite Hne, Hdot.
Qed.

Lemma names_of_join (l : list string) :
  Forall good_name l ->
  List.filter PathLib.keep_name (PyStr.split "/" (PyStr.join "/" l)) = l.
Proof.
  intros H. destruct l as [|x l]; [done|].
  rewrite split_join; [by apply filter_keep_good|done|].
  eapply Forall_impl; [exact H|]. by intros t (_ & _ & Ht).
Qed.

(** [PurePosixPath(str(p)) == p] for the paths the parser builds. *)
Lemma parse_str p : well_formed p -> PathLib.parse (PathLib.str p) = p.
Proof.
  destruct p as [r n]. intros [Hr Hn]. simpl in Hr, Hn.
  pose proof (join_names_head n Hn) as Hh.
  pose proof (names_of_join n Hn) as Hj.
  destruct Hr as [-> | [-> | ->]].
  - destruct n as [|x n]; [done|].
    change (PathLib.str (PathLib.mkPath EmptyString (x :: n)))
      with (PyStr.join "/" (x :: n)).
    by rewrite parse_relative, Hj.
  - change (PathLib.str (PathLib.mkPath "/" n))
      with (String "/" (PyStr.join "/" n)).
    unfold PathLib.parse, PathLib.splitroot.
    change (PathLib.lstrip_sep (String "/" (PyStr.join "/" n)))
      with (PathLib.lstrip_sep (PyStr.join "/" n)).
    rewrite lstrip_sep_relative by done.
    replace (String.length (String "/" (PyStr.join "/" n))
             - String.length (PyStr.join "/" n))%nat with 1%nat
      by (simpl String.length; lia).
    simpl. by rewrite Hj.
  - change (PathLib.str (PathLib.mkPath "//" n))
      with (String "/" (String "/" (PyStr.join "/" n))).
    unfold PathLib.parse, PathLib.splitroot.
    change (PathLib.lstrip_sep (String "/" (String "/" (PyStr.join "/" n))))
      with (PathLib.lstrip_sep (PyStr.join "/" n)).
    rewrite lstrip_sep_relative by done.
    replace (String.length (String "/" (String "/" (PyStr.join "/" n)))
             - String.length (PyStr.join "/" n))%nat with 2%nat
      by (simpl String.length; lia).
    simpl. by rewrite Hj.
Qed.

Lemma join_names_app (a b : list string) :
  a <> [] -> b <> [] ->
  PyStr.join "/" (a ++ b) = PyStr.join "/" a +:+ "/" +:+ PyStr.join "/" b.
Proof.
  intros Ha Hb. induction a as [|x a IH]; [done|].
  destruct a as [|y a].
  - destruct b as [|z b]; [done|]. reflexivity.
  - change (PyStr.join "/" ((x :: y :: a) ++ b))
      with (x +:+ "/" +:+ PyStr.join "/" ((y :: a) ++ b)).
    rewrite IH by done.
    change (PyStr.join "/" (x :: y :: a))
      with (x +:+ "/" +:+ PyStr.join "/" (y :: a)).
    by rewrite !append_assoc.
Qed.

Lemma str_absolute_nonempty p :
  PathLib.is_absolute p = true -> PathLib.str p <> EmptyString.
Proof.
  destruct p as [[|c r] n]; [done|]. intros _. unfold PathLib.str. simpl.
  by rewrite append_cons.
Qed.

Lemma kubeconfig_flag_nonempty cwd k :
  k <> EmptyString ->
  kubeconfig_flag cwd k
  = "--kubeconfig " +:+ PathLib.str (PathLib.absolute cwd (PathLib.parse k)).
Proof. by destruct k. Qed.

(** X13.  What the [--kubeconfig] value becomes.  An absolute path in the
    form [pathlib] prints (no doubled or trailing slash, no [.] component)
    is passed on as it is, whatever the working directory.  A relative path
    of that form is put behind the working directory, with one slash in
    between unless the working directory is a root.  And the path in the
    flag is itself of the first kind: given again as kubeconfig, from any
    working directory, it yields the same flag. *)
Theorem X13_kubeconfig_becomes_absolute (cwd cwd' k : string)
    (p q c : PathLib.Path) :
  (well_formed p -> PathLib.is_absolute p = true ->
   kubeconfig_flag cwd (PathLib.str p) = "--kubeconfig " +:+ PathLib.str p)
  /\ (well_formed q -> PathLib.root q = EmptyString ->
      PathLib.names q <> [] ->
      well_formed c -> PathLib.is_absolute c = true ->
      kubeconfig_flag (PathLib.str c) (PathLib.str q)
      = "--kubeconfig " +:+ PathLib.str c
        +:+ (if bool_decide (PathLib.names c = []) then EmptyString else "/")
        +:+ PathLib.str q)
  /\ (k <> EmptyString -> PyStr.startswith "/" cwd = true ->
      kubeconfig_flag cwd'
        (PathLib.str (PathLib.absolute cwd (PathLib.parse k)))
      = kubeconfig_flag cwd k).
Proof.
  split; [|split].
  - intros Hp Ha.
    rewrite kubeconfig_flag_nonempty by (by apply str_absolute_nonempty).
    rewrite parse_str by done. unfold PathLib.absolute. by rewrite Ha.
  - intros Hq Hrq Hnq Hc Ha.
    assert (Hne : PathLib.str q <> EmptyString).
    { destruct q as [rq [|x nq]]; [done|]. simpl in Hrq. subst rq.
      destruct Hq as [_ Hq]. apply Forall_cons in Hq as [(Hx & _) _].
      change (PathLib.str (PathLib.mkPath EmptyString (x :: nq)))
        with (PyStr.join "/" (x :: nq)).
      destruct x as [|a x]; [done|]. by destruct nq. }
    rewrite kubeconfig_flag_nonempty, (parse_str q) by done.
    unfold PathLib.absolute, PathLib.join, PathLib.is_absolute.
    rewrite Hrq, (parse_str c) by done. cbn [String.eqb negb].
    destruct c as [rc nc], q as [rq nq]. simpl in *. subst rq.
    destruct rc as [|a rc]; [done|].
    destruct nq as [|y nq]; [done|].
    change (PathLib.str (PathLib.mkPath EmptyString (y :: nq)))
      with (PyStr.join "/" (y :: nq)).
    unfold PathLib.str. cbn [PathLib.root PathLib.names].
    destruct nc as [|x nc].
    + rewrite bool_decide_eq_true_2 by done. cbn [app PyStr.join].
      by rewrite append_nil_r, append_nil_l.
    + rewrite bool_decide_eq_false_2 by done.
      rewrite join_names_app by done. by rewrite !append_assoc.
  - intros Hk Hcwd.
    assert (Hwf : well_formed (PathLib.absolute cwd (PathLib.parse k))).
    { unfold PathLib.absolute.
      destruct (PathLib.is_absolute (PathLib.parse k));
        auto using join_well_formed, parse_well_formed. }
    pose proof (absolute_is_absolute cwd (PathLib.parse k) Hcwd) as Ha.
    rewrite (kubeconfig_flag_nonempty cwd k) by done.
    rewrite kubeconfig_flag_nonempty by (by apply str_absolute_nonempty).
    rewrite parse_str by done. unfold PathLib.absolute at 1. by rewrite Ha.
Qed.

(** [/etc/kube/config] stays; [kube/config] in [/home/u] becomes
    [/home/u/kube/config]; and that one stays. *)
Lemma X13_kubeconfig_becomes_absolute_witness :
  kubeconfig_flag "/srv" "/etc/kube/config" = "--kubeconfig /etc/kube/config"
  /\ kubeconfig_flag "/home/u" "kube/config"
     = "--kubeconfig /home/u/kube/config"
  /\ kubeconfig_flag "/srv" "/home/u/kube/config"
     = kubeconfig_flag "/home/u" "kube/config".
Proof.
  destruct (X13_kubeconfig_becomes_absolute "/home/u" "/srv" "kube/config"
              (PathLib.parse "/etc/kube/config") (PathLib.parse "kube/config")
              (PathLib.parse "/home/u")) as (H1 & H2 & H3).
  split; [|split].
  - apply (X13_kubeconfig_becomes_absolute "/srv" "/srv" "kube/config"
             (PathLib.parse "/etc/kube/config") (PathLib.parse "kube/config")
             (PathLib.parse "/home/u")).
    + apply parse_well_formed.
    + reflexivity.
  - apply H2.
    + apply parse_well_formed.
    + reflexivity.
    + discriminate.
    + apply parse_well_formed.
    + reflexivity.
  - apply H3; [discriminate|reflexivity].
Defined.

(* ===================================================================== *)
(** ** Where a run opens files; the traversal of any cluster *)
(* ===================================================================== *)

Lemma namespaces_folder_names rest :
  List.filter PathLib.keep_name (PyStr.split "/" ("namespaces/" +:+ rest))
  = "namespaces" :: List.filter PathLib.keep_name (PyStr.split "/" rest).
Proof.
  change ("namespaces/" +:+ rest) with ("namespaces" +:+ String "/" rest).
  by rewrite split_app_sep, List.filter_app.
Qed.

Lemma under_extend_mid r ns a mid ext :
  ext <> [] ->
  PathLib.under (PathLib.mkPath r (ns ++ [a]))
    (PathLib.mkPath r (ns ++ (a :: mid) ++ ext)) = true.
Proof.
  intros H.
  replace (ns ++ (a :: mid) ++ ext) with ((ns ++ [a]) ++ (mid ++ ext))
    by (by rewrite <- !app_assoc).
  apply under_extend. by destruct mid.
Qed.

(** The output file of a command that starts with a literal text lies in
    the output directory; in subfolder [global] it lies under [global],
    and in a subfolder that starts with [namespaces/] under
    [namespaces]. *)
Lemma output_path_under out L T :
  starts_name (PyStr.replace " " "_" L) = true ->
  (PathLib.under out (output_path out "global" (L +:+ T)) = true
   /\ PathLib.under (PathLib.truediv out "global")
        (output_path out "global" (L +:+ T)) = true)
  /\ forall rest,
       PathLib.under out (output_path out ("namespaces/" +:+ rest) (L +:+ T))
       = true
       /\ PathLib.under (PathLib.truediv out "namespaces")
            (output_path out ("namespaces/" +:+ rest) (L +:+ T)) = true.
Proof.
  intros HL. split; [|intros rest];
    rewrite output_path_shape by done;
    rewrite ?namespaces_folder_names, !truediv_relative by done;
    destruct out as [rt ns]; cbn [PathLib.root PathLib.names].
  - change (List.filter PathLib.keep_name (PyStr.split "/" "global"))
      with ["global"].
    split; [by apply under_extend|].
    rewrite (assoc_L (++) ns ["global"]). by apply under_extend.
  - change (List.filter PathLib.keep_name (PyStr.split "/" "namespaces"))
      with ["namespaces"].
    split; [by apply under_extend|by apply under_extend_mid].
Qed.

Lemma traverse_event_opens kc to out e :
  traverse_event kc to out e ->
  opens_in (fun p =>
    PathLib.under out p = true
    /\ (PathLib.under (PathLib.truediv out "global") p = true
        \/ PathLib.under (PathLib.truediv out "namespaces") p = true)) e.
Proof.
  intros [tpl e' Hin H|tpl ns e' Hin H|tpl ns pod cont e' Hin H|ot ns on jp e' H];
    cbv zeta in H.
  - destruct (global_fill kc to tpl Hin) as (_ & Hc & HL & _).
    rewrite Hc in H. inversion H; subst; try exact I. simpl.
    destruct (output_path_under out _
                (kc +:+ " --request-timeout " +:+ to +:+ EmptyString) HL)
      as [[H1 H2] _]. auto.
  - destruct (namespace_fill kc to ns tpl Hin) as (_ & Hc & HL & _).
    rewrite Hc in H. inversion H; subst; try exact I. simpl.
    destruct (output_path_under out _
                (kc +:+ " --request-timeout " +:+ to +:+ " --namespace "
                 +:+ ns +:+ EmptyString) HL) as [_ H'].
    destruct (H' ns) as [H1 H2]. auto.
  - destruct (pod_fill kc to ns pod cont tpl Hin) as (_ & Hc & HL & _).
    rewrite Hc in H. inversion H; subst; try exact I. simpl.
    destruct (output_path_under out _
                (kc +:+ " " +:+ pod +:+ " --container " +:+ cont
                 +:+ " --request-timeout " +:+ to +:+ " --namespace "
                 +:+ ns +:+ EmptyString) HL) as [_ H'].
    destruct (H' (ns +:+ "/" +:+ pod)) as [H1 H2]. auto.
  - by destruct H.
Qed.

(** X14.  Whatever the cluster does and whatever names its listings
    return, every file a run opens has a path that extends the path of the
    temporary directory by [global] or by [namespaces] and at least one
    further name. *)
Theorem X14_files_are_opened_in_the_temporary_directory (os : OS)
    (kubeconfig : string) (timeout : Z) (cwd tmp_dir : string)
    (s : state os) :
  let out := PathLib.parse tmp_dir in
  exists ev,
    trace os (main os kubeconfig timeout cwd tmp_dir s).2 = trace os s ++ ev
    /\ Forall (fun p =>
         PathLib.under out p = true
         /\ (PathLib.under (PathLib.truediv out "global") p = true
             \/ PathLib.under (PathLib.truediv out "namespaces") p = true))
         (opened ev).
Proof.
  intros out.
  assert (H : forall pre, Forall (traverse_event
                 (kubeconfig_flag cwd kubeconfig) (timeout_arg timeout) out)
                 pre ->
    Forall (fun p =>
         PathLib.under out p = true
         /\ (PathLib.under (PathLib.truediv out "global") p = true
             \/ PathLib.under (PathLib.truediv out "namespaces") p = true))
      (opened pre)).
  { induction 1 as [|e pre He Hpre IH]; [constructor|].
    apply traverse_event_opens in He.
    destruct e; simpl; try exact IH. by constructor. }
  destruct (main_cases (os:=os) kubeconfig timeout cwd tmp_dir s)
    as (pre & Hpre & [[_ (tree & Htr & _)] | [_ Htr]]).
  - eexists. split; [exact Htr|]. rewrite opened_app. simpl.
    rewrite app_nil_r. by apply H.
  - exists pre. split; [exact Htr|]. by apply H.
Qed.

Lemma length_concat_map {A B} (f : A -> list B) (l : list A) :
  length (concat (List.map f l))
  = sum_list (List.map (fun x => length (f x)) l).
Proof.
  induction l as [|x l IH]; [done|].
  cbn [List.map concat sum_list sum_list_with]. by rewrite length_app, IH.
Qed.

Section AnyCluster.

Context {os : OS}.
Implicit Types (s : state os).

Variables (kc to : string) (out : PathLib.Path).

Hypothesis in_time : forall cmd w, elapsed (os_exec os cmd w).1 <= 60.

Lemma yields_namespace_catalogue ns :
  yields
    (for_list os KUBECTL_PER_NS_CMDS (fun cmd =>
       c ← fmt os cmd [] [("kubeconfig_arg", kc); ("timeout", to);
                          ("namespace", ns)];
       sub ← fmt os "namespaces/{}" [ns] [];
       run_cmd os c sub out))
    tt (namespace_files out kc to ns).
Proof.
  eapply yields_eq.
  - apply (yields_for_list _ _ (fun tpl =>
      [] ++ [] ++ [output_path out ("namespaces/" +:+ ns)
               (fill tpl [("kubeconfig_arg", kc); ("timeout", to);
                          ("namespace", ns)])])).
    intros tpl Hin. eapply yields_bind.
    + apply yields_fmt. by apply namespace_fill.
    + eapply yields_bind.
      * apply yields_fmt. apply format_namespace_folder.
      * by apply yields_run_cmd.
  - reflexivity.
Qed.

Lemma yields_pod_catalogue ns pod container :
  yields
    (for_list os KUBECTL_PER_POD_CMDS (fun cmd =>
       c ← fmt os cmd [] [("kubeconfig_arg", kc); ("timeout", to);
                          ("namespace", ns); ("pod", pod);
                          ("container", container)];
       sub ← fmt os "namespaces/{}/{}" [ns; pod] [];
       run_cmd os c sub out))
    tt (pod_files out kc to ns pod container).
Proof.
  eapply yields_eq.
  - apply (yields_for_list _ _ (fun tpl =>
      [] ++ [] ++ [output_path out ("namespaces/" +:+ ns +:+ "/" +:+ pod)
               (fill tpl [("kubeconfig_arg", kc); ("timeout", to);
                          ("namespace", ns); ("pod", pod);
                          ("container", container)])])).
    intros tpl Hin. eapply yields_bind.
    + apply yields_fmt. by apply pod_fill.
    + eapply yields_bind.
      * apply yields_fmt. apply format_pod_folder.
      * by apply yields_run_cmd.
  - reflexivity.
Qed.

(** The traversal of a cluster all of whose listings succeed. *)
Lemma yields_traverse_cluster nl pods containers :
  (forall ns, In ns nl -> forall s,
     (get_kubectl_list os "pods" kc to (Some ns) EmptyString
        DEFAULT_JSONPATH s).1 = Return (Some (pods ns))) ->
  (forall ns pod, In ns nl -> In pod (pods ns) -> forall s,
     (get_kubectl_list os "pod" kc to (Some ns) pod
        CONTAINERS_JSONPATH s).1 = Return (Some (containers ns pod))) ->
  yields (traverse os kc to (Some nl) out) tt
    (cluster_files out kc to nl pods containers).
Proof.
  intros Hpods Hcontainers. unfold traverse, cluster_files.
  eapply yields_bind;
    [apply yields_global_loop; intros cmd w _; apply in_time|].
  apply yields_for_in. intros ns Hns.
  eapply yields_bind; [apply yields_namespace_catalogue|].
  eapply yields_eq.
  - eapply yields_bind; [apply yields_get_kubectl_list; by apply Hpods|].
    apply yields_for_in. intros pod Hpod. eapply yields_eq.
    + eapply yields_bind;
        [apply yields_get_kubectl_list; by apply Hcontainers|].
      apply yields_for_in. intros container _.
      apply yields_pod_catalogue.
    + reflexivity.
  - reflexivity.
Qed.

Lemma cluster_files_in_out nl pods containers :
  Forall (fun p => PathLib.under out p = true)
    (cluster_files out kc to nl pods containers).
Proof.
  unfold cluster_files. apply Forall_app. split.
  { eapply Forall_impl; [apply global_files_under|]. by intros p (H & _). }
  apply Forall_concat, Forall_map, Forall_forall. intros ns _.
  apply Forall_app. split.
  - unfold namespace_files. apply List.Forall_forall. intros p Hp.
    apply in_map_iff in Hp as (tpl & <- & Hin).
    destruct (namespace_fill kc to ns tpl Hin) as (_ & -> & HL & _).
    destruct (output_path_under out _
                (kc +:+ " --request-timeout " +:+ to +:+ " --namespace "
                 +:+ ns +:+ EmptyString) HL) as [_ H].
    by destruct (H ns).
  - apply Forall_concat, Forall_map, Forall_forall. intros pod _.
    apply Forall_concat, Forall_map, Forall_forall. intros container _.
    unfold pod_files. apply List.Forall_forall. intros p Hp.
    apply in_map_iff in Hp as (tpl & <- & Hin).
    destruct (pod_fill kc to ns pod container tpl Hin) as (_ & -> & HL & _).
    destruct (output_path_under out _
                (kc +:+ " " +:+ pod +:+ " --container " +:+ container
                 +:+ " --request-timeout " +:+ to +:+ " --namespace "
                 +:+ ns +:+ EmptyString) HL) as [_ H].
    by destruct (H (ns +:+ "/" +:+ pod)).
Qed.

Lemma cluster_files_length nl pods containers :
  length (cluster_files out kc to nl pods containers)
  = (14 + sum_list (List.map (fun ns =>
            3 + sum_list (List.map (fun pod => length (containers ns pod))
                            (pods ns))) nl))%nat.
Proof.
  unfold cluster_files. rewrite length_app, length_concat_map.
  change (length (global_files out kc to)) with 14%nat. do 2 f_equal.
  apply List.map_ext. intros ns. rewrite length_app, length_concat_map.
  change (length (namespace_files out kc to ns)) with 3%nat. do 2 f_equal.
  apply List.map_ext. intros pod. rewrite length_concat_map.
  induction (containers ns pod) as [|c l IH]; [done|].
  cbn [List.map sum_list sum_list_with length]. by rewrite IH.
Qed.

End AnyCluster.

(** X15.  In a fresh temporary directory, with no command outlasting the
    hard timeout, every listing succeeding, and output paths the file
    system accepts (no name is [..] or too long, none lies below
    another): if the namespace listing returns the names [nl], the pod
    listing of namespace [ns] returns [pods ns] and the container listing
    of its pod [pod] returns [containers ns pod], then the run returns
    after opening, in this order, the 14 files of the global catalogue and
    then, namespace by namespace, the 3 files of the namespace catalogue
    followed, pod by pod and container by container, by the log file of
    the container.  That is 14, plus 3 per namespace, plus 1 per
    container files opened, each by the path of the file the kernel
    reaches; and the tree the run archives consists of them. *)
Theorem X15_traversal_of_any_cluster (os : OS) (kubeconfig : string)
    (timeout : Z) (cwd tmp_dir : string) (s : state os) (nl : list string)
    (pods : string -> list string)
    (containers : string -> string -> list string) :
  let kc := kubeconfig_flag cwd kubeconfig in
  let to := timeout_arg timeout in
  let out := PathLib.parse tmp_dir in
  (forall cmd w, elapsed (os_exec os cmd w).1 <= 60) ->
  (forall p, p ∈ dom (fs os s) -> PathLib.under out p = false) ->
  (get_kubectl_list os "namespaces" kc to None EmptyString DEFAULT_JSONPATH
     s).1 = Return (Some nl) ->
  (forall ns, In ns nl -> forall s',
     (get_kubectl_list os "pods" kc to (Some ns) EmptyString
        DEFAULT_JSONPATH s').1 = Return (Some (pods ns))) ->
  (forall ns pod, In ns nl -> In pod (pods ns) -> forall s',
     (get_kubectl_list os "pod" kc to (Some ns) pod
        CONTAINERS_JSONPATH s').1 = Return (Some (containers ns pod))) ->
  accepted (cluster_files out kc to nl pods containers) = true ->
  exists ev file arcname tree,
    (main os kubeconfig timeout cwd tmp_dir s).1 = Return tt
    /\ trace os (main os kubeconfig timeout cwd tmp_dir s).2 = trace os s ++ ev
    /\ opened ev = cluster_files out kc to nl pods containers
    /\ length (opened ev)
       = (14 + sum_list (List.map (fun ns =>
                 3 + sum_list (List.map (fun pod =>
                       length (containers ns pod)) (pods ns))) nl))%nat
    /\ In (EvArchive file arcname tree) ev
    /\ dom tree = list_to_set (opened ev)
    /\ List.map collapse (opened ev) = opened ev.
Proof.
  intros kc to out Hfast Hfresh Hnl Hpods Hcontainers Hacc.
  destruct (main_creates kubeconfig timeout cwd tmp_dir s (Some nl)
              (cluster_files out kc to nl pods containers) Hnl)
    as (ev & file & arcname & tree & Hr & Htr & Hop & Hin & Hdom).
  - by apply yields_traverse_cluster.
  - done.
  - apply cluster_files_in_out.
  - exists ev, file, arcname, tree. rewrite Hop.
    repeat (split; [done|]). split; [apply cluster_files_length|].
    split; [done|]. split; [done|]. by apply map_collapse_accepted.
Qed.

(** Two namespaces, each with one pod of two containers: 24 files. *)
Lemma X15_traversal_of_any_cluster_witness :
  exists ev file arcname tree,
    (main Worlds.two_namespaces "" 15 "/home/u" "/tmp/snap"
       (Worlds.start Worlds.two_namespaces tt)).1 = Return tt
    /\ trace _ (main Worlds.two_namespaces "" 15 "/home/u" "/tmp/snap"
                  (Worlds.start Worlds.two_namespaces tt)).2 = ev
    /\ length (opened ev) = 24%nat
    /\ In (EvArchive file arcname tree) ev
    /\ dom tree = list_to_set (opened ev).
Proof.
  destruct (X15_traversal_of_any_cluster Worlds.two_namespaces "" 15
              "/home/u" "/tmp/snap" (Worlds.start Worlds.two_namespaces tt)
              ["dev"; "prod"] (fun _ => ["web"]) (fun _ _ => ["app"; "proxy"]))
    as (ev & file & arcname & tree & Hr & Htr & _ & Hn & Hin & Hdom & _).
  - intros cmd w. simpl. by repeat destruct (PyStr.startswith _ _).
  - intros p Hp. simpl in Hp. by apply not_elem_of_empty in Hp.
  - reflexivity.
  - intros ns Hns s'.
    destruct Hns as [<- | [<- | []]].
    + by edestruct (get_kubectl_list_fails_then_ok (os:=Worlds.two_namespaces)
                   "pods" (kubeconfig_flag "/home/u" "") (timeout_arg 15)
                   (Some "dev") "" DEFAULT_JSONPATH s' 0)
        as [ev ->]; [lia|intros i Hi; lia|reflexivity|].
    + by edestruct (get_kubectl_list_fails_then_ok (os:=Worlds.two_namespaces)
                   "pods" (kubeconfig_flag "/home/u" "") (timeout_arg 15)
                   (Some "prod") "" DEFAULT_JSONPATH s' 0)
        as [ev ->]; [lia|intros i Hi; lia|reflexivity|].
  - intros ns pod Hns Hpod s'.
    destruct Hpod as [<- | []].
    destruct Hns as [<- | [<- | []]].
    + by edestruct (get_kubectl_list_fails_then_ok (os:=Worlds.two_namespaces)
                   "pod" (kubeconfig_flag "/home/u" "") (timeout_arg 15)
                   (Some "dev") "web" CONTAINERS_JSONPATH s' 0)
        as [ev ->]; [lia|intros i Hi; lia|reflexivity|].
    + by edestruct (get_kubectl_list_fails_then_ok (os:=Worlds.two_namespaces)
                   "pod" (kubeconfig_flag "/home/u" "") (timeout_arg 15)
                   (Some "prod") "web" CONTAINERS_JSONPATH s' 0)
        as [ev ->]; [lia|intros i Hi; lia|reflexivity|].
  - vm_compute. reflexivity.
  - exists ev, file, arcname, tree. repeat split; assumption.
Defined.

(* ===================================================================== *)
(** ** A timeout ends the run at once *)
(* ===================================================================== *)

Section StopsAtTimeout.

Context {os : OS}.
Implicit Types (s : state os).

Lemma stops_returning {A} (m : M os A) :
  (forall s, exists ev a,
     trace os (m s).2 = trace os s ++ ev /\ (m s).1 = Return a) ->
  stops_at_timeout m.
Proof.
  intros H s. destruct (H s) as (ev & a & Htr & Hr). exists ev.
  split; [done|]. by rewrite Hr.
Qed.

Lemma stops_ret {A} (a : A) : stops_at_timeout (mret a : M os A).
Proof. intros s. exists []. simpl. by rewrite app_nil_r. Qed.

Lemma stops_bind {A B} (m : M os A) (k : A -> M os B) :
  stops_at_timeout m -> (forall a, stops_at_timeout (k a)) ->
  stops_at_timeout (m ≫= k).
Proof.
  intros Hm Hk s. rewrite bind_run. destruct (Hm s) as (ev & Htr & Hev).
  destruct (m s) as [[a| e |] s1]; cbn [fst snd] in *; [|eauto..].
  destruct (Hk a s1) as (ev' & Htr' & Hev').
  exists (ev ++ ev'). rewrite Htr', Htr, <- app_assoc. split; [done|].
  destruct (k a s1).1 as [b| [c t| |] |]; try done.
  by rewrite last_app, Hev'.
Qed.

Lemma stops_fmt tpl args kw : stops_at_timeout (fmt os tpl args kw).
Proof.
  unfold fmt. destruct (PyStr.format tpl args kw); [apply stops_ret|].
  intros s. exists []. simpl. by rewrite app_nil_r.
Qed.

Lemma stops_for_list {A} (l : list A) (body : A -> M os unit) :
  (forall x, stops_at_timeout (body x)) ->
  stops_at_timeout (for_list os l body).
Proof.
  intros H. induction l as [|x l IH]; simpl; [apply stops_ret|].
  apply stops_bind; [apply H|]. by intros _.
Qed.

Lemma stops_for_in {A} (v : option (list A)) (body : A -> M os unit) :
  (forall x, stops_at_timeout (body x)) ->
  stops_at_timeout (for_in os v body).
Proof.
  intros H. destruct v as [l|]; simpl; [by apply stops_for_list|].
  intros s. exists []. simpl. by rewrite app_nil_r.
Qed.

Lemma stops_run_cmd_loop cmd f fuel t c s :
  exists ev,
    trace os (run_cmd_loop os fuel cmd f t c s).2 = trace os s ++ ev
    /\ match (run_cmd_loop os fuel cmd f t c s).1 with
       | Raise (TimeoutExpired c' t') => last ev = Some (EvSpawn c' (Some t'))
       | _ => True
       end.
Proof.
  revert fuel t c s.
  apply (run_cmd_loop_cases cmd f (fun _ t c s r =>
    exists ev, trace os r.2 = trace os s ++ ev
      /\ match r.1 with
         | Raise (TimeoutExpired c' t') =>
             last ev = Some (EvSpawn c' (Some t'))
         | _ => True
         end)).
  - intros t c s. exists []. simpl. by rewrite app_nil_r.
  - intros _ t c s Hc. eexists. split; [reflexivity|]. done.
  - intros _ t c s Hc He. eexists. split; [reflexivity|]. done.
  - intros _ t c s Hc He Hx. eexists. split; [reflexivity|]. done.
  - intros _ t c s r Hc He Hx (ev & Htr & Hev).
    cbn [trace] in Htr. eexists. split.
    + rewrite Htr, <- app_assoc. reflexivity.
    + destruct r.1 as [b| [c' t'| |] |]; try done.
      by rewrite last_app, Hev.
Qed.

Lemma stops_run_cmd cmd sub out : stops_at_timeout (run_cmd os cmd sub out).
Proof.
  intros s. rewrite run_cmd_run.
  edestruct (stops_run_cmd_loop cmd (output_path out sub cmd) LOOP_FUEL 1 0)
    as (ev & Htr & Hev).
  rewrite Htr. cbn [trace]. eexists. split; [by rewrite <- app_assoc|].
  destruct (run_cmd_loop os LOOP_FUEL cmd _ 1 0 _).1 as [b| [c' t'| |] |];
    try done.
  by rewrite last_app, Hev.
Qed.

Lemma stops_get_kubectl_list ot kc to ns on jp :
  stops_at_timeout (get_kubectl_list os ot kc to ns on jp).
Proof.
  apply stops_returning. intros s.
  destruct (get_kubectl_list_general (os:=os) ot kc to ns on jp s)
    as (ev & Htr & _).
  destruct (get_kubectl_list_returns (os:=os) ot kc to ns on jp s) as [v Hv].
  eauto.
Qed.

Lemma stops_traverse kc to nl out :
  stops_at_timeout (traverse os kc to nl out).
Proof.
  unfold traverse. apply stops_bind.
  { apply stops_for_list. intros tpl.
    apply stops_bind; [apply stops_fmt|]. intros c. apply stops_run_cmd. }
  intros _. apply stops_for_in. intros namespace. apply stops_bind.
  { apply stops_for_list. intros tpl.
    apply stops_bind; [apply stops_fmt|]. intros c.
    apply stops_bind; [apply stops_fmt|]. intros sub. apply stops_run_cmd. }
  intros _. apply stops_bind; [apply stops_get_kubectl_list|].
  intros pods. apply stops_for_in. intros pod.
  apply stops_bind; [apply stops_get_kubectl_list|].
  intros containers. apply stops_for_in. intros container.
  apply stops_for_list. intros tpl.
  apply stops_bind; [apply stops_fmt|]. intros c.
  apply stops_bind; [apply stops_fmt|]. intros sub. apply stops_run_cmd.
Qed.

Lemma stops_main kubeconfig timeout cwd tmp_dir :
  stops_at_timeout (main os kubeconfig timeout cwd tmp_dir).
Proof.
  intros s. rewrite main_run. revert s.
  apply stops_bind; [apply stops_get_kubectl_list|]. intros nl s.
  unfold with_tempdir.
  assert (H : stops_at_timeout
    (traverse os (kubeconfig_flag cwd kubeconfig) (timeout_arg timeout) nl
       (PathLib.parse tmp_dir);; package os cwd (PathLib.parse tmp_dir))).
  { apply stops_bind; [apply stops_traverse|]. intros _.
    apply stops_returning. intros s'. eexists _, tt. by split. }
  destruct (H s) as (ev & Htr & Hev).
  destruct ((traverse os _ _ nl _;; package os cwd _) s) as [r s'].
  cbn [fst snd trace] in *. eauto.
Qed.

End StopsAtTimeout.

(** X16.  A timeout ends the run at once.  When a run ends with
    [TimeoutExpired] for a command, the last thing it did was to start
    that command, under the hard timeout it reports: no status line
    follows, no pause, no retry, no further command.  The same holds of a
    single call of [run_cmd]. *)
Theorem X16_timeout_ends_the_run_at_once (os : OS) (kubeconfig : string)
    (timeout : Z) (cwd tmp_dir : string) (cmd sub : string)
    (out : PathLib.Path) (s : state os) :
  (exists ev,
     trace os (main os kubeconfig timeout cwd tmp_dir s).2 = trace os s ++ ev
     /\ forall c t,
          (main os kubeconfig timeout cwd tmp_dir s).1
          = Raise (TimeoutExpired c t) ->
          last ev = Some (EvSpawn c (Some t)))
  /\ (exists ev,
        trace os (run_cmd os cmd sub out s).2 = trace os s ++ ev
        /\ forall c t,
             (run_cmd os cmd sub out s).1 = Raise (TimeoutExpired c t) ->
             c = cmd /\ t = 60 /\ last ev = Some (EvSpawn cmd (Some 60))).
Proof.
  split.
  - destruct (stops_main (os:=os) kubeconfig timeout cwd tmp_dir s)
      as (ev & Htr & Hev).
    exists ev. split; [done|]. intros c t Hr. by rewrite Hr in Hev.
  - destruct (stops_run_cmd (os:=os) cmd sub out s) as (ev & Htr & Hev).
    exists ev. split; [done|]. intros c t Hr. rewrite Hr in Hev.
    assert (Hc : TimeoutExpired c t = TimeoutExpired cmd 60).
    { rewrite run_cmd_run in Hr.
      edestruct (run_cmd_loop_result (os:=os) cmd (output_path out sub cmd)
                   LOOP_FUEL 1 0) as [H | H];
        [|rewrite H in Hr; congruence..].
      rewrite LOOP_FUEL_eq. vm_compute. lia. }
    injection Hc as -> ->. done.
Qed.

(** A cluster whose commands take 100 time units: the run is over with
    the start of the first inspection command. *)
Lemma X16_timeout_ends_the_run_at_once_witness :
  exists ev,
    trace _ (main Worlds.sluggish "" 15 "/home/u" "/tmp/snap"
               (Worlds.start Worlds.sluggish tt)).2 = ev
    /\ last ev
       = Some (EvSpawn "kubectl version  --request-timeout 15s" (Some 60)).
Proof.
  destruct (X16_timeout_ends_the_run_at_once Worlds.sluggish "" 15 "/home/u"
              "/tmp/snap" "kubectl version" "global"
              (PathLib.parse "/tmp/snap") (Worlds.start Worlds.sluggish tt))
    as [(ev & Htr & H) _].
  exists ev. split; [exact Htr|]. apply H. vm_compute. reflexivity.
Defined.
